(** * Shield bridge: the client bridge flow and the bridge ledger schema

    A shallow embedding of
    - [frontend/lib/api/solana.ts] (the [SolanaAPI] client),
    - [frontend/components/wallet/BridgeModal.tsx] (quote, execute and the
      status-monitoring loop), and
    - [backend/migrations/005_create_solana_wallets.sql] (the
      [bridge_transactions] table and its [updated_at] trigger, and the wallet
      tables),
    - the dashboard page, which renders the bridge modal,
    together with the properties of the bridge specification that these
    sources decide.  The request handlers of the server are not among the
    sources; where a property speaks of the ledger behind them, their
    effect is taken from the specification ([Backend.handle]). *)

From Stdlib Require Import ZArith Bool Ascii String List Lia.
From Stdlib Require Import Floats.SpecFloat.
From stdpp Require Import base decidable option list strings pretty gmap.
From Equations Require Import Equations.

Local Open Scope Z_scope.
Local Open Scope string_scope.

(** ** JavaScript numbers

    A JavaScript [number] is an IEEE 754 binary64 value.  It is modelled by
    the specification floats of the standard library at precision 53 and
    maximal exponent 1024, whose operations round to nearest, ties to even. *)
Module JsNumber.

Definition number : Type := spec_float.

Definition prec : Z := 53.
Definition emax : Z := 1024.

Definition NaN : number := S754_nan.
Definition Infinity : number := S754_infinity false.

(** [isNaN(x)]. *)
Definition isNaN (x : number) : bool :=
  match x with S754_nan => true | _ => false end.

(** The comparisons [x < y], [x <= y], [x > y], [x >= y]: all are false
    when an operand is [NaN]. *)
Definition ltb (x y : number) : bool := SFltb x y.
Definition leb (x y : number) : bool := SFleb x y.
Definition gtb (x y : number) : bool := SFltb y x.
Definition geb (x y : number) : bool := SFleb y x.

(** [x * y]. *)
Definition mul (x y : number) : number := SFmul prec emax x y.

(** The number value of an integer literal, and of a ratio of two positive
    integers (the nearest binary64 value, ties to even). *)
Definition of_Z (z : Z) : number := binary_normalize prec emax z 0 false.

Definition of_ratio (neg : bool) (num den : positive) : number :=
  let '(q, e, loc) := SFdiv_core_binary prec emax (Zpos num) 0 (Zpos den) 0 in
  binary_round_aux prec emax neg q e loc.

(** The mathematical value [m * 10^e10] of a decimal literal, rounded. *)
Definition of_decimal (neg : bool) (m : Z) (e10 : Z) : number :=
  match m with
  | Zpos p =>
      match e10 with
      | Zneg k => of_ratio neg p (Pos.pow 10 k)
      | _ => binary_round prec emax neg (p * Z.to_pos (10 ^ e10))%positive 0
      end
  | _ => S754_zero neg
  end.

(** [Math.floor(x)]: the largest integral number not above [x]; [NaN],
    the infinities and the zeros are returned unchanged. *)
Definition floorZ (s : bool) (m : positive) (e : Z) : Z :=
  let v := if s then Zneg m else Zpos m in
  match e with
  | Zneg k => v / Zpos (Pos.pow 2 k)
  | _ => v * 2 ^ e
  end.

Definition Math_floor (x : number) : number :=
  match x with
  | S754_finite s m e =>
      match floorZ s m e with
      | Z0 => S754_zero s
      | z => of_Z z
      end
  | _ => x
  end.

(** *** [parseFloat]

    [parseFloat(string)] skips leading white space and takes the longest
    prefix that is a [StrDecimalLiteral]: an optional sign followed by
    [Infinity] or by decimal digits with an optional fraction and an
    optional exponent part.  With no such prefix the result is [NaN].
    Strings are sequences of 8-bit characters here, so the white space
    recognised is the ASCII part of [StrWhiteSpaceChar]. *)
Definition is_white_space (c : ascii) : bool :=
  let n := nat_of_ascii c in
  ((9 <=? n) && (n <=? 13))%nat || (n =? 32)%nat.

Fixpoint skip_white_space (s : string) : string :=
  match s with
  | String c r => if is_white_space c then skip_white_space r else s
  | EmptyString => s
  end.

Definition digit_of (c : ascii) : option Z :=
  let n := nat_of_ascii c in
  if ((48 <=? n) && (n <=? 57))%nat then Some (Z.of_nat n - 48) else None.

(** [read_digits s acc n] consumes the decimal digits at the head of [s]:
    the value read (continuing [acc]), how many digits were read
    (continuing [n]) and the rest of the string. *)
Fixpoint read_digits (s : string) (acc : Z) (n : nat) : Z * nat * string :=
  match s with
  | String c r =>
      match digit_of c with
      | Some d => read_digits r (10 * acc + d) (S n)
      | None => (acc, n, s)
      end
  | EmptyString => (acc, n, s)
  end.

Definition read_sign (s : string) : bool * string :=
  match s with
  | String "-" r => (true, r)
  | String "+" r => (false, r)
  | _ => (false, s)
  end.

(** [ExponentPart]: [e] or [E], an optional sign and at least one digit;
    otherwise nothing is consumed and the exponent is 0. *)
Definition read_exponent (s : string) : Z :=
  match s with
  | String c r =>
      if (Ascii.eqb c "e" || Ascii.eqb c "E")%bool then
        let '(neg, r') := read_sign r in
        let '(v, n, _) := read_digits r' 0 0 in
        match n with
        | O => 0
        | _ => if neg then - v else v
        end
      else 0
  | EmptyString => 0
  end.

Definition parseFloat (input : string) : number :=
  let '(neg, s) := read_sign (skip_white_space input) in
  if String.prefix "Infinity" s then S754_infinity neg else
  let '(ip, ni, s1) := read_digits s 0 0 in
  let '(m, nf, s2) :=
    match s1 with
    | String "." r => read_digits r ip 0
    | _ => (ip, O, s1)
    end in
  match (ni + nf)%nat with
  | O => NaN
  | _ => of_decimal neg m (read_exponent s2 - Z.of_nat nf)
  end.


(** A number that is [+0], positive or [+Infinity]: not [NaN], not
    negative, not [-0]. *)
Definition is_nonneg (x : number) : bool :=
  match x with
  | S754_zero false | S754_infinity false | S754_finite false _ _ => true
  | _ => false
  end.

End JsNumber.

(** ** [frontend/lib/api/solana.ts] *)
Module Api.
Import JsNumber.

Module SolanaBalanceResponse.
Record t := { balance_lamports : number; balance_sol : number; address : string }.
End SolanaBalanceResponse.

Module BridgeQuoteRequest.
Record t := { amount_lamports : number; recipient_zcash_address : string }.
End BridgeQuoteRequest.

Module BridgeQuoteResponse.
Record t := {
  amount_in : string;
  amount_in_formatted : string;
  amount_out : string;
  amount_out_formatted : string;
  deposit_address : string;
  time_estimate : number }.
End BridgeQuoteResponse.

Module ExecuteBridgeRequest.
Record t := { amount_lamports : number; recipient_zcash_address : string }.
End ExecuteBridgeRequest.

Module ExecuteBridgeResponse.
Record t := {
  bridge_tx_id : string;
  solana_signature : string;
  deposit_address : string;
  expected_zec : string }.
End ExecuteBridgeResponse.

Module BridgeStatusRequest.
Record t := { deposit_address : string }.
End BridgeStatusRequest.

Module SwapDetails.
Record t := {
  depositedAmount : string;
  depositedAmountFormatted : string;
  amountOut : string;
  amountOutFormatted : string;
  destinationChainTxHashes : option (list (string * string)) }.
End SwapDetails.

Module BridgeStatusResponse.
Record t := {
  status : string;
  updatedAt : option string;
  swapDetails : option SwapDetails.t }.
End BridgeStatusResponse.

(** A thrown value: an [Error] with its message, or anything else. *)
Variant exn := Error (message : string) | Thrown.

(** The request handed to the browser's [fetch]: always a [POST] whose
    body is [JSON.stringify] of one of the request objects. *)
Variant Body :=
| BalanceBody (user_id : string)
| QuoteBody (request : BridgeQuoteRequest.t)
| ExecuteBody (request : ExecuteBridgeRequest.t)
| StatusBody (request : BridgeStatusRequest.t).

Record HttpRequest := {
  url : string;
  method : string;
  authorization : string;
  body : Body }.

(** The body of a response that is not [ok], once [response.json()] has
    parsed it, as far as [error.error || ...] and [new Error(...)] look at
    it.  The body is [null], and reading [error.error] throws a [TypeError]
    with the engine's message; or it is another value, whose member [error]
    is
    - absent, [null], [false] or [0] ([NoError]; a body that is a number, a
      string or a boolean has no member),
    - a string, possibly empty ([ErrorString]), or
    - another truthy value, a number, [true], an array or an object
      ([ErrorValue]), given with the string [new Error] makes of it: [42]
      for the number 42, the empty string for an empty array,
      [[object Object]] for an object. *)
Variant ErrorMember :=
| NoError
| ErrorString (s : string)
| ErrorValue (to_string : string).

Variant ErrorJson :=
| JsonNull (type_error : string)
| JsonValue (error : ErrorMember).

(** What the network answers: [fetch] rejects; or a response that is not
    [ok], whose body either is not JSON ([response.json()] rejects) or
    parses; or an [ok] response whose body [response.json()] either
    rejects on or parses. *)
Variant HttpOutcome (T : Type) :=
| FetchRejected (message : string)
| NotOk (status : Z) (json : option ErrorJson)
| Ok (json : string + T).
Arguments FetchRejected {T}.
Arguments NotOk {T}.
Arguments Ok {T}.

(** [process.env.NEXT_PUBLIC_API_URL || 'http://localhost:8000/api']. *)
Definition API_URL (NEXT_PUBLIC_API_URL : option string) : string :=
  match NEXT_PUBLIC_API_URL with
  | Some (String c r) => String c r
  | _ => "http://localhost:8000/api"
  end.

(** A request goes to [`${API_URL}${url}`]. *)
Definition address (NEXT_PUBLIC_API_URL : option string) (r : HttpRequest) : string :=
  API_URL NEXT_PUBLIC_API_URL ++ url r.

(** [`HTTP ${response.status}`]. *)
Definition http_status_message (status : Z) : string :=
  "HTTP " ++ pretty status.

Module SolanaAPI.

(** The request [SolanaAPI.fetch] issues. *)
Definition fetch_request (url accessToken : string) (b : Body) : HttpRequest :=
  {| url := url;
     method := "POST";
     authorization := "Bearer " ++ accessToken;
     body := b |}.

(** The rest of [SolanaAPI.fetch], once the network has answered.  On a
    response that is not [ok], a body that is not JSON is replaced by
    [{ error: 'An error occurred' }]; a truthy [error.error] becomes the
    message of the [Error] thrown, a falsy one gives way to the status. *)
Definition fetch {T} (o : HttpOutcome T) : exn + T :=
  match o with
  | FetchRejected m => inl (Error m)
  | NotOk status json =>
      let error := default (JsonValue (ErrorString "An error occurred")) json in
      match error with
      | JsonNull type_error => inl (Error type_error)
      | JsonValue (ErrorString (String c r)) => inl (Error (String c r))
      | JsonValue (ErrorValue to_string) => inl (Error to_string)
      | JsonValue _ => inl (Error (http_status_message status))
      end
  | Ok (inl m) => inl (Error m)
  | Ok (inr v) => inr v
  end.

Definition getBalance (userId accessToken : string) : HttpRequest :=
  fetch_request "/solana/balance" accessToken (BalanceBody userId).

Definition getBridgeQuote (request : BridgeQuoteRequest.t) (accessToken : string)
  : HttpRequest :=
  fetch_request "/solana/bridge/quote" accessToken (QuoteBody request).

Definition executeBridge (request : ExecuteBridgeRequest.t) (accessToken : string)
  : HttpRequest :=
  fetch_request "/solana/bridge/execute" accessToken (ExecuteBody request).

Definition getBridgeStatus (request : BridgeStatusRequest.t) (accessToken : string)
  : HttpRequest :=
  fetch_request "/solana/bridge/status" accessToken (StatusBody request).

End SolanaAPI.

End Api.


(** ** [frontend/components/wallet/BridgeModal.tsx] *)
Module BridgeModal.
Import JsNumber Api.

(** The props; [onSuccess] is optional and only ever called, so the prop
    is represented by whether it was passed.  [onClose] is always passed. *)
Record BridgeModalProps := {
  isOpen : bool;
  userId : string;
  currentBalance : number;
  zcashAddress : string;
  solanaAddress : string;
  onSuccess : bool }.

Module BridgeStep.
Variant t := input | quote | executing | monitoring | success | error.

Definition eqb (a b : t) : bool :=
  match a, b with
  | input, input | quote, quote | executing, executing
  | monitoring, monitoring | success, success | error, error => true
  | _, _ => false
  end.
End BridgeStep.

(** The strings shown in the error box: literals, messages of caught errors,
    and the template
    [`Insufficient balance. You have ${currentBalance.toFixed(4)} SOL`],
    kept with the balance it is built from. *)
Variant message :=
| Text (s : string)
| InsufficientBalance (currentBalance : number).

(** The component state: one field per [useState]. *)
Record State := {
  amount : string;
  step : BridgeStep.t;
  error : option message;
  quote : option BridgeQuoteResponse.t;
  bridgeResult : option ExecuteBridgeResponse.t;
  bridgeStatus : option BridgeStatusResponse.t;
  isLoading : bool }.

Definition initial : State :=
  {| amount := ""; step := BridgeStep.input; error := None; quote := None;
     bridgeResult := None; bridgeStatus := None; isLoading := false |}.

Definition setAmount (v : string) (s : State) : State :=
  {| amount := v; step := step s; error := error s; quote := quote s;
     bridgeResult := bridgeResult s; bridgeStatus := bridgeStatus s;
     isLoading := isLoading s |}.

Definition setStep (v : BridgeStep.t) (s : State) : State :=
  {| amount := amount s; step := v; error := error s; quote := quote s;
     bridgeResult := bridgeResult s; bridgeStatus := bridgeStatus s;
     isLoading := isLoading s |}.

Definition setError (v : option message) (s : State) : State :=
  {| amount := amount s; step := step s; error := v; quote := quote s;
     bridgeResult := bridgeResult s; bridgeStatus := bridgeStatus s;
     isLoading := isLoading s |}.

Definition setQuote (v : option BridgeQuoteResponse.t) (s : State) : State :=
  {| amount := amount s; step := step s; error := error s; quote := v;
     bridgeResult := bridgeResult s; bridgeStatus := bridgeStatus s;
     isLoading := isLoading s |}.

Definition setBridgeResult (v : option ExecuteBridgeResponse.t) (s : State) : State :=
  {| amount := amount s; step := step s; error := error s; quote := quote s;
     bridgeResult := v; bridgeStatus := bridgeStatus s;
     isLoading := isLoading s |}.

Definition setBridgeStatus (v : option BridgeStatusResponse.t) (s : State) : State :=
  {| amount := amount s; step := step s; error := error s; quote := quote s;
     bridgeResult := bridgeResult s; bridgeStatus := v;
     isLoading := isLoading s |}.

Definition setIsLoading (v : bool) (s : State) : State :=
  {| amount := amount s; step := step s; error := error s; quote := quote s;
     bridgeResult := bridgeResult s; bridgeStatus := bridgeStatus s;
     isLoading := v |}.

(** What a handler does to the world outside the component state.  The
    callbacks [onSuccess] and [onClose] are taken to return normally. *)
Variant Effect :=
| Fetch (request : HttpRequest)
| SetTimeout (delay : Z)
| OnSuccess
| OnClose
| ConsoleError (label : string) (err : exn).

(** [err instanceof Error ? err.message : fallback]. *)
Definition message_of (err : exn) (fallback : string) : message :=
  match err with
  | Error m => Text m
  | Thrown => Text fallback
  end.

(** [localStorage.getItem('shield_access_token') || '']. *)
Definition accessToken_of (shield_access_token : option string) : string :=
  default "" shield_access_token.

(** [Math.floor(amountNum * 1_000_000_000)]. *)
Definition lamports_of (amountNum : number) : number :=
  Math_floor (mul amountNum (of_Z 1000000000)).

Definition handleClose (s : State) : State * list Effect :=
  if negb (isLoading s)
     && negb (BridgeStep.eqb (step s) BridgeStep.executing)
     && negb (BridgeStep.eqb (step s) BridgeStep.monitoring)
  then
    (setBridgeStatus None (setBridgeResult None (setQuote None
       (setError None (setStep BridgeStep.input (setAmount "" s))))),
     [OnClose])
  else (s, []).

(** [handleGetQuote] up to its [await]: the state it leaves and the request
    it has issued, if it got that far. *)
Definition handleGetQuote (props : BridgeModalProps) (shield_access_token : option string)
    (s : State) : State * option HttpRequest :=
  if String.eqb (amount s) "" then
    (setError (Some (Text "Please enter an amount")) s, None)
  else
    let amountNum := parseFloat (amount s) in
    if isNaN amountNum || leb amountNum (of_Z 0) then
      (setError (Some (Text "Please enter a valid amount")) s, None)
    else if gtb amountNum (currentBalance props) then
      (setError (Some (InsufficientBalance (currentBalance props))) s, None)
    else
      let s := setError None (setIsLoading true s) in
      let accessToken := accessToken_of shield_access_token in
      let amountLamports := lamports_of amountNum in
      (s, Some (SolanaAPI.getBridgeQuote
                  {| BridgeQuoteRequest.amount_lamports := amountLamports;
                     BridgeQuoteRequest.recipient_zcash_address := zcashAddress props |}
                  accessToken)).

(** [handleGetQuote] from the point where the [await] settles. *)
Definition handleGetQuote_resume (r : exn + BridgeQuoteResponse.t) (s : State) : State :=
  let s :=
    match r with
    | inr quoteResponse => setStep BridgeStep.quote (setQuote (Some quoteResponse) s)
    | inl err => setError (Some (message_of err "Failed to get quote")) s
    end in
  setIsLoading false s.

(** [handleExecuteBridge] up to its [await]. *)
Definition handleExecuteBridge (props : BridgeModalProps) (shield_access_token : option string)
    (s : State) : State * option HttpRequest :=
  match quote s with
  | None => (s, None)
  | Some _ =>
      if String.eqb (amount s) "" then (s, None)
      else
        let s := setStep BridgeStep.executing (setError None (setIsLoading true s)) in
        let accessToken := accessToken_of shield_access_token in
        let amountLamports := lamports_of (parseFloat (amount s)) in
        (s, Some (SolanaAPI.executeBridge
                    {| ExecuteBridgeRequest.amount_lamports := amountLamports;
                       ExecuteBridgeRequest.recipient_zcash_address := zcashAddress props |}
                    accessToken))
  end.

(** The variables [startMonitoring] closes over: its two parameters, the
    [onSuccess] prop of the render whose handler started it, and the
    counter [attempts]. *)
Record Monitor := {
  depositAddress : string;
  accessToken : string;
  notify : bool;
  attempts : nat }.

Definition maxAttempts : nat := 60.

(** [checkStatus] up to its [await]: the status request. *)
Definition checkStatus (m : Monitor) : HttpRequest :=
  SolanaAPI.getBridgeStatus
    {| BridgeStatusRequest.deposit_address := depositAddress m |} (accessToken m).

(** [checkStatus] once the request has settled: the new state, the effects,
    and the value returned. *)
Definition checkStatus_resume (m : Monitor) (r : exn + BridgeStatusResponse.t) (s : State)
    : State * list Effect * bool :=
  match r with
  | inr statusResponse =>
      let s := setBridgeStatus (Some statusResponse) s in
      let status := BridgeStatusResponse.status statusResponse in
      if String.eqb status "COMPLETED" || String.eqb status "SUCCESS" then
        (setStep BridgeStep.success s, if notify m then [OnSuccess] else [], true)
      else if String.eqb status "FAILED" || String.eqb status "ERROR" then
        (setStep BridgeStep.error (setError (Some (Text "Bridge transaction failed")) s),
         [], true)
      else (s, [], false)
  | inl err => (s, [ConsoleError "Failed to check bridge status:" err], false)
  end.

(** [poll] up to the [await]: [attempts++] and the call of [checkStatus]. *)
Definition poll (m : Monitor) : Monitor * HttpRequest :=
  ({| depositAddress := depositAddress m; accessToken := accessToken m;
      notify := notify m; attempts := S (attempts m) |},
   checkStatus m).

(** [poll] after the [await], [m] holding the incremented counter: the new
    state, the effects, and the delay of the timer set on [poll], if any. *)
Definition poll_resume (m : Monitor) (r : exn + BridgeStatusResponse.t) (s : State)
    : State * list Effect * option Z :=
  let '(s, effects, isDone) := checkStatus_resume m r s in
  if negb isDone && (attempts m <? maxAttempts)%nat then
    (s, effects, Some 5000)
  else if (maxAttempts <=? attempts m)%nat then
    (setStep BridgeStep.error
       (setError (Some (Text "Bridge monitoring timeout. Please check status manually.")) s),
     effects, None)
  else (s, effects, None).

Definition startMonitoring (depositAddress accessToken : string) (onSuccess : bool)
    : Monitor * HttpRequest :=
  poll {| depositAddress := depositAddress; accessToken := accessToken;
          notify := onSuccess; attempts := 0 |}.

(** [handleExecuteBridge] from the point where the [await] settles;
    [accessToken] and [onSuccess] are those of the call that issued the
    request.  On success the monitor is started, which issues the first
    status request at once. *)
Definition handleExecuteBridge_resume (accessToken : string) (onSuccess : bool)
    (r : exn + ExecuteBridgeResponse.t) (s : State)
    : State * option (Monitor * HttpRequest) :=
  match r with
  | inr executeResponse =>
      let s := setStep BridgeStep.monitoring (setBridgeResult (Some executeResponse) s) in
      let started :=
        startMonitoring (ExecuteBridgeResponse.deposit_address executeResponse)
          accessToken onSuccess in
      (setIsLoading false s, Some started)
  | inl err =>
      (setIsLoading false
         (setStep BridgeStep.error
            (setError (Some (message_of err "Failed to execute bridge")) s)),
       None)
  end.

Definition handleBack (s : State) : State :=
  setQuote None (setError None (setStep BridgeStep.input s)).

(** *** The monitoring loop, run to its end

    [network k] is what the network answers to the [k]-th status request.
    [monitor network m s] is the call [poll()] made with the closure [m] in
    state [s], followed by every later call that a timer makes: the final
    state and, in order, the requests, callbacks and timers of the run. *)
Definition inspect {A} (a : A) : {b | a = b} := exist _ a eq_refl.

Equations? monitor (network : nat -> HttpOutcome BridgeStatusResponse.t)
    (m : Monitor) (s : State) : State * list Effect
    by wf (maxAttempts - attempts m)%nat lt :=
monitor network m s
    with inspect (poll_resume (fst (poll m))
                    (SolanaAPI.fetch (network (attempts (fst (poll m))))) s) := {
  | exist _ (s', effects, Some delay) _ =>
      let '(s'', rest) := monitor network (fst (poll m)) s' in
      (s'', Fetch (snd (poll m)) :: effects ++ SetTimeout delay :: rest)
  | exist _ (s', effects, None) _ =>
      (s', Fetch (snd (poll m)) :: effects) }.
Proof.
  unfold poll_resume in e.
  destruct (checkStatus_resume _ _ _) as [[s1 effs] isDone].
  cbn [poll fst attempts] in e |- *.
  destruct (negb isDone && (S (attempts m) <? maxAttempts)%nat) eqn:E.
  - apply andb_prop in E as [_ E]. apply Nat.ltb_lt in E. unfold maxAttempts in *. lia.
  - destruct (maxAttempts <=? S (attempts m))%nat; discriminate.
Qed.

(** *** The modal as a state machine

    Between two events the modal holds its props, its state and at most one
    suspended handler or timer. *)
Variant Pending :=
| Idle
| AwaitingQuote
| AwaitingExecute (accessToken : string) (onSuccess : bool)
| AwaitingStatus (m : Monitor)
| AwaitingTimer (m : Monitor).

Record App := {
  props : BridgeModalProps;
  shield_access_token : option string;
  state : State;
  pending : Pending;
  trace : list Effect }.

Variant Event :=
| InputChange (value : string)
| ClickGetQuote
| ClickBack
| ClickExecute
| ClickClose
| Rerender (p : BridgeModalProps)
| QuoteSettles (o : HttpOutcome BridgeQuoteResponse.t)
| ExecuteSettles (o : HttpOutcome ExecuteBridgeResponse.t)
| StatusSettles (o : HttpOutcome BridgeStatusResponse.t)
| TimerFires.

Definition start (p : BridgeModalProps) (token : option string) : App :=
  {| props := p; shield_access_token := token; state := initial;
     pending := Idle; trace := [] |}.

Definition with_state (a : App) (s : State) (p : Pending) (effects : list Effect) : App :=
  {| props := props a; shield_access_token := shield_access_token a;
     state := s; pending := p; trace := trace a ++ effects |}.

(** Which controls are rendered and enabled, read off the JSX. *)
Definition amount_input_shown (a : App) : bool :=
  isOpen (props a) && BridgeStep.eqb (step (state a)) BridgeStep.input.

Definition get_quote_enabled (a : App) : bool :=
  isOpen (props a) && BridgeStep.eqb (step (state a)) BridgeStep.input
  && negb (isLoading (state a) || String.eqb (amount (state a)) "").

Definition quote_buttons_enabled (a : App) : bool :=
  isOpen (props a) && BridgeStep.eqb (step (state a)) BridgeStep.quote
  && bool_decide (is_Some (quote (state a)))
  && negb (isLoading (state a)).

Definition close_enabled (a : App) : bool :=
  isOpen (props a)
  && (negb (isLoading (state a)
            || BridgeStep.eqb (step (state a)) BridgeStep.executing
            || BridgeStep.eqb (step (state a)) BridgeStep.monitoring)
      || (BridgeStep.eqb (step (state a)) BridgeStep.success
          && bool_decide (is_Some (bridgeResult (state a))))
      || BridgeStep.eqb (step (state a)) BridgeStep.error).

(** One event; [None] when the event cannot happen in that state. *)
Definition dispatch (e : Event) (a : App) : option App :=
  match e with
  | InputChange v =>
      if amount_input_shown a
      then Some (with_state a (setAmount v (state a)) (pending a) [])
      else None
  | ClickGetQuote =>
      if get_quote_enabled a then
        match handleGetQuote (props a) (shield_access_token a) (state a) with
        | (s, Some request) => Some (with_state a s AwaitingQuote [Fetch request])
        | (s, None) => Some (with_state a s (pending a) [])
        end
      else None
  | ClickBack =>
      if quote_buttons_enabled a
      then Some (with_state a (handleBack (state a)) (pending a) [])
      else None
  | ClickExecute =>
      if quote_buttons_enabled a then
        match handleExecuteBridge (props a) (shield_access_token a) (state a) with
        | (s, Some request) =>
            Some (with_state a s
                    (AwaitingExecute (accessToken_of (shield_access_token a))
                       (onSuccess (props a)))
                    [Fetch request])
        | (s, None) => Some (with_state a s (pending a) [])
        end
      else None
  | ClickClose =>
      if close_enabled a then
        let '(s, effects) := handleClose (state a) in
        Some (with_state a s (pending a) effects)
      else None
  | Rerender p =>
      Some {| props := p; shield_access_token := shield_access_token a;
              state := state a; pending := pending a; trace := trace a |}
  | QuoteSettles o =>
      match pending a with
      | AwaitingQuote =>
          Some (with_state a (handleGetQuote_resume (SolanaAPI.fetch o) (state a)) Idle [])
      | _ => None
      end
  | ExecuteSettles o =>
      match pending a with
      | AwaitingExecute token notify =>
          match handleExecuteBridge_resume token notify (SolanaAPI.fetch o) (state a) with
          | (s, Some (m, request)) => Some (with_state a s (AwaitingStatus m) [Fetch request])
          | (s, None) => Some (with_state a s Idle [])
          end
      | _ => None
      end
  | StatusSettles o =>
      match pending a with
      | AwaitingStatus m =>
          match poll_resume m (SolanaAPI.fetch o) (state a) with
          | (s, effects, Some delay) =>
              Some (with_state a s (AwaitingTimer m) (effects ++ [SetTimeout delay]))
          | (s, effects, None) => Some (with_state a s Idle effects)
          end
      | _ => None
      end
  | TimerFires =>
      match pending a with
      | AwaitingTimer m =>
          let '(m', request) := poll m in
          Some (with_state a (state a) (AwaitingStatus m') [Fetch request])
      | _ => None
      end
  end.

(** *** Reading a run

    The status strings [checkStatus] tests for, the polls in which it
    returns [true], and the requests and timers of a trace. *)
Definition fulfilled (status : string) : Prop :=
  status = "COMPLETED" \/ status = "SUCCESS".

Definition failed (status : string) : Prop :=
  status = "FAILED" \/ status = "ERROR".

Definition is_done (r : exn + BridgeStatusResponse.t) : bool :=
  match r with
  | inr statusResponse =>
      let status := BridgeStatusResponse.status statusResponse in
      String.eqb status "COMPLETED" || String.eqb status "SUCCESS"
      || String.eqb status "FAILED" || String.eqb status "ERROR"
  | inl _ => false
  end.

Variant Tick := Request (request : HttpRequest) | Timer (delay : Z).

Fixpoint ticks (effects : list Effect) : list Tick :=
  match effects with
  | [] => []
  | Fetch r :: rest => Request r :: ticks rest
  | SetTimeout d :: rest => Timer d :: ticks rest
  | _ :: rest => ticks rest
  end.

(** [n + 1] times the request [r], a timer of [delay] before each but the
    first. *)
Fixpoint every (delay : Z) (r : HttpRequest) (n : nat) : list Tick :=
  match n with
  | O => [Request r]
  | S n' => Request r :: Timer delay :: every delay r n'
  end.

Definition timeout_message : message :=
  Text "Bridge monitoring timeout. Please check status manually.".

(** The number of requests among the ticks. *)
Fixpoint requests (l : list Tick) : nat :=
  match l with
  | [] => O
  | Request _ :: rest => S (requests rest)
  | Timer _ :: rest => requests rest
  end.

(** A request that fails on the network or comes back with a status that is
    not [ok]. *)
Definition request_failed {T} (o : HttpOutcome T) : Prop :=
  match o with
  | FetchRejected _ | NotOk _ _ => True
  | Ok _ => False
  end.

(** The run that [startMonitoring(depositAddress, accessToken)] starts. *)
Definition monitoring_run (network : nat -> HttpOutcome BridgeStatusResponse.t)
    (depositAddress accessToken : string) (onSuccess : bool) (s : State)
    : State * list Effect :=
  monitor network
    {| depositAddress := depositAddress; accessToken := accessToken;
       notify := onSuccess; attempts := 0 |} s.

(** What a run that only watches may do: ask for the status with the given
    request, wait 5000 ms, and log to the console. *)
Definition only_watches (status_request : HttpRequest) (eff : Effect) : Prop :=
  match eff with
  | Fetch r => r = status_request
  | SetTimeout d => d = 5000
  | ConsoleError _ _ => True
  | OnSuccess | OnClose => False
  end.

(** The quote flow from click to settled request. *)
Definition quote_flow (props : BridgeModalProps) (token : option string)
    (o : HttpOutcome BridgeQuoteResponse.t) (s : State) : State * list Effect :=
  match handleGetQuote props token s with
  | (s1, Some request) => (handleGetQuote_resume (SolanaAPI.fetch o) s1, [Fetch request])
  | (s1, None) => (s1, [])
  end.

(** A sequence of events, from left to right. *)
Fixpoint run (events : list Event) (a : App) : option App :=
  match events with
  | [] => Some a
  | e :: rest =>
      match dispatch e a with
      | Some a' => run rest a'
      | None => None
      end
  end.

(** The amount of the quote request issued last in a trace. *)
Definition quote_amount (eff : Effect) : option number :=
  match eff with
  | Fetch r =>
      match body r with
      | QuoteBody q => Some (BridgeQuoteRequest.amount_lamports q)
      | _ => None
      end
  | _ => None
  end.

Definition quoted (effects : list Effect) : option number :=
  last (omap quote_amount effects).

(** An event is calm unless it edits the amount while a quote request is in
    flight; [run_calm] is [run] restricted to calm events. *)
Definition calm (e : Event) (a : App) : bool :=
  match e, pending a with
  | InputChange _, AwaitingQuote => false
  | _, _ => true
  end.

Fixpoint run_calm (events : list Event) (a : App) : option App :=
  match events with
  | [] => Some a
  | e :: rest =>
      if calm e a then
        match dispatch e a with
        | Some a' => run_calm rest a'
        | None => None
        end
      else None
  end.

(** What calm events keep true: on the input step no quote is held; while a
    quote request is in flight the modal is loading on the input step; and
    whenever a quote is in flight or held, the amount last quoted is the
    conversion of the amount in the field. *)
Definition consistent (a : App) : Prop :=
  (step (state a) = BridgeStep.input -> quote (state a) = None)
  /\ (pending a = AwaitingQuote ->
      step (state a) = BridgeStep.input /\ isLoading (state a) = true)
  /\ (pending a = AwaitingQuote \/ is_Some (quote (state a)) ->
      quoted (trace a) = Some (lamports_of (parseFloat (amount (state a))))).


(** *** What every run keeps true

    The monitor polls for the deposit address of the execute result held in
    the state. *)
Definition watches (m : Monitor) (s : State) : Prop :=
  exists r, bridgeResult s = Some r
            /\ depositAddress m = ExecuteBridgeResponse.deposit_address r.

(** The suspended handler or timer determines the loading flag and, for an
    execute or a monitor, the step; the quote step holds a quote and the
    success step an execute result. *)
Definition coherent (a : App) : Prop :=
  match pending a with
  | Idle =>
      isLoading (state a) = false
      /\ step (state a) <> BridgeStep.executing
      /\ step (state a) <> BridgeStep.monitoring
  | AwaitingQuote =>
      isLoading (state a) = true /\ step (state a) = BridgeStep.input
  | AwaitingExecute _ _ =>
      isLoading (state a) = true /\ step (state a) = BridgeStep.executing
  | AwaitingStatus m =>
      isLoading (state a) = false /\ step (state a) = BridgeStep.monitoring
      /\ watches m (state a) /\ (1 <= attempts m <= maxAttempts)%nat
  | AwaitingTimer m =>
      isLoading (state a) = false /\ step (state a) = BridgeStep.monitoring
      /\ watches m (state a) /\ (1 <= attempts m < maxAttempts)%nat
  end
  /\ (step (state a) = BridgeStep.quote -> is_Some (quote (state a)))
  /\ (step (state a) = BridgeStep.success -> is_Some (bridgeResult (state a))).

(** The order of the requests of a trace: a quote request may come at any
    time; an execute request only when the request before it was a quote
    request; a status request only when the request before it was an
    execute or a status request; a balance request never. *)
Variant Phase := Unquoted | Quoted | Executed.

Definition advance (ph : Phase) (eff : Effect) : option Phase :=
  match eff with
  | Fetch r =>
      match body r, ph with
      | QuoteBody _, _ => Some Quoted
      | ExecuteBody _, Quoted => Some Executed
      | StatusBody _, Executed => Some Executed
      | _, _ => None
      end
  | _ => Some ph
  end.

Definition in_order (effects : list Effect) : option Phase :=
  fold_left (fun acc eff => acc ≫= fun ph => advance ph eff) effects (Some Unquoted).

Definition ordered (a : App) : Prop :=
  exists ph,
    in_order (trace a) = Some ph
    /\ (pending a = AwaitingQuote \/ step (state a) = BridgeStep.quote -> ph = Quoted)
    /\ match pending a with
       | AwaitingExecute _ _ | AwaitingStatus _ | AwaitingTimer _ => ph = Executed
       | _ => True
       end.

(** The calls of [onSuccess] and [onClose] among the effects, in order. *)
Fixpoint callbacks (effects : list Effect) : list Effect :=
  match effects with
  | [] => []
  | OnSuccess :: rest => OnSuccess :: callbacks rest
  | OnClose :: rest => OnClose :: callbacks rest
  | _ :: rest => callbacks rest
  end.

End BridgeModal.


(** ** The dashboard page, which renders the bridge modal

    Of [DashboardPage] the part that feeds the Solana card and
    [<BridgeModal>]: the user and flags from [useAuth], the Solana balance
    with its loading flag, and whether the modal is open. *)
Module Dashboard.
Import JsNumber Api BridgeModal.

(** [User], as the auth client declares it. *)
Record User := {
  id : string;
  email : string;
  full_name : option string;
  email_verified : bool;
  created_at : string;
  wallet_address : option string;
  solana_address : option string }.

(** [loading], [isAuthenticated] and [user] come from [useAuth]; the other
    fields are [useState] values. *)
Record State := {
  loading : bool;
  isAuthenticated : bool;
  user : option User;
  solanaBalance : option SolanaBalanceResponse.t;
  solanaBalanceLoading : bool;
  bridgeModalOpen : bool }.

Definition setSolanaBalance (v : option SolanaBalanceResponse.t) (d : State) : State :=
  {| loading := loading d; isAuthenticated := isAuthenticated d; user := user d;
     solanaBalance := v; solanaBalanceLoading := solanaBalanceLoading d;
     bridgeModalOpen := bridgeModalOpen d |}.

Definition setSolanaBalanceLoading (v : bool) (d : State) : State :=
  {| loading := loading d; isAuthenticated := isAuthenticated d; user := user d;
     solanaBalance := solanaBalance d; solanaBalanceLoading := v;
     bridgeModalOpen := bridgeModalOpen d |}.

Definition setBridgeModalOpen (v : bool) (d : State) : State :=
  {| loading := loading d; isAuthenticated := isAuthenticated d; user := user d;
     solanaBalance := solanaBalance d; solanaBalanceLoading := solanaBalanceLoading d;
     bridgeModalOpen := v |}.

(** A string, possibly absent, used as a condition: true unless it is
    absent or empty. *)
Definition truthy (s : option string) : bool :=
  match s with
  | Some (String _ _) => true
  | _ => false
  end.

(** [solanaBalance?.balance_sol || 0]: the balance unless there is none or
    it is [0], [-0] or [NaN]. *)
Definition balance_sol_or_0 (d : State) : number :=
  match SolanaBalanceResponse.balance_sol <$> solanaBalance d with
  | Some (S754_zero _) | Some S754_nan | None => of_Z 0
  | Some v => v
  end.

(** [fetchSolanaBalance] up to its [await]. *)
Definition fetchSolanaBalance (shield_access_token : option string) (d : State)
    : State * option HttpRequest :=
  match user d with
  | Some u =>
      if truthy (Some (id u)) then
        (setSolanaBalanceLoading true d,
         Some (SolanaAPI.getBalance (id u) (accessToken_of shield_access_token)))
      else (d, None)
  | None => (d, None)
  end.

(** [fetchSolanaBalance] from the point where the [await] settles. *)
Definition fetchSolanaBalance_resume (r : exn + SolanaBalanceResponse.t) (d : State)
    : State * list Effect :=
  match r with
  | inr balanceData =>
      (setSolanaBalanceLoading false (setSolanaBalance (Some balanceData) d), [])
  | inl err =>
      (setSolanaBalanceLoading false d,
       [ConsoleError "Failed to fetch Solana balance:" err])
  end.

(** The page renders its content once authentication has loaded a user. *)
Definition rendered (d : State) : bool :=
  negb (loading d) && bool_decide (is_Some (user d)) && isAuthenticated d.

(** The button [Bridge SOL to Zcash] of the Solana card. *)
Definition bridge_button_enabled (d : State) : bool :=
  rendered d
  && truthy (user d ≫= solana_address)
  && negb (solanaBalanceLoading d || leb (balance_sol_or_0 d) (of_Z 0)).

(** The props of [<BridgeModal>], when the page renders one. *)
Definition bridge_modal (d : State) : option BridgeModalProps :=
  if rendered d then
    match user d with
    | Some u =>
        match wallet_address u, solana_address u with
        | Some zcash, Some solana =>
            if truthy (Some (id u)) && truthy (Some zcash) && truthy (Some solana) then
              Some {| isOpen := bridgeModalOpen d;
                      userId := id u;
                      currentBalance := balance_sol_or_0 d;
                      zcashAddress := zcash;
                      solanaAddress := solana;
                      onSuccess := true |}
            else None
        | _, _ => None
        end
    | None => None
    end
  else None.

(** The recipient named in a quote or execute request. *)
Definition recipient (r : HttpRequest) : option string :=
  match body r with
  | QuoteBody q => Some (BridgeQuoteRequest.recipient_zcash_address q)
  | ExecuteBody x => Some (ExecuteBridgeRequest.recipient_zcash_address x)
  | _ => None
  end.

(** A balance refresh from the call of [fetchSolanaBalance] to the settled
    request. *)
Definition refresh (shield_access_token : option string)
    (o : HttpOutcome SolanaBalanceResponse.t) (d : State) : State * list Effect :=
  match fetchSolanaBalance shield_access_token d with
  | (d1, Some request) =>
      let '(d2, effects) := fetchSolanaBalance_resume (SolanaAPI.fetch o) d1 in
      (d2, Fetch request :: effects)
  | (d1, None) => (d1, [])
  end.

End Dashboard.


(** ** [backend/migrations/005_create_solana_wallets.sql]

    The migration is embedded as data (tables, indexes, triggers and the
    trigger function) next to the part of SQL's meaning it relies on:
    [INSERT] and [UPDATE] with column defaults, [NOT NULL], [PRIMARY KEY],
    [UNIQUE], [REFERENCES] and [BEFORE UPDATE ... FOR EACH ROW] triggers. *)
Module Ledger.

Variant sqltype := UUID | TEXT | BIGINT | BYTEA | TIMESTAMPTZ | TEXT_ARRAY.

Variant value :=
| NULL
| Uuid (u : N)
| Text (s : string)
| Bigint (n : Z)
| Bytea (b : list N)
| Timestamptz (t : Z)
| TextArray (a : list string).

#[global] Instance value_eq_dec : EqDecision value.
Proof. solve_decision. Defined.

Definition has_type (t : sqltype) (v : value) : bool :=
  match v, t with
  | NULL, _ => true
  | Uuid _, UUID => true
  | Text _, TEXT => true
  | Bigint n, BIGINT => ((- 2 ^ 63 <=? n) && (n <? 2 ^ 63))%Z
  | Bytea _, BYTEA => true
  | Timestamptz _, TIMESTAMPTZ => true
  | TextArray _, TEXT_ARRAY => true
  | _, _ => false
  end.

(** The expressions that occur as column defaults. *)
Variant expr := Gen_random_uuid | Now | Literal (v : value).

Record column := {
  col_name : string;
  col_type : sqltype;
  not_null : bool;
  primary_key : bool;
  unique : bool;
  references : option (string * string);
  default_expr : option expr }.

Record table := {
  tbl_name : string;
  columns : list column;
  unique_constraints : list (list string) }.

Record index := {
  idx_name : string;
  idx_table : string;
  idx_columns : list string;
  idx_unique : bool }.

Variant timing := BEFORE | AFTER.
Variant operation := INSERT | UPDATE | DELETE.

#[global] Instance timing_eq_dec : EqDecision timing.
Proof. solve_decision. Defined.

#[global] Instance operation_eq_dec : EqDecision operation.
Proof. solve_decision. Defined.

Record trigger := {
  trg_name : string;
  trg_timing : timing;
  trg_operation : operation;
  trg_table : string;
  trg_for_each_row : bool;
  trg_function : string }.

(** A row maps column names to values; a database maps table names to the
    rows stored, in insertion order. *)
Abbreviation row := (gmap string value).
Abbreviation database := (gmap string (list row)).

(** What a statement reads from its surroundings: the value of [NOW()] and
    the value [gen_random_uuid()] returns. *)
Record env := { now : Z; random_uuid : N }.

Definition trigger_function : Type := env -> row -> row -> option row.

Record schema := {
  tables : list table;
  indexes : list index;
  triggers : list trigger;
  functions : list (string * trigger_function) }.

(** *** Column definitions, written as in the DDL *)
Definition col (name : string) (ty : sqltype) : column :=
  {| col_name := name; col_type := ty; not_null := false; primary_key := false;
     unique := false; references := None; default_expr := None |}.

Definition NOT_NULL (c : column) : column :=
  {| col_name := col_name c; col_type := col_type c; not_null := true;
     primary_key := primary_key c; unique := unique c;
     references := references c; default_expr := default_expr c |}.

Definition PRIMARY_KEY (c : column) : column :=
  {| col_name := col_name c; col_type := col_type c; not_null := not_null c;
     primary_key := true; unique := unique c;
     references := references c; default_expr := default_expr c |}.

Definition UNIQUE (c : column) : column :=
  {| col_name := col_name c; col_type := col_type c; not_null := not_null c;
     primary_key := primary_key c; unique := true;
     references := references c; default_expr := default_expr c |}.

Definition REFERENCES (t k : string) (c : column) : column :=
  {| col_name := col_name c; col_type := col_type c; not_null := not_null c;
     primary_key := primary_key c; unique := unique c;
     references := Some (t, k); default_expr := default_expr c |}.

Definition DEFAULT (e : expr) (c : column) : column :=
  {| col_name := col_name c; col_type := col_type c; not_null := not_null c;
     primary_key := primary_key c; unique := unique c;
     references := references c; default_expr := Some e |}.

(** *** The migration *)
Definition solana_wallets : table :=
  {| tbl_name := "solana_wallets";
     columns :=
       [ DEFAULT Gen_random_uuid (PRIMARY_KEY (col "id" UUID));
         REFERENCES "users" "id" (NOT_NULL (col "user_id" UUID));
         NOT_NULL (col "encrypted_keypair" BYTEA);
         UNIQUE (NOT_NULL (col "public_key" TEXT));
         DEFAULT Now (NOT_NULL (col "created_at" TIMESTAMPTZ));
         DEFAULT Now (NOT_NULL (col "updated_at" TIMESTAMPTZ)) ];
     unique_constraints := [ ["user_id"] ] |}.

Definition bridge_transactions : table :=
  {| tbl_name := "bridge_transactions";
     columns :=
       [ DEFAULT Gen_random_uuid (PRIMARY_KEY (col "id" UUID));
         REFERENCES "users" "id" (NOT_NULL (col "user_id" UUID));
         col "solana_tx_signature" TEXT;
         NOT_NULL (col "deposit_address" TEXT);
         NOT_NULL (col "amount_sol_lamports" BIGINT);
         col "expected_zec_zatoshis" BIGINT;
         DEFAULT (Literal (Text "PENDING")) (NOT_NULL (col "status" TEXT));
         col "error_message" TEXT;
         col "near_intent_hashes" TEXT_ARRAY;
         col "near_tx_hashes" TEXT_ARRAY;
         col "zec_tx_hash" TEXT;
         col "actual_zec_zatoshis" BIGINT;
         NOT_NULL (col "refund_address" TEXT);
         NOT_NULL (col "recipient_address" TEXT);
         DEFAULT Now (NOT_NULL (col "created_at" TIMESTAMPTZ));
         DEFAULT Now (NOT_NULL (col "updated_at" TIMESTAMPTZ));
         col "completed_at" TIMESTAMPTZ ];
     unique_constraints := [] |}.

Definition CREATE_INDEX (name tbl : string) (cols : list string) : index :=
  {| idx_name := name; idx_table := tbl; idx_columns := cols; idx_unique := false |}.

Definition CREATE_UNIQUE_INDEX (name tbl : string) (cols : list string) : index :=
  {| idx_name := name; idx_table := tbl; idx_columns := cols; idx_unique := true |}.

(** [NEW.updated_at = NOW(); RETURN NEW;] *)
Definition update_updated_at_column : trigger_function :=
  fun e OLD NEW => Some (<["updated_at" := Timestamptz (now e)]> NEW).

Definition update_solana_wallets_updated_at : trigger :=
  {| trg_name := "update_solana_wallets_updated_at"; trg_timing := BEFORE;
     trg_operation := UPDATE; trg_table := "solana_wallets";
     trg_for_each_row := true; trg_function := "update_updated_at_column" |}.

Definition update_bridge_transactions_updated_at : trigger :=
  {| trg_name := "update_bridge_transactions_updated_at"; trg_timing := BEFORE;
     trg_operation := UPDATE; trg_table := "bridge_transactions";
     trg_for_each_row := true; trg_function := "update_updated_at_column" |}.

Definition migration_005 : schema :=
  {| tables := [ solana_wallets; bridge_transactions ];
     indexes :=
       [ CREATE_INDEX "idx_solana_wallets_user_id" "solana_wallets" ["user_id"];
         CREATE_INDEX "idx_solana_wallets_public_key" "solana_wallets" ["public_key"];
         CREATE_INDEX "idx_bridge_transactions_user_id" "bridge_transactions" ["user_id"];
         CREATE_INDEX "idx_bridge_transactions_status" "bridge_transactions" ["status"];
         CREATE_INDEX "idx_bridge_transactions_deposit_address" "bridge_transactions"
           ["deposit_address"];
         CREATE_INDEX "idx_bridge_transactions_created_at" "bridge_transactions"
           ["created_at"] ];
     triggers :=
       [ update_solana_wallets_updated_at; update_bridge_transactions_updated_at ];
     functions := [ ("update_updated_at_column", update_updated_at_column) ] |}.

(** *** Statements *)
Definition get (r : row) (c : string) : value := default NULL (r !! c).

Definition rows_of (db : database) (name : string) : list row :=
  default [] (db !! name).

Definition find_table (S : schema) (name : string) : option table :=
  List.find (fun t => String.eqb (tbl_name t) name) (tables S).

Definition known_columns (t : table) (names : list string) : bool :=
  forallb (fun n => existsb (String.eqb n) (map col_name (columns t))) names.

(** The column lists whose values may not repeat in a table: its primary
    key, its [UNIQUE] columns, its [UNIQUE (...)] constraints and its unique
    indexes.  A plain [CREATE INDEX] adds none. *)
Definition unique_keys (S : schema) (t : table) : list (list string) :=
  match map col_name (List.filter primary_key (columns t)) with
  | [] => []
  | pk => [pk]
  end
  ++ map (fun c => [col_name c]) (List.filter unique (columns t))
  ++ unique_constraints t
  ++ map idx_columns
       (List.filter (fun i => idx_unique i && String.eqb (idx_table i) (tbl_name t))
          (indexes S)).

(** Two rows collide on a key when they agree on it and none of its values
    is [NULL]. *)
Definition collide (key : list string) (r r' : row) : bool :=
  forallb (fun c => negb (bool_decide (get r c = NULL))) key
  && bool_decide (map (get r) key = map (get r') key).

Definition check_column (db : database) (r : row) (c : column) : bool :=
  has_type (col_type c) (get r (col_name c))
  && (negb (not_null c || primary_key c) || negb (bool_decide (get r (col_name c) = NULL)))
  && match references c with
     | Some (t', k) =>
         bool_decide (get r (col_name c) = NULL)
         || existsb (fun r' => bool_decide (get r' k = get r (col_name c))) (rows_of db t')
     | None => true
     end.

(** The constraints on a row [r] about to be stored next to [others]. *)
Definition check_row (S : schema) (t : table) (db : database) (others : list row)
    (r : row) : bool :=
  forallb (check_column db r) (columns t)
  && forallb (fun key => forallb (fun r' => negb (collide key r r')) others)
       (unique_keys S t).

Definition eval (e : env) (x : expr) : value :=
  match x with
  | Gen_random_uuid => Uuid (random_uuid e)
  | Now => Timestamptz (now e)
  | Literal v => v
  end.

Definition with_defaults (e : env) (t : table) (supplied : row) : row :=
  list_to_map
    (map (fun c =>
            (col_name c,
             match supplied !! col_name c with
             | Some v => v
             | None => from_option (eval e) NULL (default_expr c)
             end))
       (columns t)).

(** [INSERT INTO name (...) VALUES (...)], the columns given in [supplied]. *)
Definition insert (S : schema) (e : env) (name : string) (supplied : row)
    (db : database) : option database :=
  match find_table S name with
  | Some t =>
      let r := with_defaults e t supplied in
      if known_columns t (map fst (map_to_list supplied))
         && check_row S t db (rows_of db name) r
      then Some (<[name := (rows_of db name ++ [r])%list]> db)
      else None
  | None => None
  end.

(** [SET c1 = e1, ...]: every expression is evaluated on the old row. *)
Definition assign (set : list (string * (row -> value))) (OLD : row) : row :=
  fold_left (fun NEW a => <[fst a := snd a OLD]> NEW) set OLD.

Definition row_triggers (S : schema) (tm : timing) (op : operation) (name : string)
    : list trigger_function :=
  omap (fun g =>
          if bool_decide (trg_timing g = tm) && bool_decide (trg_operation g = op)
             && String.eqb (trg_table g) name && trg_for_each_row g
          then snd <$> List.find (fun f => String.eqb (fst f) (trg_function g)) (functions S)
          else None)
    (triggers S).

(** The row triggers fire one after the other on the row being built; a
    trigger that returns no row cancels the operation for that row. *)
Definition fire (e : env) (fs : list trigger_function) (OLD NEW : row) : option row :=
  fold_left (fun acc f => acc ≫= f e OLD) fs (Some NEW).

Definition update_row (S : schema) (e : env) (name : string)
    (set : list (string * (row -> value))) (OLD : row) : row :=
  default OLD (fire e (row_triggers S BEFORE UPDATE name) OLD (assign set OLD)).

(** [UPDATE name SET ... WHERE ...]: the rows selected are rebuilt, and each
    rebuilt row must satisfy the constraints next to all other rows. *)
Definition update (S : schema) (e : env) (name : string)
    (set : list (string * (row -> value))) (where_ : row -> bool)
    (db : database) : option database :=
  match find_table S name with
  | Some t =>
      let rows := rows_of db name in
      let rows' := (fun r => if where_ r then update_row S e name set r else r) <$> rows in
      if known_columns t (map fst set)
         && forallb (fun b => b)
              (imap (fun i r => negb (where_ r)
                                || from_option (check_row S t db (delete i rows')) false
                                     (rows' !! i))
                 rows)
      then Some (<[name := rows']> db)
      else None
  | None => None
  end.

(** The states of the ledger: the [bridge_transactions] table starts empty
    and changes by [INSERT] and [UPDATE] statements only. *)
Inductive reachable : database -> Prop :=
| reachable_empty db :
    rows_of db "bridge_transactions" = [] -> reachable db
| reachable_insert db e supplied db' :
    reachable db ->
    insert migration_005 e "bridge_transactions" supplied db = Some db' ->
    reachable db'
| reachable_update db e set where_ db' :
    reachable db ->
    update migration_005 e "bridge_transactions" set where_ db = Some db' ->
    reachable db'.

(** No two rows of the list carry the same value in column [c]. *)
Definition distinct_on (c : string) (rows : list row) : Prop :=
  forall i j r1 r2,
    i <> j -> rows !! i = Some r1 -> rows !! j = Some r2 -> get r1 c <> get r2 c.

(** Every row has a value in column [c]. *)
Definition present (c : string) (rows : list row) : Prop :=
  Forall (fun r => get r c <> NULL) rows.


(** *** The migration that creates [wallets]

    It stands in the same file after the migration above.  Its trigger runs
    [update_updated_at_column], which that migration (re)defines. *)
Definition wallets : table :=
  {| tbl_name := "wallets";
     columns :=
       [ DEFAULT Gen_random_uuid (PRIMARY_KEY (col "id" UUID));
         REFERENCES "users" "id" (NOT_NULL (col "user_id" UUID));
         NOT_NULL (col "encrypted_mnemonic" TEXT);
         NOT_NULL (col "address" TEXT);
         col "transparent_address" TEXT;
         NOT_NULL (col "birthday_height" BIGINT);
         DEFAULT Now (NOT_NULL (col "created_at" TIMESTAMPTZ));
         DEFAULT Now (NOT_NULL (col "updated_at" TIMESTAMPTZ));
         col "last_synced_at" TIMESTAMPTZ;
         col "last_synced_height" BIGINT ];
     unique_constraints := [] |}.

Definition update_wallets_updated_at : trigger :=
  {| trg_name := "update_wallets_updated_at"; trg_timing := BEFORE;
     trg_operation := UPDATE; trg_table := "wallets";
     trg_for_each_row := true; trg_function := "update_updated_at_column" |}.

Definition wallets_migration : schema :=
  {| tables := [ wallets ];
     indexes := [ CREATE_UNIQUE_INDEX "idx_wallets_user_id" "wallets" ["user_id"] ];
     triggers := [ update_wallets_updated_at ];
     functions := [ ("update_updated_at_column", update_updated_at_column) ] |}.

(** The states of the table [name] of a schema: empty at first, then
    changed by [INSERT] and [UPDATE] statements on it, while other tables
    change in any way. *)
Inductive history (S : schema) (name : string) : database -> Prop :=
| history_empty db :
    rows_of db name = [] -> history S name db
| history_insert db e supplied db' :
    history S name db ->
    insert S e name supplied db = Some db' ->
    history S name db'
| history_update db e set where_ db' :
    history S name db ->
    update S e name set where_ db = Some db' ->
    history S name db'
| history_elsewhere db db' :
    history S name db ->
    rows_of db' name = rows_of db name ->
    history S name db'.

(** No two rows of the list collide on the key. *)
Definition unique_on (key : list string) (rows : list row) : Prop :=
  forall i j r1 r2,
    i <> j -> rows !! i = Some r1 -> rows !! j = Some r2 -> collide key r1 r2 = false.

(** The row has, in every column, a value of the column's type, and a
    value other than [NULL] where the column is [NOT NULL] or the primary
    key. *)
Definition conforms (t : table) (r : row) : Prop :=
  Forall (fun c =>
            has_type (col_type c) (get r (col_name c)) = true
            /\ (not_null c || primary_key c = true -> get r (col_name c) <> NULL))
    (columns t).

(** A [bridge_transactions] row with every [NOT NULL] column filled in, by
    a value of the column's type. *)
Definition complete (r : row) : Prop :=
  (exists u, get r "id" = Uuid u)
  /\ (exists u, get r "user_id" = Uuid u)
  /\ (exists a, get r "deposit_address" = Text a)
  /\ (exists n, get r "amount_sol_lamports" = Bigint n
                /\ (- 2 ^ 63 <= n < 2 ^ 63)%Z)
  /\ (exists s, get r "status" = Text s)
  /\ (exists a, get r "refund_address" = Text a)
  /\ (exists a, get r "recipient_address" = Text a)
  /\ (exists t, get r "created_at" = Timestamptz t)
  /\ (exists t, get r "updated_at" = Timestamptz t).

End Ledger.


(** ** The server behind the bridge endpoints *)
Module Backend.
Import JsNumber Api Ledger.

(** The integer an integral number stands for. *)
Definition to_Z (x : number) : option Z :=
  match x with
  | S754_zero _ => Some 0
  | S754_finite s m e =>
      let v := if s then Zneg m else Zpos m in
      match e with
      | Zneg k =>
          if (v mod Zpos (Pos.pow 2 k) =? 0)%Z then Some (v / Zpos (Pos.pow 2 k)) else None
      | _ => Some (v * 2 ^ e)
      end
  | _ => None
  end.

(** What the server adds to an execute request: the authenticated user, the
    deposit address issued by the settlement network, the user's refund
    address, and the clock and identifier source of the statement. *)
Record intent := {
  caller : N;
  issued_deposit_address : string;
  refund_address : string;
  statement_env : env }.

(** Modelled from the spec: the request handlers of the bridge endpoints are
    not among the sources.  By sections 4.1, 4.2 and 4.5 of the
    specification a quote has no side effect on the ledger, an execute of a
    positive integer amount persists a new [PENDING] row with the issued
    deposit address, and a status query is read-only. *)
Definition handle (i : intent) (request : HttpRequest) (db : database) : database :=
  match body request with
  | ExecuteBody r =>
      match to_Z (ExecuteBridgeRequest.amount_lamports r) with
      | Some n =>
          if (0 <? n)%Z then
            default db
              (insert migration_005 (statement_env i) "bridge_transactions"
                 (<["user_id" := Uuid (caller i)]>
                  (<["deposit_address" := Text (issued_deposit_address i)]>
                   (<["amount_sol_lamports" := Bigint n]>
                    (<["refund_address" := Text (refund_address i)]>
                     (<["recipient_address" :=
                          Text (ExecuteBridgeRequest.recipient_zcash_address r)]> ∅)))))
                 db)
          else db
      | None => db
      end
  | _ => db
  end.

(** The ledger after the server has handled the requests of a trace, the
    [k]-th of them with [intents k]. *)
Fixpoint serve (intents : nat -> intent) (k : nat) (effects : list BridgeModal.Effect)
    (db : database) : database :=
  match effects with
  | [] => db
  | BridgeModal.Fetch r :: rest => serve intents (S k) rest (handle (intents k) r db)
  | _ :: rest => serve intents k rest db
  end.

End Backend.


(** ** Sample data *)
Module Samples.
Import JsNumber Api BridgeModal.

Definition modal_props : BridgeModalProps :=
  {| isOpen := true; userId := "user-1"; currentBalance := parseFloat "5";
     zcashAddress := "zs1recipient"; solanaAddress := "So1refund"; onSuccess := true |}.

Definition status_response (status : string) : BridgeStatusResponse.t :=
  {| BridgeStatusResponse.status := status;
     BridgeStatusResponse.updatedAt := None;
     BridgeStatusResponse.swapDetails := None |}.

Definition quote_response : BridgeQuoteResponse.t :=
  {| BridgeQuoteResponse.amount_in := "1000000000";
     BridgeQuoteResponse.amount_in_formatted := "1";
     BridgeQuoteResponse.amount_out := "4950000";
     BridgeQuoteResponse.amount_out_formatted := "0.0495";
     BridgeQuoteResponse.deposit_address := "D1";
     BridgeQuoteResponse.time_estimate := of_Z 5 |}.

(** The monitor as [startMonitoring] creates it, and the modal state in
    which it runs. *)
Definition fresh_monitor : Monitor :=
  {| depositAddress := "D1"; accessToken := "token"; notify := true; attempts := 0 |}.

Definition monitoring_state : State := setStep BridgeStep.monitoring initial.

(** The monitor during its first and during its sixtieth poll. *)
Definition first_poll : Monitor := fst (poll fresh_monitor).

(** A network on which the bridge stays in progress for good. *)
Definition always_processing : nat -> HttpOutcome BridgeStatusResponse.t :=
  fun _ => Ok (inr (status_response "PROCESSING")).

Definition last_poll : Monitor :=
  {| depositAddress := "D1"; accessToken := "token"; notify := true; attempts := 60 |}.

(** The same modal after the balance has dropped to 1 SOL. *)
Definition balance_dropped : BridgeModalProps :=
  {| isOpen := true; userId := "user-1"; currentBalance := parseFloat "1";
     zcashAddress := "zs1recipient"; solanaAddress := "So1refund"; onSuccess := true |}.

Definition quote_request (lamports : number) : HttpRequest :=
  SolanaAPI.getBridgeQuote
    {| BridgeQuoteRequest.amount_lamports := lamports;
       BridgeQuoteRequest.recipient_zcash_address := "zs1recipient" |} "token".

Definition execute_request (lamports : number) : HttpRequest :=
  SolanaAPI.executeBridge
    {| ExecuteBridgeRequest.amount_lamports := lamports;
       ExecuteBridgeRequest.recipient_zcash_address := "zs1recipient" |} "token".

(** 2 SOL are quoted while the balance is 5 SOL; the quote is on display
    when the balance drops to 1 SOL. *)
Definition quote_then_balance_drop : list Event :=
  [ InputChange "2"; ClickGetQuote; QuoteSettles (Ok (inr quote_response));
    Rerender balance_dropped ].

Definition quote_on_display : State :=
  {| amount := "2"; step := BridgeStep.quote; error := None;
     quote := Some quote_response; bridgeResult := None; bridgeStatus := None;
     isLoading := false |}.

(** A tenth of a lamport is entered, quoted and executed. *)
Definition sub_lamport_bridge : list Event :=
  [ InputChange "0.0000000001"; ClickGetQuote;
    QuoteSettles (Ok (inr quote_response)); ClickExecute ].

(** 1 SOL is entered and a quote requested; the amount is changed to 2 SOL
    before the quote arrives; the quote shown is then executed. *)
Definition edit_in_flight : list Event :=
  [ InputChange "1"; ClickGetQuote; InputChange "2";
    QuoteSettles (Ok (inr quote_response)); ClickExecute ].

(** A ledger with one user and two bridge attempts of that user. *)
Definition users_only : Ledger.database :=
  {[ "users" := [ ({[ "id" := Ledger.Uuid 7 ]} : Ledger.row) ] ]}.

Definition first_attempt : Ledger.row :=
  {[ "id" := Ledger.Uuid 1; "user_id" := Ledger.Uuid 7;
     "deposit_address" := Ledger.Text "D1";
     "amount_sol_lamports" := Ledger.Bigint 500000000;
     "refund_address" := Ledger.Text "So1refund";
     "recipient_address" := Ledger.Text "zs1recipient" ]}.

Definition second_attempt : Ledger.row :=
  {[ "id" := Ledger.Uuid 2; "user_id" := Ledger.Uuid 7;
     "deposit_address" := Ledger.Text "D1";
     "amount_sol_lamports" := Ledger.Bigint 250000000;
     "refund_address" := Ledger.Text "So1refund";
     "recipient_address" := Ledger.Text "zs1recipient" ]}.

Definition at_100 : Ledger.env := {| Ledger.now := 100; Ledger.random_uuid := 41 |}.
Definition at_200 : Ledger.env := {| Ledger.now := 200; Ledger.random_uuid := 42 |}.
Definition at_300 : Ledger.env := {| Ledger.now := 300; Ledger.random_uuid := 43 |}.

Definition stored_first : Ledger.row :=
  Ledger.with_defaults at_100 Ledger.bridge_transactions first_attempt.

Definition stored_second : Ledger.row :=
  Ledger.with_defaults at_200 Ledger.bridge_transactions second_attempt.

Definition ledger_one : Ledger.database :=
  <["bridge_transactions" := [stored_first]]> users_only.

Definition ledger_two : Ledger.database :=
  <["bridge_transactions" := [stored_first; stored_second]]> users_only.

(** [UPDATE bridge_transactions SET status = 'PROCESSING',
    solana_tx_signature = 'sig' WHERE id = 1]. *)
Definition deposit_seen : list (string * (Ledger.row -> Ledger.value)) :=
  [ ("status", fun _ => Ledger.Text "PROCESSING");
    ("solana_tx_signature", fun _ => Ledger.Text "sig") ].

Definition first_row (r : Ledger.row) : bool :=
  bool_decide (Ledger.get r "id" = Ledger.Uuid 1).

Definition ledger_three : Ledger.database :=
  <["bridge_transactions" :=
      [ <["updated_at" := Ledger.Timestamptz 300]>
          (<["solana_tx_signature" := Ledger.Text "sig"]>
             (<["status" := Ledger.Text "PROCESSING"]> stored_first));
        stored_second ]]> users_only.


(** A bridge of 1 SOL, from the first key stroke to the second status
    request, and on to the status that completes it. *)
Definition execute_response : ExecuteBridgeResponse.t :=
  {| ExecuteBridgeResponse.bridge_tx_id := "bt-1";
     ExecuteBridgeResponse.solana_signature := "sig";
     ExecuteBridgeResponse.deposit_address := "D1";
     ExecuteBridgeResponse.expected_zec := "0.0495" |}.

Definition status_request : HttpRequest :=
  SolanaAPI.getBridgeStatus {| BridgeStatusRequest.deposit_address := "D1" |} "token".

Definition quote_shown : App :=
  {| props := modal_props; shield_access_token := Some "token";
     state := {| amount := "1"; step := BridgeStep.quote; error := None;
                 quote := Some quote_response; bridgeResult := None;
                 bridgeStatus := None; isLoading := false |};
     pending := Idle;
     trace := [Fetch (quote_request (of_Z 1000000000))] |}.

Definition bridge_until_second_poll : list Event :=
  [ InputChange "1"; ClickGetQuote; QuoteSettles (Ok (inr quote_response)); ClickExecute;
    ExecuteSettles (Ok (inr execute_response));
    StatusSettles (Ok (inr (status_response "PROCESSING"))); TimerFires ].

Definition polling : App :=
  {| props := modal_props; shield_access_token := Some "token";
     state := {| amount := "1"; step := BridgeStep.monitoring; error := None;
                 quote := Some quote_response; bridgeResult := Some execute_response;
                 bridgeStatus := Some (status_response "PROCESSING");
                 isLoading := false |};
     pending := AwaitingStatus {| depositAddress := "D1"; accessToken := "token";
                                  notify := true; attempts := 2 |};
     trace := [ Fetch (quote_request (of_Z 1000000000));
                Fetch (execute_request (of_Z 1000000000));
                Fetch status_request; SetTimeout 5000; Fetch status_request ] |}.

Definition bridge_to_completion : list Event :=
  (bridge_until_second_poll ++ [StatusSettles (Ok (inr (status_response "COMPLETED")))])%list.

Definition bridged : App :=
  {| props := modal_props; shield_access_token := Some "token";
     state := {| amount := "1"; step := BridgeStep.success; error := None;
                 quote := Some quote_response; bridgeResult := Some execute_response;
                 bridgeStatus := Some (status_response "COMPLETED");
                 isLoading := false |};
     pending := Idle;
     trace := [ Fetch (quote_request (of_Z 1000000000));
                Fetch (execute_request (of_Z 1000000000));
                Fetch status_request; SetTimeout 5000; Fetch status_request;
                OnSuccess ] |}.

(** A network on which the third status request finds the bridge completed. *)
Definition completes_on_third : nat -> HttpOutcome BridgeStatusResponse.t :=
  fun j => if (j =? 3)%nat
           then Ok (inr (status_response "COMPLETED"))
           else Ok (inr (status_response "PROCESSING")).

(** The dashboard of a user with both wallets and 5 SOL, the bridge modal
    open; and the same dashboard before any balance has arrived. *)
Definition user_1 : Dashboard.User :=
  {| Dashboard.id := "user-1"; Dashboard.email := "user@example.org";
     Dashboard.full_name := None; Dashboard.email_verified := true;
     Dashboard.created_at := "2025-01-01T00:00:00Z";
     Dashboard.wallet_address := Some "zs1recipient";
     Dashboard.solana_address := Some "So1refund" |}.

Definition balance_of_5 : SolanaBalanceResponse.t :=
  {| SolanaBalanceResponse.balance_lamports := of_Z 5000000000;
     SolanaBalanceResponse.balance_sol := parseFloat "5";
     SolanaBalanceResponse.address := "So1refund" |}.

Definition dashboard : Dashboard.State :=
  {| Dashboard.loading := false; Dashboard.isAuthenticated := true;
     Dashboard.user := Some user_1; Dashboard.solanaBalance := Some balance_of_5;
     Dashboard.solanaBalanceLoading := false; Dashboard.bridgeModalOpen := true |}.

Definition dashboard_unfunded : Dashboard.State :=
  {| Dashboard.loading := false; Dashboard.isAuthenticated := true;
     Dashboard.user := Some user_1; Dashboard.solanaBalance := None;
     Dashboard.solanaBalanceLoading := false; Dashboard.bridgeModalOpen := true |}.

Definition unfunded_props : BridgeModalProps :=
  {| isOpen := true; userId := "user-1"; currentBalance := of_Z 0;
     zcashAddress := "zs1recipient"; solanaAddress := "So1refund"; onSuccess := true |}.

(** The Solana wallet and the Zcash wallet of the sample user, and a change
    of the stored keypair. *)
Definition solana_wallet_of_7 : Ledger.row :=
  {[ "user_id" := Ledger.Uuid 7;
     "encrypted_keypair" := Ledger.Bytea [1; 2; 3]%N;
     "public_key" := Ledger.Text "So1refund" ]}.

Definition stored_solana_wallet : Ledger.row :=
  Ledger.with_defaults at_100 Ledger.solana_wallets solana_wallet_of_7.

Definition solana_wallets_one : Ledger.database :=
  <["solana_wallets" := [stored_solana_wallet]]> users_only.

Definition new_keypair : list (string * (Ledger.row -> Ledger.value)) :=
  [ ("encrypted_keypair", fun _ => Ledger.Bytea [4; 5; 6]%N) ].

Definition every_row (r : Ledger.row) : bool := true.

Definition solana_wallets_rekeyed : Ledger.database :=
  <["solana_wallets" :=
      [ <["updated_at" := Ledger.Timestamptz 300]>
          (<["encrypted_keypair" := Ledger.Bytea [4; 5; 6]%N]> stored_solana_wallet) ]]>
    users_only.

Definition zcash_wallet_of_7 : Ledger.row :=
  {[ "user_id" := Ledger.Uuid 7;
     "encrypted_mnemonic" := Ledger.Text "abandon ability able";
     "address" := Ledger.Text "u1address";
     "birthday_height" := Ledger.Bigint 2000000 ]}.

Definition wallets_one : Ledger.database :=
  <["wallets" := [Ledger.with_defaults at_100 Ledger.wallets zcash_wallet_of_7]]> users_only.

(** A network on which the bridge has been refunded, whenever it is asked. *)
Definition always_refunded : nat -> HttpOutcome BridgeStatusResponse.t :=
  fun _ => Ok (inr (status_response "REFUNDED")).

(** [UPDATE bridge_transactions SET status = 'SUCCESS' WHERE id = 1], and
    the sample ledger after it has run with the [NOW()] of the update
    before it, as a second statement of the same transaction. *)
Definition bridge_completed : list (string * (Ledger.row -> Ledger.value)) :=
  [ ("status", fun _ => Ledger.Text "SUCCESS") ].

Definition deposit_seen_row : Ledger.row :=
  <["updated_at" := Ledger.Timestamptz 300]>
    (<["solana_tx_signature" := Ledger.Text "sig"]>
       (<["status" := Ledger.Text "PROCESSING"]> stored_first)).

Definition bridge_completed_row : Ledger.row :=
  <["updated_at" := Ledger.Timestamptz 300]>
    (<["status" := Ledger.Text "SUCCESS"]> deposit_seen_row).

Definition ledger_four : Ledger.database :=
  <["bridge_transactions" := [ bridge_completed_row; stored_second ]]> users_only.

(** An attempt without a deposit address, and one of a user that does not
    exist. *)
Definition no_deposit_address : Ledger.row :=
  {[ "user_id" := Ledger.Uuid 7;
     "amount_sol_lamports" := Ledger.Bigint 500000000;
     "refund_address" := Ledger.Text "So1refund";
     "recipient_address" := Ledger.Text "zs1recipient" ]}.

Definition attempt_of_a_stranger : Ledger.row :=
  <["user_id" := Ledger.Uuid 8]> first_attempt.

End Samples.

Import JsNumber Api BridgeModal.

(** * Properties *)

(** ** One poll of the monitoring loop *)

Lemma is_done_spec (r : BridgeStatusResponse.t) :
  is_done (inr r) = true <->
  fulfilled (BridgeStatusResponse.status r) \/ failed (BridgeStatusResponse.status r).
Proof.
  unfold is_done, fulfilled, failed.
  rewrite !orb_true_iff, !String.eqb_eq. tauto.
Qed.

Lemma checkStatus_resume_done m r s :
  snd (checkStatus_resume m r s) = is_done r.
Proof.
  unfold checkStatus_resume, is_done. destruct r as [err | r]; [reflexivity |].
  destruct (String.eqb _ "COMPLETED"), (String.eqb _ "SUCCESS"),
    (String.eqb _ "FAILED"), (String.eqb _ "ERROR"); reflexivity.
Qed.

(** While [checkStatus] returns [false], it changes nothing but the status
    on display, and calls no callback that ends the run. *)
Lemma checkStatus_resume_pending m r s :
  is_done r = false ->
  step (fst (fst (checkStatus_resume m r s))) = step s
  /\ error (fst (fst (checkStatus_resume m r s))) = error s.
Proof.
  unfold checkStatus_resume, is_done. destruct r as [err | r]; [auto |].
  destruct (String.eqb _ "COMPLETED"), (String.eqb _ "SUCCESS"),
    (String.eqb _ "FAILED"), (String.eqb _ "ERROR"); cbn; intros; auto; discriminate.
Qed.

(** The timer of a poll: set exactly when [checkStatus] returned [false] and
    attempts remain, and then always to 5000 ms. *)
Lemma poll_resume_timer m r s :
  snd (poll_resume m r s) =
    if negb (is_done r) && (attempts m <? maxAttempts)%nat then Some 5000 else None.
Proof.
  unfold poll_resume. rewrite <- (checkStatus_resume_done m r s).
  destruct (checkStatus_resume m r s) as [[s1 effects] isDone]. cbn [snd].
  destruct (negb isDone && (attempts m <? maxAttempts)%nat); [reflexivity |].
  destruct (maxAttempts <=? attempts m)%nat; reflexivity.
Qed.

(** C2, as stated, fails twice.  A refund outcome is none of the four
    strings [checkStatus] tests for: returned by the first poll, it leaves
    the step alone and a new poll is set for 5000 ms later.  And an
    in-progress value returned by the sixtieth poll does end the run, in the
    error state, because the attempts are used up. *)
Lemma refund_polls_again_and_last_poll_stops :
  poll_resume Samples.first_poll (inr (Samples.status_response "REFUNDED"))
    Samples.monitoring_state
  = (setBridgeStatus (Some (Samples.status_response "REFUNDED")) Samples.monitoring_state,
     [], Some 5000)
  /\ poll_resume Samples.last_poll (inr (Samples.status_response "PROCESSING"))
       Samples.monitoring_state
     = (setStep BridgeStep.error
          (setError (Some timeout_message)
             (setBridgeStatus (Some (Samples.status_response "PROCESSING"))
                Samples.monitoring_state)),
        [], None).
Proof. split; reflexivity. Qed.

(** C2, amended.  For a status value other than a refund returned by a poll:
    no further poll is set exactly when the value is fulfilled
    ([COMPLETED], [SUCCESS]), failed ([FAILED], [ERROR]), or the attempts
    are used up; a further poll is set for 5000 ms later and leaves step
    and error message as they were; and before the last attempt a fulfilled
    value ends the run in the success state and a failed value in the error
    state. *)
Theorem poll_stops_on_recognised_status m (r : BridgeStatusResponse.t) s :
  BridgeStatusResponse.status r <> "REFUNDED" ->
  let status := BridgeStatusResponse.status r in
  let result := poll_resume m (inr r) s in
  let s' := fst (fst result) in
  let timer := snd result in
  (timer = None <-> fulfilled status \/ failed status \/ (maxAttempts <= attempts m)%nat)
  /\ (timer <> None ->
      timer = Some 5000 /\ step s' = step s /\ error s' = error s
      /\ bridgeStatus s' = Some r)
  /\ ((attempts m < maxAttempts)%nat -> fulfilled status ->
      step s' = BridgeStep.success /\ bridgeStatus s' = Some r)
  /\ ((attempts m < maxAttempts)%nat -> failed status ->
      step s' = BridgeStep.error /\ error s' = Some (Text "Bridge transaction failed")).
Proof.
  intros _ status result s' timer.
  assert (Htimer : timer =
    if negb (is_done (inr r)) && (attempts m <? maxAttempts)%nat then Some 5000 else None)
    by apply poll_resume_timer.
  pose proof (is_done_spec r) as Hdone. fold status in Hdone.
  split; [| split; [| split]].
  - rewrite Htimer.
    destruct (is_done (inr r)) eqn:D; cbn [negb andb].
    + split; [intros _ | reflexivity]. destruct Hdone as [Hd _].
      destruct (Hd eq_refl); auto.
    + destruct (attempts m <? maxAttempts)%nat eqn:A.
      * split; [discriminate |]. intros [H | [H | H]].
        -- destruct Hdone as [_ Hd]. discriminate (Hd (or_introl H)).
        -- destruct Hdone as [_ Hd]. discriminate (Hd (or_intror H)).
        -- apply Nat.ltb_lt in A. lia.
      * split; [| reflexivity]. intros _. apply Nat.ltb_ge in A. auto.
  - intros Hset. rewrite Htimer in Hset |- *.
    destruct (is_done (inr r)) eqn:D; cbn [negb andb] in Hset |- *; [congruence |].
    destruct (attempts m <? maxAttempts)%nat eqn:A; [| congruence].
    split; [reflexivity |].
    subst s' result. unfold poll_resume.
    pose proof (checkStatus_resume_done m (inr r) s) as Hd.
    pose proof (checkStatus_resume_pending m (inr r) s D) as [Hs He].
    assert (Hb : bridgeStatus (fst (fst (checkStatus_resume m (inr r) s))) = Some r).
    { revert D. unfold checkStatus_resume, is_done.
      destruct (String.eqb _ "COMPLETED"), (String.eqb _ "SUCCESS"),
        (String.eqb _ "FAILED"), (String.eqb _ "ERROR"); cbn; intros; auto; discriminate. }
    destruct (checkStatus_resume m (inr r) s) as [[s1 effects] isDone].
    cbn [fst snd] in *. rewrite Hd, D, A. cbn. auto.
  - intros A [H | H]; subst s' result; unfold poll_resume, checkStatus_resume;
      fold status; rewrite H; cbn [String.eqb Ascii.eqb Bool.eqb orb negb andb];
      apply Nat.leb_gt in A; rewrite A; cbn; auto.
  - intros A [H | H]; subst s' result; unfold poll_resume, checkStatus_resume;
      fold status; rewrite H; cbn [String.eqb Ascii.eqb Bool.eqb orb negb andb];
      apply Nat.leb_gt in A; rewrite A; cbn; auto.
Qed.

(** C2: the amended statement at an in-progress value on the first poll. *)
Lemma poll_stops_on_recognised_status_witness :
  BridgeStatusResponse.status (Samples.status_response "PROCESSING") <> "REFUNDED"
  /\ (let status := BridgeStatusResponse.status (Samples.status_response "PROCESSING") in
      let result :=
        poll_resume Samples.first_poll (inr (Samples.status_response "PROCESSING"))
          Samples.monitoring_state in
      let s' := fst (fst result) in
      let timer := snd result in
      (timer = None <->
         fulfilled status \/ failed status
         \/ (maxAttempts <= attempts Samples.first_poll)%nat)
      /\ (timer <> None ->
          timer = Some 5000 /\ step s' = step Samples.monitoring_state
          /\ error s' = error Samples.monitoring_state
          /\ bridgeStatus s' = Some (Samples.status_response "PROCESSING"))
      /\ ((attempts Samples.first_poll < maxAttempts)%nat -> fulfilled status ->
          step s' = BridgeStep.success
          /\ bridgeStatus s' = Some (Samples.status_response "PROCESSING"))
      /\ ((attempts Samples.first_poll < maxAttempts)%nat -> failed status ->
          step s' = BridgeStep.error
          /\ error s' = Some (Text "Bridge transaction failed"))).
Proof.
  split; [discriminate |].
  apply (poll_stops_on_recognised_status Samples.first_poll
           (Samples.status_response "PROCESSING") Samples.monitoring_state).
  discriminate.
Defined.

(** C9.  A status request that fails on the network or comes back not-ok is
    a throw inside [checkStatus], which logs it, changes nothing of the
    state and returns [false].  The poll has counted one attempt, and while
    attempts remain it sets the next poll for 5000 ms later, the step, the
    error message and the status on display being what they were. *)
Theorem failed_poll_is_one_attempt (o : HttpOutcome BridgeStatusResponse.t) m s :
  request_failed o ->
  exists err,
    SolanaAPI.fetch o = inl err
    /\ checkStatus_resume m (SolanaAPI.fetch o) s
       = (s, [ConsoleError "Failed to check bridge status:" err], false)
    /\ attempts (fst (poll m)) = S (attempts m)
    /\ ((attempts (fst (poll m)) < maxAttempts)%nat ->
        poll_resume (fst (poll m)) (SolanaAPI.fetch o) s
        = (s, [ConsoleError "Failed to check bridge status:" err], Some 5000)).
Proof.
  intros Hfail.
  assert (exists err, SolanaAPI.fetch o = inl err) as [err Herr].
  { destruct o as [msg | status json | json]; cbn in Hfail |- *; [eauto | | tauto].
    destruct json as [[type_error | [| [| c r] | to_string]] |]; cbn; eauto. }
  exists err. rewrite Herr. repeat split.
  intros Hlt. unfold poll_resume. cbn [checkStatus_resume negb andb].
  apply Nat.ltb_lt in Hlt. rewrite Hlt. reflexivity.
Qed.

(** C9: the statement at a 502 answer to the first poll. *)
Lemma failed_poll_is_one_attempt_witness :
  request_failed (NotOk 502 None : HttpOutcome BridgeStatusResponse.t)
  /\ exists err,
      SolanaAPI.fetch (NotOk 502 None : HttpOutcome BridgeStatusResponse.t) = inl err
      /\ checkStatus_resume Samples.fresh_monitor (SolanaAPI.fetch (NotOk 502 None))
           Samples.monitoring_state
         = (Samples.monitoring_state,
            [ConsoleError "Failed to check bridge status:" err], false)
      /\ attempts (fst (poll Samples.fresh_monitor)) = S (attempts Samples.fresh_monitor)
      /\ ((attempts (fst (poll Samples.fresh_monitor)) < maxAttempts)%nat ->
          poll_resume (fst (poll Samples.fresh_monitor)) (SolanaAPI.fetch (NotOk 502 None))
            Samples.monitoring_state
          = (Samples.monitoring_state,
             [ConsoleError "Failed to check bridge status:" err], Some 5000)).
Proof.
  split; [exact I |].
  apply (failed_poll_is_one_attempt (NotOk 502 None) Samples.fresh_monitor
           Samples.monitoring_state).
  exact I.
Defined.

(** ** The monitoring loop as a whole *)

Lemma ticks_app (a b : list Effect) : ticks (a ++ b) = (ticks a ++ ticks b)%list.
Proof.
  induction a as [| x a IH]; [reflexivity |].
  destruct x; cbn; rewrite ?IH; reflexivity.
Qed.

(** Inside a poll, between its request and its timer, nothing is requested
    and no timer is set. *)
Lemma checkStatus_resume_ticks m r s :
  ticks (snd (fst (checkStatus_resume m r s))) = [].
Proof.
  unfold checkStatus_resume. destruct r as [err | r]; [reflexivity |].
  destruct (String.eqb _ "COMPLETED" || String.eqb _ "SUCCESS");
    [destruct (notify m); reflexivity |].
  destruct (String.eqb _ "FAILED" || String.eqb _ "ERROR"); reflexivity.
Qed.

Lemma checkStatus_resume_pending_effects m r s :
  is_done r = false ->
  Forall (only_watches (checkStatus m)) (snd (fst (checkStatus_resume m r s))).
Proof.
  unfold checkStatus_resume, is_done. destruct r as [err | r].
  - intros _. repeat constructor.
  - destruct (String.eqb _ "COMPLETED"), (String.eqb _ "SUCCESS"),
      (String.eqb _ "FAILED"), (String.eqb _ "ERROR"); cbn; intros; try discriminate;
      constructor.
Qed.

Lemma poll_resume_effects m r s :
  snd (fst (poll_resume m r s)) = snd (fst (checkStatus_resume m r s)).
Proof.
  unfold poll_resume.
  destruct (checkStatus_resume m r s) as [[s1 effects] isDone].
  destruct (negb isDone && (attempts m <? maxAttempts)%nat); [reflexivity |].
  destruct (maxAttempts <=? attempts m)%nat; reflexivity.
Qed.

Lemma requests_every delay r n : requests (every delay r n) = S n.
Proof. induction n as [| n IH]; cbn; [reflexivity | now rewrite IH]. Qed.

(** The server leaves the ledger alone on every request that is not an
    execute. *)
Lemma serve_only_watches status_request intents effects :
  (forall i db, Backend.handle i status_request db = db) ->
  Forall (only_watches status_request) effects ->
  forall k db, Backend.serve intents k effects db = db.
Proof.
  intros Hread Hall. induction Hall as [| eff effects Heff _ IH]; intros k db.
  - reflexivity.
  - destruct eff; cbn [Backend.serve]; try apply IH.
    cbn in Heff. subst request. rewrite Hread. apply IH.
Qed.

Section Run.

(** What the network answers to the first, second, ... status request. *)
Variable network : nat -> HttpOutcome BridgeStatusResponse.t.

(** The equation of [monitor]. *)
Lemma monitor_unfold m s :
  monitor network m s =
    match poll_resume (fst (poll m))
            (SolanaAPI.fetch (network (attempts (fst (poll m))))) s with
    | (s', effects, Some delay) =>
        let '(s'', rest) := monitor network (fst (poll m)) s' in
        (s'', Fetch (snd (poll m)) :: effects ++ SetTimeout delay :: rest)
    | (s', effects, None) => (s', Fetch (snd (poll m)) :: effects)
    end.
Proof.
  funelim (monitor network m s).
  - rewrite e. simp monitor. reflexivity.
  - rewrite e. reflexivity.
Qed.

(** In a case of [monitor]: what the timer and the effects of the poll at
    hand are, as [Htimer] and [Heffects]. *)
Ltac poll_at_hand m s :=
  match goal with
  | E : poll_resume _ _ _ = _ |- _ =>
      pose proof (poll_resume_timer (fst (poll m))
                    (SolanaAPI.fetch (network (attempts (fst (poll m))))) s) as Htimer;
      pose proof (poll_resume_effects (fst (poll m))
                    (SolanaAPI.fetch (network (attempts (fst (poll m))))) s) as Heffects;
      rewrite E in Htimer, Heffects; cbn [fst snd] in Htimer, Heffects
  end;
  cbn [poll fst snd attempts] in *.

(** In the case where the timer was set: the poll was not done, attempts
    remain and the delay is 5000. *)
Ltac timer_was_set delay :=
  match goal with
  | Htimer : Some delay = (if negb ?d && ?a then _ else _) |- _ =>
      let E := fresh "E" in
      destruct (negb d && a) eqn:E; [| discriminate Htimer];
      injection Htimer as Htimer; subst delay;
      apply andb_prop in E as [Hd Ha];
      apply negb_true_iff in Hd; apply Nat.ltb_lt in Ha
  end.

(** The requests and timers of a run that starts with [attempts m] polls
    behind it: [n + 1] status requests, 5000 ms apart, none of the first [n]
    done, and the last one either done or out of attempts. *)
Lemma monitor_ticks m s :
  exists n,
    ticks (snd (monitor network m s)) = every 5000 (checkStatus m) n
    /\ (n = 0 \/ attempts m + n < maxAttempts)%nat
    /\ (forall j, (attempts m < j <= attempts m + n)%nat ->
                 is_done (SolanaAPI.fetch (network j)) = false)
    /\ ((maxAttempts <= attempts m + n + 1)%nat
        \/ is_done (SolanaAPI.fetch (network (attempts m + n + 1)%nat)) = true).
Proof.
  funelim (monitor network m s); clear Heqcall; poll_at_hand m s;
    assert (Hticks : ticks effects = [])
      by (rewrite Heffects; apply checkStatus_resume_ticks).
  - match goal with
    | IH : exists _, _ |- _ => destruct IH as (n & Ht & Hn & Hbefore & Hlast)
    end.
    timer_was_set delay.
    destruct (monitor network _ s') as [s'' rest]. cbn [snd] in *.
    exists (S n). split; [| split; [| split]].
    + cbn [ticks every]. rewrite ticks_app, Hticks. cbn [ticks app].
      rewrite Ht. reflexivity.
    + right. destruct Hn; lia.
    + intros j Hj. destruct (Nat.eq_dec j (S (attempts m))) as [-> | Hne]; [exact Hd |].
      apply Hbefore. lia.
    + replace (attempts m + S n + 1)%nat with (S (attempts m) + n + 1)%nat by lia.
      exact Hlast.
  - exists 0%nat. split; [| split; [| split]].
    + cbn [ticks every]. rewrite Hticks. reflexivity.
    + left. reflexivity.
    + intros j Hj. lia.
    + replace (attempts m + 0 + 1)%nat with (S (attempts m)) by lia.
      destruct (is_done _) eqn:D; [right; reflexivity | left].
      cbn [negb andb] in Htimer.
      destruct (S (attempts m) <? maxAttempts)%nat eqn:A; [discriminate |].
      apply Nat.ltb_ge in A. exact A.
Qed.

(** What holds of C3 on every run.  Whatever the network answers, the run
    started by [startMonitoring] issues [n + 1] status requests for some
    [n < 60], hence at most 60, all for the deposit address it was given;
    between two consecutive requests lies exactly one timer, of 5000 ms; no
    timer follows the last request; and the last request is the first whose
    poll is done, that is, answered by one of the four status values
    [checkStatus] tests for, or else the sixtieth. *)
Theorem monitoring_is_bounded depositAddress accessToken onSuccess s :
  let status_request :=
    SolanaAPI.getBridgeStatus
      {| BridgeStatusRequest.deposit_address := depositAddress |} accessToken in
  let effects := snd (monitoring_run network depositAddress accessToken onSuccess s) in
  exists n,
    (n < maxAttempts)%nat
    /\ ticks effects = every 5000 status_request n
    /\ requests (ticks effects) = S n
    /\ (forall j, (1 <= j <= n)%nat -> is_done (SolanaAPI.fetch (network j)) = false)
    /\ (S n = maxAttempts \/ is_done (SolanaAPI.fetch (network (S n))) = true).
Proof.
  intros status_request effects. subst effects. unfold monitoring_run.
  set (m := {| depositAddress := depositAddress; accessToken := accessToken;
               notify := onSuccess; attempts := 0 |}).
  destruct (monitor_ticks m s) as (n & Ht & Hn & Hbefore & Hlast).
  cbn [attempts m] in Hn, Hbefore, Hlast.
  exists n. split; [| split; [| split; [| split]]].
  - destruct Hn as [-> | Hn]; [unfold maxAttempts |]; lia.
  - exact Ht.
  - rewrite Ht. apply requests_every.
  - intros j Hj. apply Hbefore. lia.
  - replace (0 + n + 1)%nat with (S n) in Hlast by lia.
    destruct Hlast as [Hlast | Hlast]; [left | right; exact Hlast].
    destruct Hn as [-> | Hn]; [unfold maxAttempts in *; lia | lia].
Qed.

(** A run in which no poll is done ends in the error state with the timeout
    message. *)
Lemma monitor_times_out m s :
  (attempts m < maxAttempts)%nat ->
  (forall j, (attempts m < j <= maxAttempts)%nat ->
             is_done (SolanaAPI.fetch (network j)) = false) ->
  step (fst (monitor network m s)) = BridgeStep.error
  /\ error (fst (monitor network m s)) = Some timeout_message.
Proof.
  funelim (monitor network m s); intros Hlt Hpending; clear Heqcall; poll_at_hand m s.
  - timer_was_set delay.
    match goal with
    | IH : (_ < _)%nat -> _ |- _ => destruct (IH Ha) as [Hs He]
    end.
    { intros j Hj. apply Hpending. lia. }
    destruct (monitor network _ s') as [s'' rest]. cbn [fst] in *. auto.
  - rewrite (Hpending (S (attempts m))) in Htimer by lia.
    cbn [negb andb] in Htimer.
    destruct (S (attempts m) <? maxAttempts)%nat eqn:A; [discriminate |].
    match goal with
    | H : sigmaI _ _ _ = _ |- _ => clear H
    end.
    match goal with
    | E : poll_resume _ _ _ = _ |- _ =>
        unfold poll_resume in E; cbn [attempts] in E; rewrite A in E;
        apply Nat.ltb_ge in A; apply Nat.leb_le in A; rewrite A in E;
        destruct (checkStatus_resume _ _ s) as [[s1 effs] isDone];
        rewrite andb_false_r in E; injection E as <- <-
    end.
    split; reflexivity.
Qed.

(** A run in which no poll is done only watches. *)
Lemma monitor_only_watches m s :
  (attempts m < maxAttempts)%nat ->
  (forall j, (attempts m < j <= maxAttempts)%nat ->
             is_done (SolanaAPI.fetch (network j)) = false) ->
  Forall (only_watches (checkStatus m)) (snd (monitor network m s)).
Proof.
  funelim (monitor network m s); intros Hlt Hpending; clear Heqcall; poll_at_hand m s.
  - timer_was_set delay.
    match goal with
    | IH : _ -> _ -> Forall _ _ |- _ => assert (Hrest := IH Ha)
    end.
    destruct (monitor network _ s') as [s'' rest]. cbn [snd] in *.
    constructor; [reflexivity |]. apply Forall_app. split.
    + rewrite Heffects.
      exact (checkStatus_resume_pending_effects
               {| depositAddress := depositAddress m; accessToken := accessToken m;
                  notify := notify m; attempts := S (attempts m) |} _ _ Hd).
    + constructor; [reflexivity |]. apply Hrest. intros j Hj. apply Hpending. lia.
  - constructor; [reflexivity |].
    rewrite Heffects.
    refine (checkStatus_resume_pending_effects
              {| depositAddress := depositAddress m; accessToken := accessToken m;
                 notify := notify m; attempts := S (attempts m) |} _ _ _).
    apply Hpending. lia.
Qed.

(** C4.  When none of the sixty polls is done, the run ends in the error
    step showing the timeout message; it is made of sixty status requests
    5000 ms apart and console logs; and the ledger behind the server is,
    after the run, what it was before. *)
Theorem timeout_is_shown_not_written depositAddress accessToken onSuccess s :
  (forall j, (1 <= j <= maxAttempts)%nat ->
             is_done (SolanaAPI.fetch (network j)) = false) ->
  let status_request :=
    SolanaAPI.getBridgeStatus
      {| BridgeStatusRequest.deposit_address := depositAddress |} accessToken in
  let result := monitoring_run network depositAddress accessToken onSuccess s in
  step (fst result) = BridgeStep.error
  /\ error (fst result) = Some timeout_message
  /\ ticks (snd result) = every 5000 status_request 59
  /\ Forall (only_watches status_request) (snd result)
  /\ forall intents k db, Backend.serve intents k (snd result) db = db.
Proof.
  intros Hpending status_request result. subst result. unfold monitoring_run.
  set (m := {| depositAddress := depositAddress; accessToken := accessToken;
               notify := onSuccess; attempts := 0 |}).
  assert (Hlt : (attempts m < maxAttempts)%nat) by (unfold maxAttempts; cbn; lia).
  assert (Hp : forall j, (attempts m < j <= maxAttempts)%nat ->
                         is_done (SolanaAPI.fetch (network j)) = false).
  { intros j Hj. apply Hpending. cbn in Hj. lia. }
  destruct (monitor_times_out m s Hlt Hp) as [Hstep Herror].
  pose proof (monitor_only_watches m s Hlt Hp) as Hwatch.
  destruct (monitor_ticks m s) as (n & Ht & Hn & _ & Hlast).
  cbn [attempts m] in Hn, Hlast.
  assert (n = 59%nat) as ->.
  { destruct Hlast as [Hlast | Hlast].
    - destruct Hn as [-> | Hn]; unfold maxAttempts in *; lia.
    - rewrite Hpending in Hlast; [discriminate |].
      destruct Hn as [-> | Hn]; unfold maxAttempts in *; lia. }
  repeat split; try assumption.
  intros intents k db. apply (serve_only_watches status_request); [| exact Hwatch].
  reflexivity.
Qed.

End Run.

(** C3 fails on a refund.  [REFUNDED] is a terminal outcome, and none of
    the four values [checkStatus] tests for: the first poll that observes
    it sets the next poll for 5000 ms later, and on a network that goes on
    answering [REFUNDED] the run issues all sixty status requests and ends
    in the error step with the timeout message. *)
Theorem refund_is_polled_until_the_timeout :
  poll_resume Samples.first_poll (SolanaAPI.fetch (Samples.always_refunded 1))
    Samples.monitoring_state
  = (setBridgeStatus (Some (Samples.status_response "REFUNDED")) Samples.monitoring_state,
     [], Some 5000)
  /\ ticks (snd (monitoring_run Samples.always_refunded "D1" "token" true
                   Samples.monitoring_state))
     = every 5000 Samples.status_request 59
  /\ requests (ticks (snd (monitoring_run Samples.always_refunded "D1" "token" true
                             Samples.monitoring_state)))
     = 60%nat
  /\ step (fst (monitoring_run Samples.always_refunded "D1" "token" true
                  Samples.monitoring_state))
     = BridgeStep.error
  /\ error (fst (monitoring_run Samples.always_refunded "D1" "token" true
                   Samples.monitoring_state))
     = Some timeout_message.
Proof.
  split; [reflexivity |]. unfold monitoring_run.
  set (m := {| depositAddress := "D1"; accessToken := "token";
               notify := true; attempts := 0 |}).
  assert (Hlt : (attempts m < maxAttempts)%nat) by (unfold maxAttempts; cbn; lia).
  assert (Hp : forall j, (attempts m < j <= maxAttempts)%nat ->
                         is_done (SolanaAPI.fetch (Samples.always_refunded j)) = false)
    by (intros j _; reflexivity).
  destruct (monitor_times_out Samples.always_refunded m Samples.monitoring_state Hlt Hp)
    as [Hstep Herror].
  destruct (monitor_ticks Samples.always_refunded m Samples.monitoring_state)
    as (n & Ht & Hn & _ & Hlast).
  cbn [attempts m] in Hn, Hlast.
  assert (n = 59%nat) as ->.
  { destruct Hlast as [Hlast | Hlast]; [| discriminate Hlast].
    destruct Hn as [-> | Hn]; unfold maxAttempts in *; lia. }
  rewrite Ht. split; [reflexivity |]. split; [apply requests_every |].
  split; assumption.
Qed.

(** C4: the statement on a network that reports [PROCESSING] for good. *)
Lemma timeout_is_shown_not_written_witness :
  (forall j, (1 <= j <= maxAttempts)%nat ->
             is_done (SolanaAPI.fetch (Samples.always_processing j)) = false)
  /\ (let status_request :=
        SolanaAPI.getBridgeStatus {| BridgeStatusRequest.deposit_address := "D1" |} "token" in
      let result :=
        monitoring_run Samples.always_processing "D1" "token" true
          Samples.monitoring_state in
      step (fst result) = BridgeStep.error
      /\ error (fst result) = Some timeout_message
      /\ ticks (snd result) = every 5000 status_request 59
      /\ Forall (only_watches status_request) (snd result)
      /\ forall intents k db, Backend.serve intents k (snd result) db = db).
Proof.
  split; [intros j _; reflexivity |].
  apply (timeout_is_shown_not_written Samples.always_processing "D1" "token" true
           Samples.monitoring_state).
  intros j _. reflexivity.
Defined.

(** ** Quote and execute *)

(** C7.  The quote flow, from the click to the settled request, issues
    either nothing (the amount was rejected) or the one quote request; it
    leaves the execute result and the status on display untouched; and the
    ledger behind the server is afterwards what it was before. *)
Theorem quote_flow_only_quotes props token o s :
  let flow := quote_flow props token o s in
  (snd flow = []
   \/ snd flow =
        [Fetch (SolanaAPI.getBridgeQuote
                  {| BridgeQuoteRequest.amount_lamports :=
                       lamports_of (parseFloat (amount s));
                     BridgeQuoteRequest.recipient_zcash_address := zcashAddress props |}
                  (accessToken_of token))])
  /\ bridgeResult (fst flow) = bridgeResult s
  /\ bridgeStatus (fst flow) = bridgeStatus s
  /\ forall intents k db, Backend.serve intents k (snd flow) db = db.
Proof.
  unfold quote_flow, handleGetQuote.
  destruct (String.eqb (amount s) ""); [cbn; auto |].
  destruct (isNaN _ || leb _ _); [cbn; auto |].
  destruct (gtb _ _); [cbn; auto |].
  cbn [fst snd]. repeat split; auto.
  unfold handleGetQuote_resume. destruct (SolanaAPI.fetch o); reflexivity.
  unfold handleGetQuote_resume. destruct (SolanaAPI.fetch o); reflexivity.
Qed.

(** C5, as stated, fails: with the quote for 2 SOL on display and the
    balance down to 1 SOL, the quote operation rejects the amount for
    insufficient balance and sends nothing, while execute sends the request
    for 2 SOL. *)
Lemma execute_skips_the_balance_check :
  run Samples.quote_then_balance_drop (start Samples.modal_props (Some "token"))
  = Some {| props := Samples.balance_dropped; shield_access_token := Some "token";
            state := Samples.quote_on_display; pending := Idle;
            trace := [Fetch (Samples.quote_request (of_Z 2000000000))] |}
  /\ handleGetQuote Samples.balance_dropped (Some "token") Samples.quote_on_display
     = (setError (Some (InsufficientBalance (parseFloat "1"))) Samples.quote_on_display,
        None)
  /\ snd (handleExecuteBridge Samples.balance_dropped (Some "token")
            Samples.quote_on_display)
     = Some (Samples.execute_request (of_Z 2000000000)).
Proof. repeat split; vm_compute; reflexivity. Qed.

(** C5, amended.  Execute sends its request exactly when a quote is present
    and the amount string is not empty, the amount sent being the floor
    conversion of whatever the string parses to; the checks that the amount
    is a number, positive and within the balance are made by the quote
    operation alone, which sends its request exactly when all of them
    pass. *)
Theorem execute_checks_quote_and_amount_only props token s :
  snd (handleExecuteBridge props token s)
  = (if bool_decide (is_Some (quote s)) && negb (String.eqb (amount s) "")
     then Some (SolanaAPI.executeBridge
                  {| ExecuteBridgeRequest.amount_lamports :=
                       lamports_of (parseFloat (amount s));
                     ExecuteBridgeRequest.recipient_zcash_address := zcashAddress props |}
                  (accessToken_of token))
     else None)
  /\ snd (handleGetQuote props token s)
     = (if negb (String.eqb (amount s) "")
           && negb (isNaN (parseFloat (amount s)))
           && negb (leb (parseFloat (amount s)) (of_Z 0))
           && negb (gtb (parseFloat (amount s)) (currentBalance props))
        then Some (SolanaAPI.getBridgeQuote
                     {| BridgeQuoteRequest.amount_lamports :=
                          lamports_of (parseFloat (amount s));
                        BridgeQuoteRequest.recipient_zcash_address := zcashAddress props |}
                     (accessToken_of token))
        else None).
Proof.
  split.
  - unfold handleExecuteBridge. destruct (quote s) as [q |]; [| reflexivity].
    rewrite bool_decide_eq_true_2 by eauto.
    destruct (String.eqb (amount s) ""); reflexivity.
  - unfold handleGetQuote.
    destruct (String.eqb (amount s) ""); [reflexivity |].
    destruct (isNaN _); [reflexivity |].
    destruct (leb _ _); [reflexivity |].
    destruct (gtb _ _); reflexivity.
Qed.

(** C6 fails at a tenth of a lamport.  The amount [0.0000000001] is a
    positive number within the balance, so the quote request is sent; the
    floor conversion makes its [amount_lamports] zero; and so it is in the
    execute request that follows. *)
Theorem sub_lamport_amount_is_sent_as_zero :
  handleGetQuote Samples.modal_props (Some "token") (setAmount "0.0000000001" initial)
  = (setError None (setIsLoading true (setAmount "0.0000000001" initial)),
     Some (Samples.quote_request (S754_zero false)))
  /\ option_map trace
       (run Samples.sub_lamport_bridge (start Samples.modal_props (Some "token")))
     = Some [ Fetch (Samples.quote_request (S754_zero false));
              Fetch (Samples.execute_request (S754_zero false)) ].
Proof. split; vm_compute; reflexivity. Qed.

(** C10 fails when the amount is edited while the quote request is in
    flight: the input stays enabled, the quote for 1 SOL arrives and is
    shown, and execute converts the amount then in the field, 2 SOL. *)
Theorem amount_edited_in_flight_is_executed :
  option_map trace
    (run Samples.edit_in_flight (start Samples.modal_props (Some "token")))
  = Some [ Fetch (Samples.quote_request (of_Z 1000000000));
           Fetch (Samples.execute_request (of_Z 2000000000)) ]
  /\ of_Z 1000000000 <> of_Z 2000000000.
Proof. split; [vm_compute; reflexivity | discriminate]. Qed.

(** ** Quote and execute under calm events

    What is behind C10: as long as the amount is not edited while a quote
    request is in flight, an execute sends the amount that was quoted. *)

Lemma quoted_app_quiet (tr effects : list Effect) :
  omap quote_amount effects = [] -> quoted (tr ++ effects) = quoted tr.
Proof.
  intros Hquiet. unfold quoted. rewrite omap_app, Hquiet, app_nil_r. reflexivity.
Qed.

Lemma quoted_snoc (tr : list Effect) eff q :
  quote_amount eff = Some q -> quoted (tr ++ [eff]) = Some q.
Proof.
  intros Hq. unfold quoted. rewrite omap_app. cbn [omap list_omap]. rewrite Hq.
  apply last_snoc.
Qed.

Lemma step_eqb_eq (a b : BridgeStep.t) : BridgeStep.eqb a b = true <-> a = b.
Proof. destruct a, b; cbn; split; intros; congruence. Qed.

Lemma poll_resume_quiet m r s :
  omap quote_amount (snd (fst (poll_resume m r s))) = []
  /\ amount (fst (fst (poll_resume m r s))) = amount s
  /\ quote (fst (fst (poll_resume m r s))) = quote s
  /\ (step (fst (fst (poll_resume m r s))) = BridgeStep.input -> step s = BridgeStep.input).
Proof.
  unfold poll_resume, checkStatus_resume.
  destruct r as [err | r];
    repeat match goal with
           | |- context [if ?b then _ else _] => destruct b
           end; cbn; repeat split; auto; discriminate.
Qed.

Lemma not_is_Some_None {A} : ~ is_Some (@None A).
Proof. intros [x Hx]. discriminate. Qed.

Ltac not_in_flight I2 :=
  match goal with
  | |- pending _ <> AwaitingQuote =>
      let Hp := fresh in intros Hp; destruct (I2 Hp); congruence
  end.

Lemma dispatch_consistent e a a' :
  calm e a = true -> consistent a -> dispatch e a = Some a' -> consistent a'.
Proof.
  intros Hcalm (I1 & I2 & I3) Hd.
  destruct e; cbn [dispatch] in Hd.
  - (* the amount is edited *)
    destruct (amount_input_shown a) eqn:Hshown; [| discriminate]. injection Hd as <-.
    unfold amount_input_shown in Hshown. apply andb_prop in Hshown as [_ Hstep].
    apply step_eqb_eq in Hstep.
    assert (Hidle : pending a <> AwaitingQuote).
    { intros Hp. unfold calm in Hcalm. rewrite Hp in Hcalm. discriminate. }
    split; [| split]; cbn.
    + auto.
    + intros Hp. contradiction.
    + intros [Hp | Hq]; [contradiction |].
      rewrite (I1 Hstep) in Hq. destruct (not_is_Some_None Hq).
  - (* Get Quote *)
    destruct (get_quote_enabled a) eqn:Henabled; [| discriminate].
    unfold get_quote_enabled in Henabled.
    apply andb_prop in Henabled as [Henabled Hfree].
    apply andb_prop in Henabled as [_ Hstep]. apply step_eqb_eq in Hstep.
    apply negb_true_iff, orb_false_iff in Hfree as [Hloading _].
    assert (Hidle : pending a <> AwaitingQuote) by not_in_flight I2.
    unfold handleGetQuote in Hd.
    destruct (String.eqb (amount (state a)) "");
      [| destruct (isNaN _ || leb _ _); [| destruct (gtb _ _)]];
      injection Hd as <-; (split; [| split]); cbn; auto;
      try (intros Hp; contradiction);
      try (intros [Hp | Hq]; [contradiction |];
           rewrite (I1 Hstep) in Hq; destruct (not_is_Some_None Hq)).
    intros _. apply quoted_snoc. reflexivity.
  - (* Back *)
    destruct (quote_buttons_enabled a) eqn:Henabled; [| discriminate]. injection Hd as <-.
    unfold quote_buttons_enabled in Henabled.
    apply andb_prop in Henabled as [Henabled _].
    apply andb_prop in Henabled as [Henabled _].
    apply andb_prop in Henabled as [_ Hstep]. apply step_eqb_eq in Hstep.
    assert (Hidle : pending a <> AwaitingQuote) by not_in_flight I2.
    split; [| split]; cbn; auto; try (intros Hp; contradiction).
    intros [Hp | Hq]; [contradiction | destruct (not_is_Some_None Hq)].
  - (* Execute Bridge *)
    destruct (quote_buttons_enabled a) eqn:Henabled; [| discriminate].
    unfold quote_buttons_enabled in Henabled.
    apply andb_prop in Henabled as [Henabled _].
    apply andb_prop in Henabled as [Henabled Hquote].
    apply andb_prop in Henabled as [_ Hstep]. apply step_eqb_eq in Hstep.
    apply bool_decide_eq_true in Hquote.
    assert (Hidle : pending a <> AwaitingQuote) by not_in_flight I2.
    unfold handleExecuteBridge in Hd.
    destruct (quote (state a)) as [q |] eqn:Hq; [| destruct (not_is_Some_None Hquote)].
    destruct (String.eqb (amount (state a)) ""); injection Hd as <-;
      (split; [| split]); cbn; rewrite ?app_nil_r; auto; try congruence; try discriminate.
    all: intros _; rewrite ?quoted_app_quiet by reflexivity; apply I3; right; eauto.
  - (* Close *)
    destruct (close_enabled a); [| discriminate].
    unfold handleClose in Hd.
    destruct (negb (isLoading (state a)) && _ && _) eqn:Hguard; injection Hd as <-.
    + apply andb_prop in Hguard as [Hguard _]. apply andb_prop in Hguard as [Hloading _].
      apply negb_true_iff in Hloading.
      assert (Hidle : pending a <> AwaitingQuote) by not_in_flight I2.
      split; [| split]; cbn; auto; try (intros Hp; contradiction).
      intros [Hp | Hq]; [contradiction | destruct (not_is_Some_None Hq)].
    + split; [| split]; cbn; rewrite ?app_nil_r; auto.
  - (* the props change *)
    injection Hd as <-. split; [| split]; cbn; auto.
  - (* the quote request settles *)
    destruct (pending a) eqn:Hp; try discriminate. injection Hd as <-.
    destruct (I2 eq_refl) as [Hstep _].
    unfold handleGetQuote_resume.
    destruct (SolanaAPI.fetch o) as [err | q]; (split; [| split]); cbn;
      rewrite ?app_nil_r; auto; try discriminate.
  - (* the execute request settles *)
    destruct (pending a) eqn:Hp; try discriminate.
    unfold handleExecuteBridge_resume in Hd.
    destruct (SolanaAPI.fetch o) as [err | r]; injection Hd as <-;
      (split; [| split]); cbn; rewrite ?app_nil_r; auto; try discriminate.
    + intros [Hx | Hq]; [discriminate | auto].
    + intros [Hx | Hq]; [discriminate |].
      rewrite quoted_app_quiet by reflexivity. auto.
  - (* a status request settles *)
    destruct (pending a) eqn:Hp; try discriminate.
    destruct (poll_resume_quiet m (SolanaAPI.fetch o) (state a))
      as (Hquiet & Hamount & Hquote & Hstep).
    destruct (poll_resume m (SolanaAPI.fetch o) (state a)) as [[s effects] [delay |]];
      cbn [fst snd] in *; injection Hd as <-;
      (split; [| split]); cbn; rewrite ?Hamount, ?Hquote; auto; try discriminate.
    + intros [Hx | Hq]; [discriminate |].
      rewrite quoted_app_quiet; [auto |].
      rewrite omap_app, Hquiet. reflexivity.
    + intros [Hx | Hq]; [discriminate |].
      rewrite quoted_app_quiet; auto.
  - (* the timer fires *)
    destruct (pending a) eqn:Hp; try discriminate. injection Hd as <-.
    split; [| split]; cbn; auto; try discriminate.
    intros [Hx | Hq]; [discriminate |].
    rewrite quoted_app_quiet by reflexivity. auto.
Qed.

Lemma start_consistent p token : consistent (start p token).
Proof.
  split; [| split]; cbn; auto; try discriminate.
  intros [Hp | Hq]; [discriminate | destruct (not_is_Some_None Hq)].
Qed.

Lemma run_calm_consistent events :
  forall a a', consistent a -> run_calm events a = Some a' -> consistent a'.
Proof.
  induction events as [| e rest IH]; intros a a' Ha Hrun; cbn [run_calm] in Hrun.
  - injection Hrun as <-. exact Ha.
  - destruct (calm e a) eqn:Hcalm; [| discriminate].
    destruct (dispatch e a) as [a1 |] eqn:Hd; [| discriminate].
    apply (IH a1 a'); [| exact Hrun].
    apply (dispatch_consistent e a a1); assumption.
Qed.

(** X6.  After any calm sequence of events, clicking Execute Bridge sends
    the amount of the quote request issued last. *)
Theorem calm_execute_sends_the_quoted_amount events p token a request :
  run_calm events (start p token) = Some a ->
  quote_buttons_enabled a = true ->
  snd (handleExecuteBridge (props a) (shield_access_token a) (state a)) = Some request ->
  exists e,
    body request = ExecuteBody e
    /\ quoted (trace a) = Some (ExecuteBridgeRequest.amount_lamports e).
Proof.
  intros Hrun Henabled Hrequest.
  destruct (run_calm_consistent events _ _ (start_consistent p token) Hrun) as (_ & _ & I3).
  unfold quote_buttons_enabled in Henabled.
  apply andb_prop in Henabled as [Henabled _].
  apply andb_prop in Henabled as [_ Hquote]. apply bool_decide_eq_true in Hquote.
  unfold handleExecuteBridge in Hrequest.
  destruct (quote (state a)) as [q |] eqn:Hq; [| discriminate].
  destruct (String.eqb (amount (state a)) ""); [discriminate |].
  cbn [snd] in Hrequest. injection Hrequest as <-.
  eexists. split; [reflexivity |]. cbn. apply I3. right. eauto.
Qed.

(** The events of C10's failing input are not calm, and those of a plain
    quote and execute are. *)
Lemma edit_in_flight_is_not_calm :
  run_calm Samples.edit_in_flight (start Samples.modal_props (Some "token")) = None
  /\ option_map trace
       (run_calm [InputChange "1"; ClickGetQuote;
                  QuoteSettles (Ok (inr Samples.quote_response)); ClickExecute]
          (start Samples.modal_props (Some "token")))
     = Some [ Fetch (Samples.quote_request (of_Z 1000000000));
              Fetch (Samples.execute_request (of_Z 1000000000)) ].
Proof. split; vm_compute; reflexivity. Qed.

(** ** The ledger *)

Lemma bridge_transactions_found :
  Ledger.find_table Ledger.migration_005 "bridge_transactions"
  = Some Ledger.bridge_transactions.
Proof. reflexivity. Qed.

Lemma bridge_transactions_keys :
  Ledger.unique_keys Ledger.migration_005 Ledger.bridge_transactions = [["id"]].
Proof. reflexivity. Qed.

Lemma bridge_transactions_triggers :
  Ledger.row_triggers Ledger.migration_005 Ledger.BEFORE Ledger.UPDATE "bridge_transactions"
  = [Ledger.update_updated_at_column].
Proof. reflexivity. Qed.

(** Every [UPDATE] of a [bridge_transactions] row ends with the trigger. *)
Lemma update_row_stamped e set OLD :
  Ledger.update_row Ledger.migration_005 e "bridge_transactions" set OLD
  = <["updated_at" := Ledger.Timestamptz (Ledger.now e)]> (Ledger.assign set OLD).
Proof.
  unfold Ledger.update_row. rewrite bridge_transactions_triggers. reflexivity.
Qed.

Lemma rows_of_insert name rows (db : Ledger.database) :
  Ledger.rows_of (<[name := rows]> db) name = rows.
Proof. unfold Ledger.rows_of. rewrite lookup_insert_eq. reflexivity. Qed.

Lemma insert_bridge_transactions e supplied (db : Ledger.database) :
  Ledger.insert Ledger.migration_005 e "bridge_transactions" supplied db
  = if Ledger.known_columns Ledger.bridge_transactions (map fst (map_to_list supplied))
       && Ledger.check_row Ledger.migration_005 Ledger.bridge_transactions db
            (Ledger.rows_of db "bridge_transactions")
            (Ledger.with_defaults e Ledger.bridge_transactions supplied)
    then Some (<["bridge_transactions" :=
                   (Ledger.rows_of db "bridge_transactions"
                    ++ [Ledger.with_defaults e Ledger.bridge_transactions supplied])%list]>
                 db)
    else None.
Proof. unfold Ledger.insert. rewrite bridge_transactions_found. reflexivity. Qed.

(** The two inserts and the update of the sample ledger. *)
Lemma sample_first_insert :
  Ledger.insert Ledger.migration_005 Samples.at_100 "bridge_transactions"
    Samples.first_attempt Samples.users_only = Some Samples.ledger_one.
Proof.
  rewrite insert_bridge_transactions.
  replace (Ledger.known_columns _ _ && Ledger.check_row _ _ _ _ _) with true
    by (vm_compute; reflexivity).
  replace (Ledger.rows_of Samples.users_only "bridge_transactions") with (@nil Ledger.row)
    by (vm_compute; reflexivity).
  reflexivity.
Qed.

Lemma sample_second_insert :
  Ledger.insert Ledger.migration_005 Samples.at_200 "bridge_transactions"
    Samples.second_attempt Samples.ledger_one = Some Samples.ledger_two.
Proof.
  rewrite insert_bridge_transactions.
  replace (Ledger.known_columns _ _ && Ledger.check_row _ _ _ _ _) with true
    by (vm_compute; reflexivity).
  unfold Samples.ledger_one at 1 2. rewrite rows_of_insert. cbn [app].
  unfold Samples.ledger_two. rewrite insert_insert_eq. reflexivity.
Qed.

Lemma sample_update :
  Ledger.update Ledger.migration_005 Samples.at_300 "bridge_transactions"
    Samples.deposit_seen Samples.first_row Samples.ledger_two
  = Some Samples.ledger_three.
Proof.
  unfold Ledger.update. rewrite bridge_transactions_found. cbv zeta.
  replace (Ledger.known_columns _ _ && forallb _ _) with true
    by (vm_compute; reflexivity).
  unfold Samples.ledger_two. rewrite rows_of_insert. cbn [fmap list_fmap].
  replace (Samples.first_row Samples.stored_first) with true by (vm_compute; reflexivity).
  replace (Samples.first_row Samples.stored_second) with false by (vm_compute; reflexivity).
  rewrite update_row_stamped, insert_insert_eq. reflexivity.
Qed.

Lemma sample_reachable : Ledger.reachable Samples.ledger_two.
Proof.
  eapply Ledger.reachable_insert; [| exact sample_second_insert].
  eapply Ledger.reachable_insert; [| exact sample_first_insert].
  apply Ledger.reachable_empty. vm_compute. reflexivity.
Qed.

(** The second update of the first sample row, made at the [NOW()] of the
    first. *)
Lemma sample_second_update :
  Ledger.update Ledger.migration_005 Samples.at_300 "bridge_transactions"
    Samples.bridge_completed Samples.first_row Samples.ledger_three
  = Some Samples.ledger_four.
Proof.
  unfold Ledger.update. rewrite bridge_transactions_found. cbv zeta.
  replace (Ledger.known_columns _ _ && forallb _ _) with true
    by (vm_compute; reflexivity).
  unfold Samples.ledger_three. rewrite rows_of_insert. cbn [fmap list_fmap].
  fold Samples.deposit_seen_row.
  replace (Samples.first_row Samples.deposit_seen_row) with true
    by (vm_compute; reflexivity).
  replace (Samples.first_row Samples.stored_second) with false by (vm_compute; reflexivity).
  rewrite update_row_stamped, insert_insert_eq. reflexivity.
Qed.

(** C8, as stated, fails.  [NOW()] is the start time of the transaction, so
    a second [UPDATE] in the transaction of the first is stamped with the
    same time: the first sample row, updated to [PROCESSING] at 300, is
    updated to [SUCCESS] at 300 again; its status has changed and its
    [updated_at] is the value it had. *)
Lemma state_change_keeps_updated_at :
  Ledger.update Ledger.migration_005 Samples.at_300 "bridge_transactions"
    Samples.deposit_seen Samples.first_row Samples.ledger_two
  = Some Samples.ledger_three
  /\ Ledger.update Ledger.migration_005 Samples.at_300 "bridge_transactions"
       Samples.bridge_completed Samples.first_row Samples.ledger_three
     = Some Samples.ledger_four
  /\ Ledger.rows_of Samples.ledger_three "bridge_transactions" !! 0%nat
     = Some Samples.deposit_seen_row
  /\ Ledger.rows_of Samples.ledger_four "bridge_transactions" !! 0%nat
     = Some Samples.bridge_completed_row
  /\ Ledger.get Samples.deposit_seen_row "status" = Ledger.Text "PROCESSING"
  /\ Ledger.get Samples.bridge_completed_row "status" = Ledger.Text "SUCCESS"
  /\ Ledger.get Samples.deposit_seen_row "updated_at" = Ledger.Timestamptz 300
  /\ Ledger.get Samples.bridge_completed_row "updated_at" = Ledger.Timestamptz 300
  /\ Samples.bridge_completed_row <> Samples.deposit_seen_row.
Proof.
  split; [exact sample_update |]. split; [exact sample_second_update |].
  split; [unfold Samples.ledger_three; rewrite rows_of_insert; reflexivity |].
  split; [unfold Samples.ledger_four; rewrite rows_of_insert; reflexivity |].
  assert (H3 : Ledger.get Samples.deposit_seen_row "status" = Ledger.Text "PROCESSING")
    by (vm_compute; reflexivity).
  assert (H4 : Ledger.get Samples.bridge_completed_row "status" = Ledger.Text "SUCCESS")
    by (vm_compute; reflexivity).
  split; [exact H3 |]. split; [exact H4 |].
  split; [vm_compute; reflexivity |]. split; [vm_compute; reflexivity |].
  intros Heq. rewrite Heq, H3 in H4. discriminate H4.
Qed.

(** C8, amended.  An [UPDATE] of [bridge_transactions] that succeeds leaves
    every row it selected with [updated_at] equal to the statement's
    [NOW()], whatever the [SET] list assigned, and leaves the other rows as
    they were.  So a row that differs from what it was carries the time of
    the update, and that is a new value whenever [NOW()] is later than the
    value stored before. *)
Theorem update_stamps_updated_at e set where_ (db db' : Ledger.database) :
  Ledger.update Ledger.migration_005 e "bridge_transactions" set where_ db = Some db' ->
  forall i OLD,
    Ledger.rows_of db "bridge_transactions" !! i = Some OLD ->
    exists NEW,
      Ledger.rows_of db' "bridge_transactions" !! i = Some NEW
      /\ (where_ OLD = true ->
          Ledger.get NEW "updated_at" = Ledger.Timestamptz (Ledger.now e))
      /\ (where_ OLD = false -> NEW = OLD)
      /\ (NEW <> OLD ->
          Ledger.get NEW "updated_at" = Ledger.Timestamptz (Ledger.now e))
      /\ (forall t, where_ OLD = true ->
                    Ledger.get OLD "updated_at" = Ledger.Timestamptz t ->
                    (t < Ledger.now e)%Z ->
                    Ledger.get NEW "updated_at" <> Ledger.get OLD "updated_at").
Proof.
  intros Hupdate i OLD Hi.
  unfold Ledger.update in Hupdate. rewrite bridge_transactions_found in Hupdate.
  cbv zeta in Hupdate.
  destruct (Ledger.known_columns _ _ && forallb _ _); [| discriminate].
  injection Hupdate as <-. rewrite rows_of_insert, list_lookup_fmap, Hi. cbn [fmap option_fmap option_map].
  eexists. split; [reflexivity |].
  destruct (where_ OLD) eqn:W.
  - assert (Hstamp : Ledger.get
              (Ledger.update_row Ledger.migration_005 e "bridge_transactions" set OLD)
              "updated_at" = Ledger.Timestamptz (Ledger.now e)).
    { rewrite update_row_stamped. unfold Ledger.get. rewrite lookup_insert_eq. reflexivity. }
    repeat split; auto; try discriminate.
    intros t _ Hold Hlt. rewrite Hstamp, Hold. intros [= Heq]. lia.
  - repeat split; auto; try discriminate; congruence.
Qed.

(** C8: the amended statement at the update that records the deposit of the
    first of the two sample rows. *)
Lemma update_stamps_updated_at_witness :
  Ledger.update Ledger.migration_005 Samples.at_300 "bridge_transactions"
    Samples.deposit_seen Samples.first_row Samples.ledger_two
  = Some Samples.ledger_three
  /\ forall i OLD,
      Ledger.rows_of Samples.ledger_two "bridge_transactions" !! i = Some OLD ->
      exists NEW,
        Ledger.rows_of Samples.ledger_three "bridge_transactions" !! i = Some NEW
        /\ (Samples.first_row OLD = true ->
            Ledger.get NEW "updated_at" = Ledger.Timestamptz 300)
        /\ (Samples.first_row OLD = false -> NEW = OLD)
        /\ (NEW <> OLD -> Ledger.get NEW "updated_at" = Ledger.Timestamptz 300)
        /\ (forall t, Samples.first_row OLD = true ->
                      Ledger.get OLD "updated_at" = Ledger.Timestamptz t ->
                      (t < 300)%Z ->
                      Ledger.get NEW "updated_at" <> Ledger.get OLD "updated_at").
Proof.
  split; [exact sample_update |].
  apply (update_stamps_updated_at Samples.at_300 Samples.deposit_seen Samples.first_row
           Samples.ledger_two Samples.ledger_three).
  exact sample_update.
Defined.

(** What passing the constraints of [bridge_transactions] means for the
    two columns of interest. *)
Lemma check_column_not_null db r c :
  Ledger.check_column db r c = true ->
  Ledger.not_null c || Ledger.primary_key c = true ->
  Ledger.get r (Ledger.col_name c) <> Ledger.NULL.
Proof.
  unfold Ledger.check_column. intros H Hn.
  apply andb_prop in H as [H _]. apply andb_prop in H as [_ H].
  rewrite Hn in H. cbn [negb orb] in H.
  apply negb_true_iff, bool_decide_eq_false in H. exact H.
Qed.

Lemma check_row_bridge db others r :
  Ledger.check_row Ledger.migration_005 Ledger.bridge_transactions db others r = true ->
  Ledger.get r "id" <> Ledger.NULL
  /\ Ledger.get r "deposit_address" <> Ledger.NULL
  /\ Forall (fun r' => Ledger.get r "id" <> Ledger.get r' "id") others.
Proof.
  unfold Ledger.check_row. rewrite bridge_transactions_keys. intros H.
  apply andb_prop in H as [Hcols Hkeys].
  rewrite forallb_forall in Hcols.
  assert (Hid : Ledger.get r "id" <> Ledger.NULL).
  { apply (check_column_not_null db r
             (Ledger.DEFAULT Ledger.Gen_random_uuid
                (Ledger.PRIMARY_KEY (Ledger.col "id" Ledger.UUID)))); [| reflexivity].
    apply Hcols. cbn. auto. }
  assert (Hdeposit : Ledger.get r "deposit_address" <> Ledger.NULL).
  { apply (check_column_not_null db r
             (Ledger.NOT_NULL (Ledger.col "deposit_address" Ledger.TEXT))); [| reflexivity].
    apply Hcols. cbn. auto 10. }
  repeat split; try assumption.
  cbn [forallb] in Hkeys. rewrite andb_true_r in Hkeys.
  rewrite forallb_forall in Hkeys.
  apply Forall_forall. intros r' Hin. apply list_elem_of_In in Hin.
  specialize (Hkeys r' Hin). apply negb_true_iff in Hkeys.
  unfold Ledger.collide in Hkeys. cbn [forallb map] in Hkeys.
  rewrite (bool_decide_eq_false_2 _ Hid) in Hkeys. cbn [negb andb] in Hkeys.
  apply bool_decide_eq_false in Hkeys. congruence.
Qed.

Lemma distinct_on_snoc c rows r :
  Ledger.distinct_on c rows ->
  Forall (fun r' => Ledger.get r c <> Ledger.get r' c) rows ->
  Ledger.distinct_on c (rows ++ [r]).
Proof.
  intros Hrows Hnew i j r1 r2 Hij H1 H2.
  rewrite Forall_lookup in Hnew.
  apply lookup_snoc_Some in H1 as [[Hi H1] | [Hi <-]];
    apply lookup_snoc_Some in H2 as [[Hj H2] | [Hj <-]].
  - eapply Hrows; eauto.
  - intros Heq. eapply Hnew; eauto.
  - eapply Hnew; eauto.
  - lia.
Qed.

Lemma forallb_imap_lookup {A} (g : nat -> A -> bool) (l : list A) :
  forallb (fun b => b) (imap g l) = true ->
  forall i x, l !! i = Some x -> g i x = true.
Proof.
  rewrite forallb_forall. intros H i x Hi. apply H.
  apply list_elem_of_In, list_elem_of_lookup. exists i.
  rewrite list_lookup_imap, Hi. reflexivity.
Qed.

Lemma elem_of_delete_other {A} (l : list A) i j x :
  i <> j -> l !! j = Some x -> x ∈ delete i l.
Proof.
  intros Hij Hj. destruct (Nat.lt_ge_cases j i) as [Hlt | Hge].
  - apply (list_elem_of_lookup_2 _ j). rewrite list_lookup_delete_lt by exact Hlt. exact Hj.
  - destruct j as [| j]; [lia |].
    apply (list_elem_of_lookup_2 _ j). rewrite list_lookup_delete_ge by lia. exact Hj.
Qed.

(** The invariant of the [bridge_transactions] table. *)
Lemma reachable_keyed (db : Ledger.database) :
  Ledger.reachable db ->
  Ledger.distinct_on "id" (Ledger.rows_of db "bridge_transactions")
  /\ Ledger.present "id" (Ledger.rows_of db "bridge_transactions")
  /\ Ledger.present "deposit_address" (Ledger.rows_of db "bridge_transactions").
Proof.
  induction 1 as [db Hempty | db e supplied db' _ IH Hinsert
                 | db e set where_ db' _ IH Hupdate].
  - rewrite Hempty. repeat split; try constructor.
    intros i j r1 r2 _ H1. rewrite lookup_nil in H1. discriminate.
  - destruct IH as (Hdistinct & Hid & Hdeposit).
    unfold Ledger.insert in Hinsert. rewrite bridge_transactions_found in Hinsert.
    cbv zeta in Hinsert.
    destruct (Ledger.known_columns _ _) in Hinsert; [| discriminate].
    cbn [andb] in Hinsert.
    destruct (Ledger.check_row _ _ _ _ _) eqn:Hcheck in Hinsert; [| discriminate].
    injection Hinsert as <-. rewrite rows_of_insert.
    apply check_row_bridge in Hcheck as (Hnew_id & Hnew_deposit & Hfresh).
    repeat split.
    + apply distinct_on_snoc; assumption.
    + apply Forall_app. split; [assumption | repeat constructor; assumption].
    + apply Forall_app. split; [assumption | repeat constructor; assumption].
  - destruct IH as (Hdistinct & Hid & Hdeposit).
    unfold Ledger.update in Hupdate. rewrite bridge_transactions_found in Hupdate.
    cbv zeta in Hupdate.
    destruct (Ledger.known_columns _ _) in Hupdate; [| discriminate].
    cbn [andb] in Hupdate.
    destruct (forallb _ _) eqn:Hchecks in Hupdate; [| discriminate].
    injection Hupdate as <-. rewrite rows_of_insert.
    remember (Ledger.rows_of db "bridge_transactions") as rows eqn:Hrows. clear Hrows.
    set (f := fun r : Ledger.row =>
                if where_ r
                then Ledger.update_row Ledger.migration_005 e "bridge_transactions" set r
                else r) in *.
    assert (Hselected : forall i r, rows !! i = Some r -> where_ r = true ->
              Ledger.get (f r) "id" <> Ledger.NULL
              /\ Ledger.get (f r) "deposit_address" <> Ledger.NULL
              /\ Forall (fun r' => Ledger.get (f r) "id" <> Ledger.get r' "id")
                   (delete i (f <$> rows))).
    { intros i r Hi Hw.
      pose proof (forallb_imap_lookup _ _ Hchecks i r Hi) as Hc. cbv beta in Hc.
      rewrite Hw in Hc. cbn [negb orb] in Hc.
      rewrite list_lookup_fmap, Hi in Hc. cbn [fmap option_fmap option_map from_option] in Hc.
      apply check_row_bridge in Hc. exact Hc. }
    assert (Hkept : forall r, where_ r = false -> f r = r).
    { intros r Hw. unfold f. rewrite Hw. reflexivity. }
    repeat split.
    + intros i j r1' r2' Hij H1 H2.
      apply list_lookup_fmap_Some in H1 as (r1 & -> & H1).
      apply list_lookup_fmap_Some in H2 as (r2 & -> & H2).
      destruct (where_ r1) eqn:W1.
      * destruct (Hselected i r1 H1 W1) as (_ & _ & Hothers).
        rewrite Forall_forall in Hothers. apply Hothers.
        apply (elem_of_delete_other _ i j); [exact Hij |].
        rewrite list_lookup_fmap, H2. reflexivity.
      * destruct (where_ r2) eqn:W2.
        -- destruct (Hselected j r2 H2 W2) as (_ & _ & Hothers).
           rewrite Forall_forall in Hothers. intros Heq. symmetry in Heq. revert Heq.
           apply Hothers. apply (elem_of_delete_other _ j i); [congruence |].
           rewrite list_lookup_fmap, H1. reflexivity.
        -- rewrite !Hkept by assumption. eapply Hdistinct; eauto.
    + apply Forall_lookup. intros i r' Hi.
      apply list_lookup_fmap_Some in Hi as (r & -> & Hi).
      destruct (where_ r) eqn:W; [apply (Hselected i r Hi W) |].
      rewrite Hkept by assumption.
      unfold Ledger.present in Hid. rewrite Forall_lookup in Hid. eapply Hid; eauto.
    + apply Forall_lookup. intros i r' Hi.
      apply list_lookup_fmap_Some in Hi as (r & -> & Hi).
      destruct (where_ r) eqn:W; [apply (Hselected i r Hi W) |].
      rewrite Hkept by assumption.
      unfold Ledger.present in Hdeposit. rewrite Forall_lookup in Hdeposit.
      eapply Hdeposit; eauto.
Qed.

(** C1, as stated, fails: two attempts of one user are inserted one after
    the other with the same deposit address [D1]; both inserts succeed, and
    the table then holds two rows with different [id] and the same
    [deposit_address]. *)
Lemma two_rows_share_a_deposit_address :
  Ledger.insert Ledger.migration_005 Samples.at_100 "bridge_transactions"
    Samples.first_attempt Samples.users_only = Some Samples.ledger_one
  /\ Ledger.insert Ledger.migration_005 Samples.at_200 "bridge_transactions"
       Samples.second_attempt Samples.ledger_one = Some Samples.ledger_two
  /\ Ledger.reachable Samples.ledger_two
  /\ Ledger.rows_of Samples.ledger_two "bridge_transactions"
     = [Samples.stored_first; Samples.stored_second]
  /\ Ledger.get Samples.stored_first "id" = Ledger.Uuid 1
  /\ Ledger.get Samples.stored_second "id" = Ledger.Uuid 2
  /\ Ledger.get Samples.stored_first "deposit_address" = Ledger.Text "D1"
  /\ Ledger.get Samples.stored_second "deposit_address" = Ledger.Text "D1"
  /\ ~ Ledger.distinct_on "deposit_address"
         (Ledger.rows_of Samples.ledger_two "bridge_transactions").
Proof.
  split; [exact sample_first_insert |]. split; [exact sample_second_insert |].
  split; [exact sample_reachable |].
  assert (Hrows : Ledger.rows_of Samples.ledger_two "bridge_transactions"
                  = [Samples.stored_first; Samples.stored_second])
    by apply rows_of_insert.
  split; [exact Hrows |].
  repeat (split; [vm_compute; reflexivity |]).
  rewrite Hrows. intros Hdistinct.
  apply (Hdistinct 0%nat 1%nat Samples.stored_first Samples.stored_second);
    [lia | reflexivity | reflexivity | vm_compute; reflexivity].
Qed.

(** C1, amended.  The only column list of [bridge_transactions] on which the
    schema enforces uniqueness is the primary key [id]: in every state of
    the ledger no two rows carry the same [id], and every row has an [id]
    and a [deposit_address]. *)
Theorem primary_key_is_the_only_unique_key (db : Ledger.database) :
  Ledger.reachable db ->
  Ledger.unique_keys Ledger.migration_005 Ledger.bridge_transactions = [["id"]]
  /\ Ledger.distinct_on "id" (Ledger.rows_of db "bridge_transactions")
  /\ Ledger.present "id" (Ledger.rows_of db "bridge_transactions")
  /\ Ledger.present "deposit_address" (Ledger.rows_of db "bridge_transactions").
Proof.
  intros Hreach. split; [reflexivity |]. apply reachable_keyed. exact Hreach.
Qed.

(** C1: the amended statement at the sample ledger of two rows. *)
Lemma primary_key_is_the_only_unique_key_witness :
  Ledger.reachable Samples.ledger_two
  /\ Ledger.unique_keys Ledger.migration_005 Ledger.bridge_transactions = [["id"]]
  /\ Ledger.distinct_on "id" (Ledger.rows_of Samples.ledger_two "bridge_transactions")
  /\ Ledger.present "id" (Ledger.rows_of Samples.ledger_two "bridge_transactions")
  /\ Ledger.present "deposit_address"
       (Ledger.rows_of Samples.ledger_two "bridge_transactions").
Proof.
  split; [exact sample_reachable |].
  apply (primary_key_is_the_only_unique_key Samples.ledger_two). exact sample_reachable.
Defined.

(** ** What every run of the modal keeps true

    The properties below hold after any sequence of events: clicks and
    edits the rendered controls allow, re-renders with any props, settled
    requests with any outcome, and timers. *)

Lemma step_eqb_neq (a b : BridgeStep.t) : BridgeStep.eqb a b = false <-> a <> b.
Proof. destruct a, b; cbn; split; intros; congruence. Qed.

(** What [checkStatus] does to the state, by the value it returns. *)
Lemma checkStatus_resume_step m r s :
  let '(s1, _, isDone) := checkStatus_resume m r s in
  isLoading s1 = isLoading s
  /\ bridgeResult s1 = bridgeResult s
  /\ amount s1 = amount s
  /\ quote s1 = quote s
  /\ (if isDone
      then step s1 = BridgeStep.success \/ step s1 = BridgeStep.error
      else step s1 = step s /\ error s1 = error s).
Proof.
  unfold checkStatus_resume. destruct r as [err | r]; [cbn; auto 10 |].
  destruct (String.eqb _ "COMPLETED" || String.eqb _ "SUCCESS"); [cbn; auto 10 |].
  destruct (String.eqb _ "FAILED" || String.eqb _ "ERROR"); cbn; auto 10.
Qed.

(** What a poll does to the state, by its outcome. *)
Lemma poll_resume_step m r s :
  let '(s1, _, timer) := poll_resume m r s in
  isLoading s1 = isLoading s
  /\ bridgeResult s1 = bridgeResult s
  /\ amount s1 = amount s
  /\ quote s1 = quote s
  /\ match timer with
     | Some _ => step s1 = step s /\ (attempts m < maxAttempts)%nat
     | None => step s1 = BridgeStep.success \/ step s1 = BridgeStep.error
     end.
Proof.
  unfold poll_resume. pose proof (checkStatus_resume_step m r s) as H.
  destruct (checkStatus_resume m r s) as [[s1 effects] isDone].
  destruct H as (Hl & Hb & Ha & Hq & Hs).
  destruct isDone; cbn [negb andb].
  - destruct (maxAttempts <=? attempts m)%nat; cbn; auto 10.
  - destruct (attempts m <? maxAttempts)%nat eqn:A.
    + apply Nat.ltb_lt in A. destruct Hs. auto 10.
    + apply Nat.ltb_ge in A. apply Nat.leb_le in A. rewrite A. cbn. auto 10.
Qed.

Lemma coherent_idle a :
  coherent a ->
  isLoading (state a) = false ->
  step (state a) <> BridgeStep.executing ->
  step (state a) <> BridgeStep.monitoring ->
  pending a = Idle.
Proof.
  intros [H _] Hl He Hm. destruct (pending a); [reflexivity | ..];
    cbn in H; destruct H as (H1 & H2); try destruct H2; congruence.
Qed.

Lemma quote_buttons_enabled_spec a :
  quote_buttons_enabled a = true ->
  step (state a) = BridgeStep.quote /\ is_Some (quote (state a))
  /\ isLoading (state a) = false.
Proof.
  unfold quote_buttons_enabled. intros H.
  apply andb_prop in H as [H Hl]. apply andb_prop in H as [H Hq].
  apply andb_prop in H as [_ Hs].
  apply step_eqb_eq in Hs. apply bool_decide_eq_true in Hq.
  apply negb_true_iff in Hl. auto.
Qed.

Lemma dispatch_coherent e a a' :
  coherent a -> dispatch e a = Some a' -> coherent a'.
Proof.
  intros Hc Hd. pose proof Hc as (P1 & P2 & P3).
  destruct e; cbn [dispatch] in Hd.
  - (* the amount is edited *)
    destruct (amount_input_shown a); [| discriminate]. injection Hd as <-.
    exact Hc.
  - (* Get Quote *)
    destruct (get_quote_enabled a) eqn:Henabled; [| discriminate].
    unfold get_quote_enabled in Henabled.
    apply andb_prop in Henabled as [Henabled Hfree].
    apply andb_prop in Henabled as [_ Hstep]. apply step_eqb_eq in Hstep.
    apply negb_true_iff, orb_false_iff in Hfree as [Hloading _].
    assert (Hidle : pending a = Idle)
      by (apply coherent_idle; auto; rewrite Hstep; discriminate).
    unfold handleGetQuote in Hd.
    destruct (String.eqb (amount (state a)) "");
      [| destruct (isNaN _ || leb _ _); [| destruct (gtb _ _)]];
      injection Hd as <-; unfold coherent; cbn; rewrite ?Hidle, ?Hstep;
      repeat split; auto; discriminate.
  - (* Back *)
    destruct (quote_buttons_enabled a) eqn:Henabled; [| discriminate]. injection Hd as <-.
    apply quote_buttons_enabled_spec in Henabled as (Hstep & _ & Hloading).
    assert (Hidle : pending a = Idle)
      by (apply coherent_idle; auto; rewrite Hstep; discriminate).
    unfold coherent. cbn. rewrite Hidle. repeat split; auto; discriminate.
  - (* Execute Bridge *)
    destruct (quote_buttons_enabled a) eqn:Henabled; [| discriminate].
    apply quote_buttons_enabled_spec in Henabled as (Hstep & _ & Hloading).
    assert (Hidle : pending a = Idle)
      by (apply coherent_idle; auto; rewrite Hstep; discriminate).
    unfold handleExecuteBridge in Hd.
    destruct (quote (state a)) as [q |] eqn:Hq;
      [destruct (String.eqb (amount (state a)) "") |]; injection Hd as <-;
      unfold coherent; cbn; rewrite ?Hidle, ?Hstep, ?Hq;
      repeat split; auto; try discriminate; eauto.
  - (* Close *)
    destruct (close_enabled a); [| discriminate].
    unfold handleClose in Hd.
    destruct (negb (isLoading (state a)) && _ && _) eqn:Hguard; injection Hd as <-.
    + apply andb_prop in Hguard as [Hguard Hm]. apply andb_prop in Hguard as [Hl He].
      apply negb_true_iff in Hl, He, Hm. apply step_eqb_neq in He, Hm.
      assert (Hidle : pending a = Idle) by (apply coherent_idle; auto).
      unfold coherent. cbn. rewrite Hidle. repeat split; auto; discriminate.
    + unfold coherent, with_state. cbn [state pending]. exact Hc.
  - (* the props change *)
    injection Hd as <-. exact Hc.
  - (* the quote request settles *)
    destruct (pending a) eqn:Hp; try discriminate. injection Hd as <-.
    destruct P1 as [_ Hstep].
    unfold handleGetQuote_resume.
    destruct (SolanaAPI.fetch o) as [err | q]; unfold coherent; cbn;
      rewrite ?Hstep; repeat split; auto; try discriminate; eauto.
  - (* the execute request settles *)
    destruct (pending a) eqn:Hp; try discriminate.
    unfold handleExecuteBridge_resume in Hd.
    destruct (SolanaAPI.fetch o) as [err | r]; injection Hd as <-;
      unfold coherent, watches, maxAttempts; cbn;
      repeat split; auto; try discriminate; try lia; eauto.
  - (* a status request settles *)
    destruct (pending a) eqn:Hp; try discriminate.
    destruct P1 as (Hloading & Hstep & (r & Hr & Hdep) & Hn).
    pose proof (poll_resume_step m (SolanaAPI.fetch o) (state a)) as H.
    destruct (poll_resume m (SolanaAPI.fetch o) (state a)) as [[s effects] [delay |]];
      destruct H as (Hl & Hb & _ & _ & Hs); injection Hd as <-;
      unfold coherent, watches; cbn; rewrite Hl, Hb.
    + destruct Hs as [Hs Hlt]. rewrite Hs, Hstep.
      repeat split; auto; try discriminate; try lia; eauto.
    + rewrite Hr. repeat split; eauto; destruct Hs; congruence.
  - (* the timer fires *)
    destruct (pending a) eqn:Hp; try discriminate. injection Hd as <-.
    destruct P1 as (Hloading & Hstep & Hw & Hn).
    unfold coherent. cbn. repeat split; auto; try lia; try (rewrite Hstep; discriminate).
Qed.

Lemma start_coherent p token : coherent (start p token).
Proof. unfold coherent. cbn. repeat split; auto; discriminate. Qed.

Lemma run_coherent events :
  forall a a', coherent a -> run events a = Some a' -> coherent a'.
Proof.
  induction events as [| e rest IH]; intros a a' Ha Hrun; cbn [run] in Hrun.
  - injection Hrun as <-. exact Ha.
  - destruct (dispatch e a) as [a1 |] eqn:Hd; [| discriminate].
    apply (IH a1 a'); [| exact Hrun].
    apply (dispatch_coherent e a a1); assumption.
Qed.

Lemma in_order_snoc tr eff ph :
  in_order tr = Some ph -> in_order (tr ++ [eff]) = advance ph eff.
Proof.
  unfold in_order. intros H. rewrite fold_left_app, H. reflexivity.
Qed.

Lemma in_order_quiet tr effects ph :
  in_order tr = Some ph ->
  Forall (fun eff => match eff with Fetch _ => False | _ => True end) effects ->
  in_order (tr ++ effects) = Some ph.
Proof.
  intros H Hq. revert tr H.
  induction Hq as [| eff effects Heff _ IH]; intros tr H.
  - rewrite app_nil_r. exact H.
  - replace (tr ++ eff :: effects)%list with ((tr ++ [eff]) ++ effects)%list
      by (rewrite <- app_assoc; reflexivity).
    apply IH. rewrite (in_order_snoc tr eff ph H).
    destruct eff; [destruct Heff | reflexivity ..].
Qed.

Lemma poll_resume_no_request m r s :
  Forall (fun eff => match eff with Fetch _ => False | _ => True end)
    (snd (fst (poll_resume m r s))).
Proof.
  rewrite poll_resume_effects. unfold checkStatus_resume.
  destruct r as [err | r]; [repeat constructor |].
  destruct (String.eqb _ "COMPLETED" || String.eqb _ "SUCCESS");
    [destruct (notify m); repeat constructor |].
  destruct (String.eqb _ "FAILED" || String.eqb _ "ERROR"); constructor.
Qed.

Lemma dispatch_ordered e a a' :
  coherent a -> ordered a -> dispatch e a = Some a' -> ordered a'.
Proof.
  intros Hc (ph & Hph & Hq & He) Hd. pose proof Hc as (P1 & P2 & P3).
  destruct e; cbn [dispatch] in Hd.
  - (* the amount is edited *)
    destruct (amount_input_shown a); [| discriminate]. injection Hd as <-.
    exists ph. cbn -[in_order]. rewrite app_nil_r. auto.
  - (* Get Quote *)
    destruct (get_quote_enabled a) eqn:Henabled; [| discriminate].
    unfold get_quote_enabled in Henabled.
    apply andb_prop in Henabled as [Henabled Hfree].
    apply andb_prop in Henabled as [_ Hstep]. apply step_eqb_eq in Hstep.
    apply negb_true_iff, orb_false_iff in Hfree as [Hloading _].
    assert (Hidle : pending a = Idle)
      by (apply coherent_idle; auto; rewrite Hstep; discriminate).
    unfold handleGetQuote in Hd.
    destruct (String.eqb (amount (state a)) "");
      [| destruct (isNaN _ || leb _ _); [| destruct (gtb _ _)]];
      injection Hd as <-.
    1-3: exists ph; cbn -[in_order]; rewrite app_nil_r, Hidle, Hstep;
         repeat split; auto; try (intros [|]; discriminate).
    exists Quoted. cbn -[in_order]. rewrite (in_order_snoc _ _ ph Hph). auto.
  - (* Back *)
    destruct (quote_buttons_enabled a) eqn:Henabled; [| discriminate]. injection Hd as <-.
    apply quote_buttons_enabled_spec in Henabled as (Hstep & _ & Hloading).
    assert (Hidle : pending a = Idle)
      by (apply coherent_idle; auto; rewrite Hstep; discriminate).
    exists ph. cbn -[in_order]. rewrite app_nil_r, Hidle. repeat split; auto; try (intros [|]; discriminate).
  - (* Execute Bridge *)
    destruct (quote_buttons_enabled a) eqn:Henabled; [| discriminate].
    apply quote_buttons_enabled_spec in Henabled as (Hstep & _ & Hloading).
    assert (Hidle : pending a = Idle)
      by (apply coherent_idle; auto; rewrite Hstep; discriminate).
    unfold handleExecuteBridge in Hd.
    destruct (quote (state a)) as [q |] eqn:Hquote;
      [destruct (String.eqb (amount (state a)) "") |]; injection Hd as <-.
    1,3: exists ph; cbn -[in_order]; rewrite app_nil_r, Hidle; auto.
    exists Executed. cbn -[in_order]. rewrite (in_order_snoc _ _ ph Hph), (Hq (or_intror Hstep)).
    repeat split; auto; try (intros [|]; discriminate).
  - (* Close *)
    destruct (close_enabled a); [| discriminate].
    unfold handleClose in Hd.
    destruct (negb (isLoading (state a)) && _ && _) eqn:Hguard; injection Hd as <-.
    + apply andb_prop in Hguard as [Hguard Hm]. apply andb_prop in Hguard as [Hl Hx].
      apply negb_true_iff in Hl, Hx, Hm. apply step_eqb_neq in Hx, Hm.
      assert (Hidle : pending a = Idle) by (apply coherent_idle; auto).
      exists ph. cbn -[in_order]. rewrite Hidle.
      rewrite (in_order_quiet _ [OnClose] ph Hph) by (repeat constructor).
      repeat split; auto; try (intros [|]; discriminate).
    + exists ph. cbn -[in_order]. rewrite app_nil_r. auto.
  - (* the props change *)
    injection Hd as <-. exists ph. auto.
  - (* the quote request settles *)
    destruct (pending a) eqn:Hp; try discriminate. injection Hd as <-.
    exists ph. cbn -[in_order]. rewrite app_nil_r. repeat split; auto.
  - (* the execute request settles *)
    destruct (pending a) eqn:Hp; try discriminate. subst ph.
    unfold handleExecuteBridge_resume in Hd.
    destruct (SolanaAPI.fetch o) as [err | r]; injection Hd as <-.
    + exists Executed. cbn -[in_order]. rewrite app_nil_r. repeat split; auto; try (intros [|]; discriminate).
    + exists Executed. cbn -[in_order]. rewrite (in_order_snoc _ _ Executed Hph).
      repeat split; auto; try (intros [|]; discriminate).
  - (* a status request settles *)
    destruct (pending a) eqn:Hp; try discriminate. subst ph.
    destruct P1 as (_ & Hstep & _).
    pose proof (poll_resume_step m (SolanaAPI.fetch o) (state a)) as H.
    pose proof (poll_resume_no_request m (SolanaAPI.fetch o) (state a)) as Hquiet.
    destruct (poll_resume m (SolanaAPI.fetch o) (state a)) as [[s effects] [delay |]];
      destruct H as (_ & _ & _ & _ & Hs); cbn [fst snd] in Hquiet;
      injection Hd as <-; exists Executed; cbn -[in_order].
    + rewrite (in_order_quiet _ _ Executed Hph)
        by (apply Forall_app; split; [exact Hquiet | repeat constructor]).
      destruct Hs as [Hs _]. repeat split; auto; try (intros [|]; congruence).
    + rewrite (in_order_quiet _ _ Executed Hph Hquiet).
      repeat split; auto; try (intros [|]; [discriminate | destruct Hs; congruence]).
  - (* the timer fires *)
    destruct (pending a) eqn:Hp; try discriminate. injection Hd as <-. subst ph.
    destruct P1 as (_ & Hstep & _).
    exists Executed. cbn -[in_order]. rewrite (in_order_snoc _ _ Executed Hph).
    repeat split; auto; try (intros [|]; [discriminate | congruence]).
Qed.

Lemma run_ordered events :
  forall a a', coherent a -> ordered a -> run events a = Some a' -> ordered a'.
Proof.
  induction events as [| e rest IH]; intros a a' Hc Ho Hrun; cbn [run] in Hrun.
  - injection Hrun as <-. exact Ho.
  - destruct (dispatch e a) as [a1 |] eqn:Hd; [| discriminate].
    apply (IH a1 a'); [| | exact Hrun].
    + apply (dispatch_coherent e a a1); assumption.
    + apply (dispatch_ordered e a a1); assumption.
Qed.

Lemma start_ordered p token : ordered (start p token).
Proof. exists Unquoted. cbn. repeat split; auto. intros [|]; discriminate. Qed.

Lemma coherent_pending a :
  coherent a ->
  (isLoading (state a) = true <->
   pending a = AwaitingQuote \/ exists t n, pending a = AwaitingExecute t n)
  /\ (step (state a) = BridgeStep.executing <-> exists t n, pending a = AwaitingExecute t n)
  /\ (step (state a) = BridgeStep.monitoring <->
      exists m, pending a = AwaitingStatus m \/ pending a = AwaitingTimer m).
Proof.
  intros [H _].
  destruct (pending a) as [| | t n | m | m]; cbn in H.
  - destruct H as (Hl & He & Hm). rewrite Hl.
    repeat split; try discriminate; try contradiction.
    + intros [? | (? & ? & ?)]; discriminate.
    + intros (? & ? & ?); discriminate.
    + intros (? & [? | ?]); discriminate.
  - destruct H as (Hl & Hs). rewrite Hl, Hs.
    repeat split; auto; try discriminate.
    + intros (? & ? & ?); discriminate.
    + intros (? & [? | ?]); discriminate.
  - destruct H as (Hl & Hs). rewrite Hl, Hs.
    repeat split; eauto; try discriminate.
    intros (? & [? | ?]); discriminate.
  - destruct H as (Hl & Hs & _). rewrite Hl, Hs.
    repeat split; eauto; try discriminate.
    + intros [? | (? & ? & ?)]; discriminate.
    + intros (? & ? & ?); discriminate.
  - destruct H as (Hl & Hs & _). rewrite Hl, Hs.
    repeat split; eauto; try discriminate.
    + intros [? | (? & ? & ?)]; discriminate.
    + intros (? & ? & ?); discriminate.
Qed.

(** The two sample runs. *)
Lemma sample_run_until_second_poll :
  run Samples.bridge_until_second_poll (start Samples.modal_props (Some "token"))
  = Some Samples.polling.
Proof. vm_compute. reflexivity. Qed.

Lemma sample_run_to_completion :
  run Samples.bridge_to_completion (start Samples.modal_props (Some "token"))
  = Some Samples.bridged.
Proof. vm_compute. reflexivity. Qed.

(** X1.  After any sequence of events the loading flag is on exactly while
    a quote request or an execute request is in flight: it never stays on
    after the request has settled, whatever the outcome, and no request of
    these two kinds is in flight with the flag off. *)
Theorem loading_exactly_while_a_request_is_in_flight events p token a :
  run events (start p token) = Some a ->
  (isLoading (state a) = true <->
   pending a = AwaitingQuote \/ exists t n, pending a = AwaitingExecute t n).
Proof.
  intros Hrun. apply coherent_pending.
  exact (run_coherent events _ _ (start_coherent p token) Hrun).
Qed.

(** X1 during the sample bridge, at its second status request. *)
Lemma loading_exactly_while_a_request_is_in_flight_witness :
  run Samples.bridge_until_second_poll (start Samples.modal_props (Some "token"))
  = Some Samples.polling
  /\ (isLoading (state Samples.polling) = true <->
      pending Samples.polling = AwaitingQuote
      \/ exists t n, pending Samples.polling = AwaitingExecute t n).
Proof.
  split; [exact sample_run_until_second_poll |].
  apply (loading_exactly_while_a_request_is_in_flight Samples.bridge_until_second_poll
           Samples.modal_props (Some "token") Samples.polling).
  exact sample_run_until_second_poll.
Defined.

(** X2.  After any sequence of events the modal is in the executing step
    exactly while the execute request is in flight, and in the monitoring
    step exactly while a status request is in flight or a poll timer is set:
    monitoring never stands still without a poll to come, and no poll runs
    on after the step was left.  The poll at hand is one of at most sixty
    and asks for the deposit address of the execute result on display. *)
Theorem monitoring_step_exactly_while_polling events p token a :
  run events (start p token) = Some a ->
  (step (state a) = BridgeStep.executing <-> exists t n, pending a = AwaitingExecute t n)
  /\ (step (state a) = BridgeStep.monitoring <->
      exists m, pending a = AwaitingStatus m \/ pending a = AwaitingTimer m)
  /\ forall m,
       pending a = AwaitingStatus m \/ pending a = AwaitingTimer m ->
       (1 <= attempts m <= maxAttempts)%nat
       /\ exists r,
            bridgeResult (state a) = Some r
            /\ checkStatus m
               = SolanaAPI.getBridgeStatus
                   {| BridgeStatusRequest.deposit_address :=
                        ExecuteBridgeResponse.deposit_address r |}
                   (accessToken m).
Proof.
  intros Hrun.
  pose proof (run_coherent events _ _ (start_coherent p token) Hrun) as Hc.
  destruct (coherent_pending a Hc) as (_ & He & Hm).
  split; [exact He |]. split; [exact Hm |].
  intros m Hp. destruct Hc as [H _].
  assert (Hw : watches m (state a) /\ (1 <= attempts m <= maxAttempts)%nat).
  { destruct Hp as [Hp | Hp]; rewrite Hp in H; destruct H as (_ & _ & Hw & Hn);
      split; auto; lia. }
  destruct Hw as [(r & Hr & Hdep) Hn]. split; [exact Hn |].
  exists r. split; [exact Hr |]. unfold checkStatus. rewrite Hdep. reflexivity.
Qed.

(** X2 during the sample bridge, at its second status request. *)
Lemma monitoring_step_exactly_while_polling_witness :
  run Samples.bridge_until_second_poll (start Samples.modal_props (Some "token"))
  = Some Samples.polling
  /\ (step (state Samples.polling) = BridgeStep.executing <->
      exists t n, pending Samples.polling = AwaitingExecute t n)
  /\ (step (state Samples.polling) = BridgeStep.monitoring <->
      exists m, pending Samples.polling = AwaitingStatus m
                \/ pending Samples.polling = AwaitingTimer m)
  /\ forall m,
       pending Samples.polling = AwaitingStatus m
       \/ pending Samples.polling = AwaitingTimer m ->
       (1 <= attempts m <= maxAttempts)%nat
       /\ exists r,
            bridgeResult (state Samples.polling) = Some r
            /\ checkStatus m
               = SolanaAPI.getBridgeStatus
                   {| BridgeStatusRequest.deposit_address :=
                        ExecuteBridgeResponse.deposit_address r |}
                   (accessToken m).
Proof.
  split; [exact sample_run_until_second_poll |].
  apply (monitoring_step_exactly_while_polling Samples.bridge_until_second_poll
           Samples.modal_props (Some "token") Samples.polling).
  exact sample_run_until_second_poll.
Defined.

(** X3.  After any sequence of events the panel of the current step has the
    data its rendering condition asks for: in the quote step a quote is
    held, and in the monitoring and success steps an execute result.  So
    the body of the modal is blank in no step but [executing], for which
    the component has no panel. *)
Theorem shown_step_has_its_data events p token a :
  run events (start p token) = Some a ->
  (step (state a) = BridgeStep.quote -> is_Some (quote (state a)))
  /\ (step (state a) = BridgeStep.monitoring \/ step (state a) = BridgeStep.success ->
      is_Some (bridgeResult (state a))).
Proof.
  intros Hrun.
  pose proof (run_coherent events _ _ (start_coherent p token) Hrun) as Hc.
  destruct (coherent_pending a Hc) as (_ & _ & Hm). destruct Hc as (H & Hq & Hs).
  split; [exact Hq |]. intros [Hstep | Hstep]; [| exact (Hs Hstep)].
  apply Hm in Hstep as (m & [Hp | Hp]); rewrite Hp in H;
    destruct H as (_ & _ & (r & Hr & _) & _); rewrite Hr; eauto.
Qed.

(** X3 at the end of the sample bridge. *)
Lemma shown_step_has_its_data_witness :
  run Samples.bridge_to_completion (start Samples.modal_props (Some "token"))
  = Some Samples.bridged
  /\ (step (state Samples.bridged) = BridgeStep.quote ->
      is_Some (quote (state Samples.bridged)))
  /\ (step (state Samples.bridged) = BridgeStep.monitoring
      \/ step (state Samples.bridged) = BridgeStep.success ->
      is_Some (bridgeResult (state Samples.bridged))).
Proof.
  split; [exact sample_run_to_completion |].
  apply (shown_step_has_its_data Samples.bridge_to_completion
           Samples.modal_props (Some "token") Samples.bridged).
  exact sample_run_to_completion.
Defined.

(** X4.  After any sequence of events no Close control is enabled while a
    request is in flight or a poll timer is set; and whenever one is
    enabled, the click goes through the guard of [handleClose]: it resets
    the whole state to the initial one, calls [onClose] once and leaves
    nothing pending. *)
Theorem enabled_close_resets_the_modal events p token a :
  run events (start p token) = Some a ->
  (pending a <> Idle -> close_enabled a = false)
  /\ (close_enabled a = true ->
      dispatch ClickClose a = Some (with_state a initial Idle [OnClose])).
Proof.
  intros Hrun.
  pose proof (run_coherent events _ _ (start_coherent p token) Hrun) as Hc.
  assert (Hidle : close_enabled a = true ->
            pending a = Idle /\ isLoading (state a) = false
            /\ step (state a) <> BridgeStep.executing
            /\ step (state a) <> BridgeStep.monitoring).
  { intros Henabled. destruct Hc as [H _]. unfold close_enabled in Henabled.
    destruct (pending a); cbn in H.
    - destruct H as (Hl & He & Hm). auto.
    - destruct H as (Hl & Hs). rewrite Hl, Hs, andb_comm in Henabled. discriminate.
    - destruct H as (Hl & Hs). rewrite Hl, Hs, andb_comm in Henabled. discriminate.
    - destruct H as (Hl & Hs & _). rewrite Hl, Hs, andb_comm in Henabled. discriminate.
    - destruct H as (Hl & Hs & _). rewrite Hl, Hs, andb_comm in Henabled. discriminate. }
  split.
  - intros Hp. destruct (close_enabled a) eqn:E; [| reflexivity].
    destruct (Hidle eq_refl) as [Hp' _]. contradiction.
  - intros Henabled. destruct (Hidle Henabled) as (Hp & Hl & He & Hm).
    cbn [dispatch]. rewrite Henabled. unfold handleClose.
    apply step_eqb_neq in He, Hm. rewrite Hl, He, Hm. cbn [negb andb].
    rewrite Hp. unfold with_state. do 2 f_equal.
    unfold initial, setBridgeStatus, setBridgeResult, setQuote, setError, setStep, setAmount.
    cbn. rewrite Hl. reflexivity.
Qed.

(** X4 at the end of the sample bridge, where the success panel offers
    Close. *)
Lemma enabled_close_resets_the_modal_witness :
  run Samples.bridge_to_completion (start Samples.modal_props (Some "token"))
  = Some Samples.bridged
  /\ (pending Samples.bridged <> Idle -> close_enabled Samples.bridged = false)
  /\ (close_enabled Samples.bridged = true ->
      dispatch ClickClose Samples.bridged
      = Some (with_state Samples.bridged initial Idle [OnClose])).
Proof.
  split; [exact sample_run_to_completion |].
  apply (enabled_close_resets_the_modal Samples.bridge_to_completion
           Samples.modal_props (Some "token") Samples.bridged).
  exact sample_run_to_completion.
Defined.

(** X5.  After any sequence of events the requests the modal has issued are
    in the order of the bridge protocol: an execute request comes only
    directly after a quote request (so never two executes on one quote), a
    status request only directly after an execute or a status request, and
    no request of another kind is issued. *)
Theorem requests_follow_the_bridge_protocol events p token a :
  run events (start p token) = Some a ->
  is_Some (in_order (trace a)).
Proof.
  intros Hrun.
  destruct (run_ordered events _ _ (start_coherent p token) (start_ordered p token) Hrun)
    as (ph & Hph & _).
  rewrite Hph. eauto.
Qed.

(** X5 at the end of the sample bridge. *)
Lemma requests_follow_the_bridge_protocol_witness :
  run Samples.bridge_to_completion (start Samples.modal_props (Some "token"))
  = Some Samples.bridged
  /\ is_Some (in_order (trace Samples.bridged)).
Proof.
  split; [exact sample_run_to_completion |].
  apply (requests_follow_the_bridge_protocol Samples.bridge_to_completion
           Samples.modal_props (Some "token") Samples.bridged).
  exact sample_run_to_completion.
Defined.

(** X6 at a quote for 1 SOL on display. *)
Lemma calm_execute_sends_the_quoted_amount_witness :
  run_calm [InputChange "1"; ClickGetQuote; QuoteSettles (Ok (inr Samples.quote_response))]
    (start Samples.modal_props (Some "token"))
  = Some Samples.quote_shown
  /\ quote_buttons_enabled Samples.quote_shown = true
  /\ snd (handleExecuteBridge (props Samples.quote_shown)
            (shield_access_token Samples.quote_shown) (state Samples.quote_shown))
     = Some (Samples.execute_request (of_Z 1000000000))
  /\ exists e,
       body (Samples.execute_request (of_Z 1000000000)) = ExecuteBody e
       /\ quoted (trace Samples.quote_shown) = Some (ExecuteBridgeRequest.amount_lamports e).
Proof.
  assert (Hrun : run_calm [InputChange "1"; ClickGetQuote;
                           QuoteSettles (Ok (inr Samples.quote_response))]
                   (start Samples.modal_props (Some "token"))
                 = Some Samples.quote_shown) by (vm_compute; reflexivity).
  assert (Hrequest : snd (handleExecuteBridge (props Samples.quote_shown)
                            (shield_access_token Samples.quote_shown)
                            (state Samples.quote_shown))
                     = Some (Samples.execute_request (of_Z 1000000000)))
    by (vm_compute; reflexivity).
  split; [exact Hrun |]. split; [reflexivity |]. split; [exact Hrequest |].
  exact (calm_execute_sends_the_quoted_amount _ Samples.modal_props (Some "token")
           Samples.quote_shown _ Hrun eq_refl Hrequest).
Defined.

(** ** How a monitoring run ends *)

Lemma callbacks_app (a b : list Effect) :
  callbacks (a ++ b) = (callbacks a ++ callbacks b)%list.
Proof.
  induction a as [| x a IH]; [reflexivity |].
  destruct x; cbn; rewrite ?IH; reflexivity.
Qed.

(** A poll before the last attempt is [checkStatus] and, unless that
    returned [true], a timer of 5000 ms. *)
Lemma poll_resume_early m r s :
  (attempts m < maxAttempts)%nat ->
  poll_resume m r s =
    (fst (fst (checkStatus_resume m r s)), snd (fst (checkStatus_resume m r s)),
     if is_done r then None else Some 5000).
Proof.
  intros Hlt. unfold poll_resume. rewrite <- (checkStatus_resume_done m r s).
  destruct (checkStatus_resume m r s) as [[s1 effects] isDone]. cbn [fst snd].
  apply Nat.ltb_lt in Hlt as Hlt'. rewrite Hlt'.
  destruct isDone; cbn [negb andb]; [| reflexivity].
  apply Nat.leb_gt in Hlt. rewrite Hlt. reflexivity.
Qed.

(** A poll that is not done changes at most the status on display and calls
    nothing back. *)
Lemma checkStatus_resume_not_done m r s :
  is_done r = false ->
  setBridgeStatus None (fst (fst (checkStatus_resume m r s))) = setBridgeStatus None s
  /\ callbacks (snd (fst (checkStatus_resume m r s))) = [].
Proof.
  unfold checkStatus_resume, is_done. destruct r as [err | r]; [auto |].
  destruct (String.eqb _ "COMPLETED"), (String.eqb _ "SUCCESS"),
    (String.eqb _ "FAILED"), (String.eqb _ "ERROR"); cbn; intros; auto; discriminate.
Qed.

(** What [checkStatus] makes of a response depends on the state only up to
    the status on display, and on the monitor only through [onSuccess]. *)
Lemma checkStatus_resume_status m m' (r : BridgeStatusResponse.t) s s' :
  notify m = notify m' ->
  setBridgeStatus None s = setBridgeStatus None s' ->
  fst (checkStatus_resume m (inr r) s) = fst (checkStatus_resume m' (inr r) s').
Proof.
  intros Hn Hs. unfold checkStatus_resume. rewrite Hn.
  assert (H : setBridgeStatus (Some r) s = setBridgeStatus (Some r) s').
  { change (setBridgeStatus (Some r) (setBridgeStatus None s)
            = setBridgeStatus (Some r) (setBridgeStatus None s')).
    rewrite Hs. reflexivity. }
  rewrite H. reflexivity.
Qed.

(** A run whose [k]-th poll is the first that is done, [k] being below the
    budget. *)
Section Outcome.

Variable network : nat -> HttpOutcome BridgeStatusResponse.t.
Variable k : nat.
Variable r : BridgeStatusResponse.t.
Hypothesis Hk : (k < maxAttempts)%nat.
Hypothesis Hanswer : SolanaAPI.fetch (network k) = inr r.
Hypothesis Hdone : is_done (inr r) = true.

Lemma monitor_first_done d :
  forall m s,
    (attempts m + S d = k)%nat ->
    (forall j, (attempts m < j < k)%nat -> is_done (SolanaAPI.fetch (network j)) = false) ->
    fst (monitor network m s) = fst (fst (checkStatus_resume m (inr r) s))
    /\ callbacks (snd (monitor network m s))
       = callbacks (snd (fst (checkStatus_resume m (inr r) s)))
    /\ requests (ticks (snd (monitor network m s))) = S d.
Proof.
  induction d as [| d IH]; intros m s Hm Hbefore; rewrite (monitor_unfold network m s);
    cbn [poll fst snd attempts];
    set (m1 := {| depositAddress := depositAddress m; accessToken := accessToken m;
                  notify := notify m; attempts := S (attempts m) |});
    rewrite (poll_resume_early m1 (SolanaAPI.fetch (network (S (attempts m)))) s)
      by (cbn; lia).
  - replace (S (attempts m)) with k by lia. rewrite Hanswer, Hdone.
    cbn [fst snd callbacks ticks requests].
    rewrite (checkStatus_resume_ticks _ (inr r) s).
    split; [| split]; reflexivity.
  - assert (Hpending : is_done (SolanaAPI.fetch (network (S (attempts m)))) = false)
      by (apply Hbefore; lia).
    rewrite Hpending.
    destruct (checkStatus_resume_not_done m1
                (SolanaAPI.fetch (network (S (attempts m)))) s Hpending) as [Hs Hc].
    pose proof (checkStatus_resume_ticks m1 (SolanaAPI.fetch (network (S (attempts m)))) s)
      as Ht.
    destruct (IH m1 (fst (fst (checkStatus_resume m1
                                 (SolanaAPI.fetch (network (S (attempts m)))) s))))
      as (Hstate & Hcalls & Hrequests).
    { cbn. lia. }
    { intros j Hj. apply Hbefore. cbn in Hj. lia. }
    destruct (monitor network m1 _) as [s'' rest]. cbn [fst snd] in *.
    split; [| split].
    + rewrite Hstate. f_equal. apply checkStatus_resume_status; [reflexivity | exact Hs].
    + cbn [callbacks]. rewrite callbacks_app, Hc. cbn [app callbacks].
      rewrite Hcalls. f_equal. f_equal. apply checkStatus_resume_status; [reflexivity | exact Hs].
    + cbn [ticks requests]. rewrite ticks_app, Ht. cbn [app ticks requests].
      rewrite Hrequests. reflexivity.
Qed.

End Outcome.

(** X7.  When the [k]-th status request, [k < 60], is the first whose answer
    is a terminal status, the run started by [startMonitoring] ends with
    that answer after exactly [k] requests.  A fulfilled status ([COMPLETED],
    [SUCCESS]) leaves the modal in the success step with that status on
    display and nothing else changed, and calls [onSuccess] once if the
    prop was passed; a failed status ([FAILED], [ERROR]) leaves it in the
    error step with the message [Bridge transaction failed] and calls
    nothing. *)
Theorem monitoring_ends_with_the_first_done_poll
    network depositAddress accessToken onSuccess s k r :
  (1 <= k < maxAttempts)%nat ->
  (forall j, (1 <= j < k)%nat -> is_done (SolanaAPI.fetch (network j)) = false) ->
  SolanaAPI.fetch (network k) = inr r ->
  let status := BridgeStatusResponse.status r in
  let result := monitoring_run network depositAddress accessToken onSuccess s in
  (fulfilled status ->
   fst result = setStep BridgeStep.success (setBridgeStatus (Some r) s)
   /\ callbacks (snd result) = (if onSuccess then [OnSuccess] else [])
   /\ requests (ticks (snd result)) = k)
  /\ (failed status ->
      fst result
      = setStep BridgeStep.error
          (setError (Some (Text "Bridge transaction failed")) (setBridgeStatus (Some r) s))
      /\ callbacks (snd result) = []
      /\ requests (ticks (snd result)) = k).
Proof.
  intros Hk Hbefore Hanswer status result. subst result. unfold monitoring_run.
  set (m := {| depositAddress := depositAddress; accessToken := accessToken;
               notify := onSuccess; attempts := 0 |}).
  assert (Hrun : is_done (inr r) = true ->
            fst (monitor network m s) = fst (fst (checkStatus_resume m (inr r) s))
            /\ callbacks (snd (monitor network m s))
               = callbacks (snd (fst (checkStatus_resume m (inr r) s)))
            /\ requests (ticks (snd (monitor network m s))) = k).
  { intros Hdone.
    destruct k as [| d]; [lia |].
    apply (monitor_first_done network (S d) r); auto; try lia;
      intros j Hj; apply Hbefore; cbn in Hj; lia. }
  split; intros Hstatus.
  - destruct Hrun as (Hs & Hc & Hr); [apply is_done_spec; auto |].
    rewrite Hs, Hc, Hr. unfold checkStatus_resume. fold status.
    destruct Hstatus as [-> | ->]; cbn; destruct onSuccess; auto.
  - destruct Hrun as (Hs & Hc & Hr); [apply is_done_spec; auto |].
    rewrite Hs, Hc, Hr. unfold checkStatus_resume. fold status.
    destruct Hstatus as [-> | ->]; cbn; auto.
Qed.


(** X7 on a network where the third status request finds the bridge
    completed. *)
Lemma monitoring_ends_with_the_first_done_poll_witness :
  (1 <= 3 < maxAttempts)%nat
  /\ (forall j, (1 <= j < 3)%nat ->
                is_done (SolanaAPI.fetch (Samples.completes_on_third j)) = false)
  /\ SolanaAPI.fetch (Samples.completes_on_third 3)
     = inr (Samples.status_response "COMPLETED")
  /\ (let status := BridgeStatusResponse.status (Samples.status_response "COMPLETED") in
      let result :=
        monitoring_run Samples.completes_on_third "D1" "token" true
          Samples.monitoring_state in
      (fulfilled status ->
       fst result
       = setStep BridgeStep.success
           (setBridgeStatus (Some (Samples.status_response "COMPLETED"))
              Samples.monitoring_state)
       /\ callbacks (snd result) = [OnSuccess]
       /\ requests (ticks (snd result)) = 3%nat)
      /\ (failed status ->
          fst result
          = setStep BridgeStep.error
              (setError (Some (Text "Bridge transaction failed"))
                 (setBridgeStatus (Some (Samples.status_response "COMPLETED"))
                    Samples.monitoring_state))
          /\ callbacks (snd result) = []
          /\ requests (ticks (snd result)) = 3%nat)).
Proof.
  assert (H1 : (1 <= 3 < maxAttempts)%nat) by (unfold maxAttempts; lia).
  assert (H2 : forall j, (1 <= j < 3)%nat ->
                 is_done (SolanaAPI.fetch (Samples.completes_on_third j)) = false).
  { intros j Hj. assert (j = 1 \/ j = 2)%nat as [-> | ->] by lia; reflexivity. }
  split; [exact H1 |]. split; [exact H2 |]. split; [reflexivity |].
  exact (monitoring_ends_with_the_first_done_poll Samples.completes_on_third "D1" "token"
           true Samples.monitoring_state 3 (Samples.status_response "COMPLETED")
           H1 H2 eq_refl).
Defined.

Lemma checkStatus_resume_callbacks m r s :
  callbacks (snd (fst (checkStatus_resume m r s))) = []
  \/ (callbacks (snd (fst (checkStatus_resume m r s))) = [OnSuccess]
      /\ notify m = true
      /\ exists r', r = inr r' /\ fulfilled (BridgeStatusResponse.status r')).
Proof.
  unfold checkStatus_resume, fulfilled. destruct r as [err | r]; [left; reflexivity |].
  destruct (String.eqb _ "COMPLETED" || String.eqb _ "SUCCESS") eqn:F.
  - destruct (notify m); [right | left; reflexivity].
    apply orb_prop in F. rewrite !String.eqb_eq in F. eauto.
  - destruct (String.eqb _ "FAILED" || String.eqb _ "ERROR"); left; reflexivity.
Qed.

Lemma monitor_callbacks network n :
  forall m s,
    (maxAttempts - attempts m <= n)%nat ->
    callbacks (snd (monitor network m s)) = []
    \/ (callbacks (snd (monitor network m s)) = [OnSuccess]
        /\ notify m = true
        /\ exists k r, (attempts m < k)%nat
                       /\ SolanaAPI.fetch (network k) = inr r
                       /\ fulfilled (BridgeStatusResponse.status r)).
Proof.
  induction n as [| n IH]; intros m s Hn; rewrite (monitor_unfold network m s);
    cbn [poll fst snd attempts];
    set (m1 := {| depositAddress := depositAddress m; accessToken := accessToken m;
                  notify := notify m; attempts := S (attempts m) |});
    pose proof (poll_resume_timer m1 (SolanaAPI.fetch (network (S (attempts m)))) s) as Ht;
    pose proof (poll_resume_effects m1 (SolanaAPI.fetch (network (S (attempts m)))) s) as He;
    pose proof (checkStatus_resume_callbacks m1
                  (SolanaAPI.fetch (network (S (attempts m)))) s) as Hc;
    destruct (poll_resume m1 _ s) as [[s' effects] [delay |]]; cbn [fst snd] in *;
    rewrite <- He in Hc.
  - destruct (negb _ && (attempts m1 <? maxAttempts)%nat) eqn:E; [| discriminate].
    apply andb_prop in E as [_ E]. apply Nat.ltb_lt in E. cbn in E. lia.
  - cbn [callbacks].
    destruct Hc as [-> | (-> & Hnotify & r & Hr & Hf)]; [left; reflexivity | right].
    repeat split; auto. exists (S (attempts m)), r. auto.
  - destruct (negb (is_done _) && (attempts m1 <? maxAttempts)%nat) eqn:E; [| discriminate].
    apply andb_prop in E as [D E]. apply Nat.ltb_lt in E. apply negb_true_iff in D.
    destruct (checkStatus_resume_not_done m1 _ s D) as [_ Hquiet]. rewrite <- He in Hquiet.
    specialize (IH m1 s'). destruct (monitor network m1 s') as [s'' rest]. cbn [fst snd] in *.
    cbn [callbacks]. rewrite callbacks_app, Hquiet. cbn [app callbacks].
    destruct IH as [-> | (-> & Hnotify & k & r & Hk & Hr & Hf)];
      [cbn [m1 attempts] in *; lia | left; reflexivity | right].
    repeat split; auto. exists k, r. repeat split; auto. cbn [m1 attempts] in Hk. lia.
  - cbn [callbacks].
    destruct Hc as [-> | (-> & Hnotify & r & Hr & Hf)]; [left; reflexivity | right].
    repeat split; auto. exists (S (attempts m)), r. auto.
Qed.

(** X8.  Whatever the network answers, a monitoring run calls [onSuccess]
    at most once and [onClose] never; and it calls [onSuccess] only if the
    prop was passed and some status request was answered [COMPLETED] or
    [SUCCESS]. *)
Theorem onSuccess_is_called_at_most_once network depositAddress accessToken onSuccess s :
  let calls := callbacks (snd (monitoring_run network depositAddress accessToken onSuccess s)) in
  calls = []
  \/ (calls = [OnSuccess]
      /\ onSuccess = true
      /\ exists k r, (1 <= k)%nat
                     /\ SolanaAPI.fetch (network k) = inr r
                     /\ fulfilled (BridgeStatusResponse.status r)).
Proof.
  intros calls. subst calls. unfold monitoring_run.
  destruct (monitor_callbacks network maxAttempts
              {| depositAddress := depositAddress; accessToken := accessToken;
                 notify := onSuccess; attempts := 0 |} s)
    as [H | (H & Hn & k & r & Hk & Hr & Hf)]; [cbn [attempts]; lia | left; exact H | right].
  repeat split; auto. exists k, r. cbn [attempts] in Hk. repeat split; auto; lia.
Qed.


(** X9.  On the last attempt the outcome of the poll is the timeout,
    whatever the status request returned: no timer is set and the modal is
    put in the error step with the timeout message.  This holds for a
    fulfilled status too: it is recorded as the status on display and
    [onSuccess] is called, and the modal still shows the timeout error. *)
Theorem last_poll_always_shows_the_timeout m r s :
  (maxAttempts <= attempts m)%nat ->
  let result := poll_resume m r s in
  snd result = None
  /\ step (fst (fst result)) = BridgeStep.error
  /\ error (fst (fst result)) = Some timeout_message
  /\ forall r', r = inr r' -> fulfilled (BridgeStatusResponse.status r') ->
       bridgeStatus (fst (fst result)) = Some r'
       /\ snd (fst result) = (if notify m then [OnSuccess] else []).
Proof.
  intros Hlast result. subst result. unfold poll_resume.
  assert (Hlt : (attempts m <? maxAttempts)%nat = false) by (apply Nat.ltb_ge; exact Hlast).
  apply Nat.leb_le in Hlast.
  destruct (checkStatus_resume m r s) as [[s1 effects] isDone] eqn:E.
  rewrite Hlt, andb_false_r, Hlast. cbn [fst snd].
  split; [reflexivity |]. split; [reflexivity |]. split; [reflexivity |].
  intros r' -> Hf. unfold checkStatus_resume in E.
  destruct Hf as [Hf | Hf]; rewrite Hf in E; cbn in E; injection E as <- <- <-; auto.
Qed.

(** X9 at a [COMPLETED] answer to the sixtieth status request. *)
Lemma last_poll_always_shows_the_timeout_witness :
  (maxAttempts <= attempts Samples.last_poll)%nat
  /\ (let result :=
        poll_resume Samples.last_poll (inr (Samples.status_response "COMPLETED"))
          Samples.monitoring_state in
      snd result = None
      /\ step (fst (fst result)) = BridgeStep.error
      /\ error (fst (fst result)) = Some timeout_message
      /\ forall r',
           inr (Samples.status_response "COMPLETED")
           = (inr r' : exn + BridgeStatusResponse.t) ->
           fulfilled (BridgeStatusResponse.status r') ->
           bridgeStatus (fst (fst result)) = Some r'
           /\ snd (fst result) = (if notify Samples.last_poll then [OnSuccess] else [])).
Proof.
  assert (H : (maxAttempts <= attempts Samples.last_poll)%nat)
    by (unfold maxAttempts; cbn; lia).
  split; [exact H |].
  exact (last_poll_always_shows_the_timeout Samples.last_poll
           (inr (Samples.status_response "COMPLETED")) Samples.monitoring_state H).
Defined.

(** ** The amount of a quote request

    Rounding keeps the sign: the product of two positive numbers and the
    floor of a positive number are [+0], positive or [+Infinity]. *)

Lemma shr_1_nonneg mrs : 0 <= shr_m mrs -> 0 <= shr_m (shr_1 mrs).
Proof.
  destruct mrs as [m r s]. cbn [shr_m shr_1].
  destruct m as [| [p | p |] | p]; cbn; lia.
Qed.

Lemma iter_pos_shr_1_nonneg p : forall mrs, 0 <= shr_m mrs -> 0 <= shr_m (SpecFloat.iter_pos shr_1 p mrs).
Proof.
  induction p as [p IH | p IH |]; intros mrs H; cbn [SpecFloat.iter_pos].
  - apply IH, IH, shr_1_nonneg, H.
  - apply IH, IH, H.
  - apply shr_1_nonneg, H.
Qed.

Lemma shr_fexp_nonneg m e l :
  0 <= m -> 0 <= shr_m (fst (shr_fexp prec emax m e l)).
Proof.
  intros H. unfold shr_fexp, shr.
  assert (H0 : 0 <= shr_m (shr_record_of_loc m l)).
  { destruct l as [| []]; exact H. }
  destruct (fexp prec emax (Zdigits2 m + e) - e); cbn [fst]; auto.
  apply iter_pos_shr_1_nonneg, H0.
Qed.

Lemma round_nearest_even_nonneg m l : 0 <= m -> 0 <= round_nearest_even m l.
Proof.
  intros H. destruct l as [| []]; cbn [round_nearest_even]; try lia.
  destruct (Z.even m); lia.
Qed.

Lemma binary_round_aux_sign sx mx ex lx :
  0 <= mx ->
  match binary_round_aux prec emax sx mx ex lx with
  | S754_zero s | S754_infinity s | S754_finite s _ _ => s = sx
  | S754_nan => False
  end.
Proof.
  intros H. unfold binary_round_aux.
  pose proof (shr_fexp_nonneg mx ex lx H) as H1.
  destruct (shr_fexp prec emax mx ex lx) as [mrs' e']. cbn [fst] in H1.
  pose proof (shr_fexp_nonneg _ e' loc_Exact
                (round_nearest_even_nonneg _ (loc_of_shr_record mrs') H1)) as H2.
  destruct (shr_fexp prec emax _ e' loc_Exact) as [mrs'' e'']. cbn [fst] in H2.
  destruct (shr_m mrs'') as [| m | m]; [reflexivity | | lia].
  destruct (e'' <=? emax - prec)%Z; reflexivity.
Qed.

Lemma of_Z_pos_nonneg p : is_nonneg (of_Z (Zpos p)) = true.
Proof.
  unfold of_Z, binary_normalize, binary_round.
  destruct (shl_align _ _ _) as [mz ez].
  pose proof (binary_round_aux_sign false (Zpos mz) ez loc_Exact ltac:(lia)) as H.
  destruct (binary_round_aux _ _ _ _ _ _); cbn; subst; auto.
Qed.

Lemma Math_floor_nonneg x : is_nonneg x = true -> is_nonneg (Math_floor x) = true.
Proof.
  destruct x as [[] | [] | | [] m e]; cbn; try discriminate; auto.
  intros _. unfold floorZ.
  assert (H : 0 <= match e with Zneg k => Zpos m / Zpos (Pos.pow 2 k) | _ => Zpos m * 2 ^ e end).
  { destruct e; try lia. apply Z.div_pos; lia. }
  destruct (match e with Zneg k => _ | _ => _ end) as [| z | z]; [reflexivity | | lia].
  apply of_Z_pos_nonneg.
Qed.

Lemma lamports_of_nonneg x :
  isNaN x || leb x (of_Z 0) = false -> is_nonneg (lamports_of x) = true.
Proof.
  intros H. unfold lamports_of. apply Math_floor_nonneg.
  destruct x as [[] | [] | | [] m e]; try discriminate H; clear H.
  - reflexivity.
  - assert (exists m' e', of_Z 1000000000 = S754_finite false m' e') as (m' & e' & ->)
      by (vm_compute; eauto).
    unfold mul, SFmul. cbn [xorb].
    pose proof (binary_round_aux_sign false (Zpos (m * m')) (e + e') loc_Exact ltac:(lia)) as H.
    destruct (binary_round_aux _ _ _ _ _ _); cbn; subst; auto.
Qed.

(** X10.  Every quote request that [handleGetQuote] sends is the
    [getBridgeQuote] request with the stored access token, and its
    [amount_lamports] is [+0], a positive number or [+Infinity]: never
    [NaN], never negative. *)
Theorem quoted_amount_is_never_negative props token s request :
  snd (handleGetQuote props token s) = Some request ->
  exists q,
    request = SolanaAPI.getBridgeQuote q (accessToken_of token)
    /\ is_nonneg (BridgeQuoteRequest.amount_lamports q) = true
    /\ isNaN (BridgeQuoteRequest.amount_lamports q) = false.
Proof.
  unfold handleGetQuote.
  destruct (String.eqb (amount s) ""); [discriminate |].
  destruct (isNaN _ || leb _ _) eqn:Hvalid; [discriminate |].
  destruct (gtb _ _); [discriminate |].
  cbn [snd]. intros [= <-]. eexists. split; [reflexivity |].
  cbn [BridgeQuoteRequest.amount_lamports].
  pose proof (lamports_of_nonneg _ Hvalid) as H. split; [exact H |].
  destruct (lamports_of _) as [[] | [] | | [] m e]; cbn in H |- *; congruence.
Qed.

(** X10 at 1 SOL typed into the fresh modal. *)
Lemma quoted_amount_is_never_negative_witness :
  snd (handleGetQuote Samples.modal_props (Some "token") (setAmount "1" initial))
  = Some (Samples.quote_request (of_Z 1000000000))
  /\ exists q,
       Samples.quote_request (of_Z 1000000000)
       = SolanaAPI.getBridgeQuote q (accessToken_of (Some "token"))
       /\ is_nonneg (BridgeQuoteRequest.amount_lamports q) = true
       /\ isNaN (BridgeQuoteRequest.amount_lamports q) = false.
Proof.
  assert (H : snd (handleGetQuote Samples.modal_props (Some "token")
                     (setAmount "1" initial))
              = Some (Samples.quote_request (of_Z 1000000000)))
    by (vm_compute; reflexivity).
  split; [exact H |].
  exact (quoted_amount_is_never_negative Samples.modal_props (Some "token")
           (setAmount "1" initial) _ H).
Defined.

(** ** Responses that are not ok *)

Lemma http_status_message_not_empty status : http_status_message status <> "".
Proof. unfold http_status_message. cbn. discriminate. Qed.

(** X11.  A response that is not ok never gives [SolanaAPI.fetch] a value to
    return: it throws an [Error].  The message is [An error occurred] when
    the body is not JSON; the [error] member of the body when that is a
    non-empty string; [HTTP] followed by the status code when the member is
    absent, [null], [false], [0] or the empty string; the string of the
    member when it is another truthy value; and the message of the
    [TypeError] when the body is [null].  So the message is empty only for
    a truthy member whose string is empty, such as an empty array, or for
    an empty [TypeError] message.  Thrown inside [handleGetQuote], the
    message becomes the error shown, and loading ends. *)
Theorem not_ok_response_throws_a_message {T} status json :
  exists msg,
    SolanaAPI.fetch (NotOk status json : HttpOutcome T) = inl (Error msg)
    /\ match json with
       | None => msg = "An error occurred"
       | Some (JsonNull type_error) => msg = type_error
       | Some (JsonValue NoError) | Some (JsonValue (ErrorString "")) =>
           msg = http_status_message status
       | Some (JsonValue (ErrorString e)) => msg = e
       | Some (JsonValue (ErrorValue to_string)) => msg = to_string
       end
    /\ (msg = "" ->
        json = Some (JsonNull "") \/ json = Some (JsonValue (ErrorValue "")))
    /\ forall s,
         handleGetQuote_resume (SolanaAPI.fetch (NotOk status json)) s
         = setIsLoading false (setError (Some (Text msg)) s).
Proof.
  destruct json as [[type_error | [| [| c e] | to_string]] |]; cbn; eexists;
    (split; [reflexivity |]); (split; [reflexivity |]); (split; [| reflexivity]);
    try discriminate; try (intros ->; auto);
    intros H; destruct (http_status_message_not_empty status H).
Qed.


(** ** The dashboard and the modal it renders *)

(** A number that is neither [NaN] nor [<= 0] is greater than every number
    that is [<= 0]. *)
Lemma positive_above_nonpositive x c :
  isNaN x || leb x (of_Z 0) = false -> leb c (of_Z 0) = true -> gtb x c = true.
Proof.
  destruct x as [[] | [] | | [] m e]; cbn; try discriminate; intros _;
    destruct c as [[] | [] | | [] m' e']; cbn; try discriminate; reflexivity.
Qed.

Lemma balance_sol_or_0_spec d :
  (leb (Dashboard.balance_sol_or_0 d) (of_Z 0) = false ->
   exists b, Dashboard.solanaBalance d = Some b
             /\ Dashboard.balance_sol_or_0 d = SolanaBalanceResponse.balance_sol b
             /\ ltb (of_Z 0) (SolanaBalanceResponse.balance_sol b) = true)
  /\ isNaN (Dashboard.balance_sol_or_0 d) = false.
Proof.
  unfold Dashboard.balance_sol_or_0.
  destruct (Dashboard.solanaBalance d) as [b |]; cbn; [| split; [discriminate | reflexivity]].
  destruct (SolanaBalanceResponse.balance_sol b) as [[] | [] | | [] m e] eqn:E; cbn;
    split; try discriminate; try reflexivity; intros _; exists b; rewrite E; auto.
Qed.

(** X12.  The button [Bridge SOL to Zcash] is enabled only when a balance
    has been loaded, no refresh is running and [balance_sol] is greater
    than zero (so neither zero nor [NaN]); the bridge modal then gets
    exactly that [balance_sol] as [currentBalance]. *)
Theorem bridge_button_needs_a_positive_balance d :
  Dashboard.bridge_button_enabled d = true ->
  exists b,
    Dashboard.solanaBalance d = Some b
    /\ Dashboard.solanaBalanceLoading d = false
    /\ ltb (of_Z 0) (SolanaBalanceResponse.balance_sol b) = true
    /\ forall p, Dashboard.bridge_modal d = Some p ->
                 currentBalance p = SolanaBalanceResponse.balance_sol b.
Proof.
  unfold Dashboard.bridge_button_enabled. intros H.
  apply andb_prop in H as [_ H]. apply negb_true_iff, orb_false_iff in H as [Hl Hb].
  destruct (balance_sol_or_0_spec d) as [Hpos _].
  destruct (Hpos Hb) as (b & Hsome & Heq & Hlt).
  exists b. repeat split; auto.
  intros p Hp. unfold Dashboard.bridge_modal in Hp.
  destruct (Dashboard.rendered d); [| discriminate].
  destruct (Dashboard.user d) as [u |]; [| discriminate].
  destruct (Dashboard.wallet_address u), (Dashboard.solana_address u); try discriminate.
  destruct (_ && _ && _); [| discriminate].
  injection Hp as <-. exact Heq.
Qed.

(** X12 at the sample dashboard with 5 SOL. *)
Lemma bridge_button_needs_a_positive_balance_witness :
  Dashboard.bridge_button_enabled Samples.dashboard = true
  /\ exists b,
       Dashboard.solanaBalance Samples.dashboard = Some b
       /\ Dashboard.solanaBalanceLoading Samples.dashboard = false
       /\ ltb (of_Z 0) (SolanaBalanceResponse.balance_sol b) = true
       /\ forall p, Dashboard.bridge_modal Samples.dashboard = Some p ->
                    currentBalance p = SolanaBalanceResponse.balance_sol b.
Proof.
  assert (H : Dashboard.bridge_button_enabled Samples.dashboard = true)
    by (vm_compute; reflexivity).
  split; [exact H |].
  exact (bridge_button_needs_a_positive_balance Samples.dashboard H).
Defined.

(** X13.  When the dashboard keeps the bridge button disabled for lack of
    funds (no refresh is running), the bridge modal it renders sends no
    quote request, whatever amount is in the field: every amount that is a
    positive number exceeds the balance it was given. *)
Theorem no_quote_without_funds d p token s :
  Dashboard.bridge_modal d = Some p ->
  Dashboard.solanaBalanceLoading d = false ->
  Dashboard.bridge_button_enabled d = false ->
  snd (handleGetQuote p token s) = None.
Proof.
  intros Hp Hl Hb.
  assert (Hfunds : leb (currentBalance p) (of_Z 0) = true).
  { unfold Dashboard.bridge_button_enabled in Hb. unfold Dashboard.bridge_modal in Hp.
    destruct (Dashboard.rendered d); [| discriminate].
    destruct (Dashboard.user d) as [u |]; [| discriminate]. cbn [mbind option_bind] in Hb.
    destruct (Dashboard.wallet_address u) as [zcash |];
      [destruct (Dashboard.solana_address u) as [solana |] |]; try discriminate.
    destruct (Dashboard.truthy (Some (Dashboard.id u))); [| discriminate].
    destruct (Dashboard.truthy (Some zcash)); [| discriminate].
    destruct (Dashboard.truthy (Some solana)); [| discriminate].
    injection Hp as <-. cbn [currentBalance].
    rewrite Hl in Hb. cbn [andb orb] in Hb. apply negb_false_iff in Hb. exact Hb. }
  unfold handleGetQuote.
  destruct (String.eqb (amount s) ""); [reflexivity |].
  destruct (isNaN _ || leb _ _) eqn:Hvalid; [reflexivity |].
  rewrite (positive_above_nonpositive _ _ Hvalid Hfunds). reflexivity.
Qed.

(** X13 at the sample dashboard before any balance has arrived, 1 SOL
    typed into the modal. *)
Lemma no_quote_without_funds_witness :
  Dashboard.bridge_modal Samples.dashboard_unfunded = Some Samples.unfunded_props
  /\ Dashboard.solanaBalanceLoading Samples.dashboard_unfunded = false
  /\ Dashboard.bridge_button_enabled Samples.dashboard_unfunded = false
  /\ snd (handleGetQuote Samples.unfunded_props (Some "token") (setAmount "1" initial))
     = None.
Proof.
  assert (H : Dashboard.bridge_modal Samples.dashboard_unfunded
              = Some Samples.unfunded_props) by (vm_compute; reflexivity).
  assert (Hb : Dashboard.bridge_button_enabled Samples.dashboard_unfunded = false)
    by (vm_compute; reflexivity).
  split; [exact H |]. split; [reflexivity |]. split; [exact Hb |].
  exact (no_quote_without_funds Samples.dashboard_unfunded Samples.unfunded_props
           (Some "token") (setAmount "1" initial) H eq_refl Hb).
Defined.

(** X14.  The dashboard renders the bridge modal only for a user with a
    non-empty Zcash wallet address, and every quote and execute request of
    that modal names this address as the recipient. *)
Theorem bridge_requests_name_the_users_wallet d p :
  Dashboard.bridge_modal d = Some p ->
  exists u w,
    Dashboard.user d = Some u
    /\ Dashboard.wallet_address u = Some w
    /\ w <> ""
    /\ userId p = Dashboard.id u
    /\ forall token s request,
         snd (handleGetQuote p token s) = Some request
         \/ snd (handleExecuteBridge p token s) = Some request ->
         Dashboard.recipient request = Some w.
Proof.
  unfold Dashboard.bridge_modal. intros Hp.
  destruct (Dashboard.rendered d); [| discriminate].
  destruct (Dashboard.user d) as [u |]; [| discriminate].
  destruct (Dashboard.wallet_address u) as [zcash |] eqn:Hw;
    [destruct (Dashboard.solana_address u) as [solana |] |]; try discriminate.
  destruct (Dashboard.truthy (Some (Dashboard.id u))); [| discriminate].
  destruct (Dashboard.truthy (Some zcash)) eqn:Hz; [| discriminate].
  destruct (Dashboard.truthy (Some solana)); [| discriminate].
  injection Hp as <-. exists u, zcash. repeat split; auto.
  - destruct zcash; [discriminate | discriminate].
  - intros token s request [H | H].
    + unfold handleGetQuote in H.
      destruct (String.eqb (amount s) ""); [discriminate |].
      destruct (isNaN _ || leb _ _); [discriminate |].
      destruct (gtb _ _); [discriminate |].
      injection H as <-. reflexivity.
    + unfold handleExecuteBridge in H.
      destruct (quote s); [| discriminate].
      destruct (String.eqb (amount s) ""); [discriminate |].
      injection H as <-. reflexivity.
Qed.

(** X14 at the sample dashboard. *)
Lemma bridge_requests_name_the_users_wallet_witness :
  Dashboard.bridge_modal Samples.dashboard = Some Samples.modal_props
  /\ exists u w,
       Dashboard.user Samples.dashboard = Some u
       /\ Dashboard.wallet_address u = Some w
       /\ w <> ""
       /\ userId Samples.modal_props = Dashboard.id u
       /\ forall token s request,
            snd (handleGetQuote Samples.modal_props token s) = Some request
            \/ snd (handleExecuteBridge Samples.modal_props token s) = Some request ->
            Dashboard.recipient request = Some w.
Proof.
  assert (H : Dashboard.bridge_modal Samples.dashboard = Some Samples.modal_props)
    by (vm_compute; reflexivity).
  split; [exact H |].
  exact (bridge_requests_name_the_users_wallet Samples.dashboard Samples.modal_props H).
Defined.

(** X15.  A balance refresh whose request fails keeps the balance that was
    shown and gives the bridge modal the props it had; if a request was
    sent (the user has an id), it is the [getBalance] request for that id,
    the failure is logged, and the loading flag is off again. *)
Theorem failed_refresh_keeps_the_balance token (o : HttpOutcome SolanaBalanceResponse.t) d :
  request_failed o ->
  let result := Dashboard.refresh token o d in
  Dashboard.solanaBalance (fst result) = Dashboard.solanaBalance d
  /\ Dashboard.bridge_modal (fst result) = Dashboard.bridge_modal d
  /\ (result = (d, [])
      \/ exists u err,
           Dashboard.user d = Some u
           /\ SolanaAPI.fetch o = inl err
           /\ Dashboard.solanaBalanceLoading (fst result) = false
           /\ snd result
              = [ Fetch (SolanaAPI.getBalance (Dashboard.id u) (accessToken_of token));
                  ConsoleError "Failed to fetch Solana balance:" err ]).
Proof.
  intros Hfail result. subst result.
  assert (exists err, SolanaAPI.fetch o = inl err) as [err Herr].
  { destruct o as [msg | status json | json]; cbn in Hfail |- *; [eauto | | tauto].
    destruct json as [[type_error | [| [| c r] | to_string]] |]; cbn; eauto. }
  unfold Dashboard.refresh, Dashboard.fetchSolanaBalance.
  destruct (Dashboard.user d) as [u |] eqn:Hu; [| cbn; auto].
  destruct (Dashboard.truthy (Some (Dashboard.id u))); [| cbn; auto].
  rewrite Herr. cbn [Dashboard.fetchSolanaBalance_resume fst snd].
  split; [reflexivity |]. split.
  - unfold Dashboard.bridge_modal, Dashboard.rendered, Dashboard.balance_sol_or_0.
    cbn. rewrite Hu. reflexivity.
  - right. exists u, err. auto.
Qed.

(** X15 at a 502 answer to a refresh on the sample dashboard. *)
Lemma failed_refresh_keeps_the_balance_witness :
  request_failed (NotOk 502 None : HttpOutcome SolanaBalanceResponse.t)
  /\ (let result := Dashboard.refresh (Some "token") (NotOk 502 None) Samples.dashboard in
      Dashboard.solanaBalance (fst result) = Dashboard.solanaBalance Samples.dashboard
      /\ Dashboard.bridge_modal (fst result) = Dashboard.bridge_modal Samples.dashboard
      /\ (result = (Samples.dashboard, [])
          \/ exists u err,
               Dashboard.user Samples.dashboard = Some u
               /\ SolanaAPI.fetch (NotOk 502 None : HttpOutcome SolanaBalanceResponse.t)
                  = inl err
               /\ Dashboard.solanaBalanceLoading (fst result) = false
               /\ snd result
                  = [ Fetch (SolanaAPI.getBalance (Dashboard.id u)
                               (accessToken_of (Some "token")));
                      ConsoleError "Failed to fetch Solana balance:" err ])).
Proof.
  split; [exact I |].
  exact (failed_refresh_keeps_the_balance (Some "token") (NotOk 502 None)
           Samples.dashboard I).
Defined.

(** ** Every table of the migrations

    What the constraints checked by [INSERT] and [UPDATE] make true of the
    rows of any table. *)

Lemma check_row_conforms S t db others r :
  Ledger.check_row S t db others r = true -> Ledger.conforms t r.
Proof.
  unfold Ledger.check_row. intros H. apply andb_prop in H as [Hcols _].
  rewrite forallb_forall in Hcols. apply Forall_forall. intros c Hc.
  apply list_elem_of_In in Hc. specialize (Hcols c Hc).
  split; [| intros Hn; exact (check_column_not_null db r c Hcols Hn)].
  unfold Ledger.check_column in Hcols.
  apply andb_prop in Hcols as [Hcols _]. apply andb_prop in Hcols as [Hty _]. exact Hty.
Qed.

Lemma check_row_unique S t db others r key :
  Ledger.check_row S t db others r = true ->
  In key (Ledger.unique_keys S t) ->
  Forall (fun r' => Ledger.collide key r r' = false) others.
Proof.
  unfold Ledger.check_row. intros H Hkey. apply andb_prop in H as [_ Hkeys].
  rewrite forallb_forall in Hkeys. specialize (Hkeys key Hkey).
  rewrite forallb_forall in Hkeys. apply Forall_forall. intros r' Hr'.
  apply list_elem_of_In in Hr'. apply negb_true_iff. auto.
Qed.

Lemma collide_sym key r r' :
  Ledger.collide key r r' = false -> Ledger.collide key r' r = false.
Proof.
  intros H. apply not_true_is_false. intros H'. apply not_true_iff_false in H. apply H.
  unfold Ledger.collide in *. apply andb_prop in H' as [Hnull Heq].
  apply bool_decide_eq_true in Heq. apply andb_true_intro. split.
  - rewrite forallb_forall in Hnull |- *. intros c Hc. specialize (Hnull c Hc).
    assert (Hget : Ledger.get r c = Ledger.get r' c).
    { clear Hnull H. revert Hc Heq. induction key as [| c' key IH]; intros Hc Heq;
        [destruct Hc |].
      cbn [map] in Heq. injection Heq as H1 H2.
      destruct Hc as [-> | Hc]; [symmetry; exact H1 | exact (IH Hc H2)]. }
    rewrite Hget. exact Hnull.
  - apply bool_decide_eq_true. auto.
Qed.

Lemma unique_on_snoc key rows r :
  Ledger.unique_on key rows ->
  Forall (fun r' => Ledger.collide key r r' = false) rows ->
  Ledger.unique_on key (rows ++ [r]).
Proof.
  intros Hrows Hnew i j r1 r2 Hij H1 H2.
  rewrite Forall_lookup in Hnew.
  apply lookup_snoc_Some in H1 as [[Hi H1] | [Hi <-]];
    apply lookup_snoc_Some in H2 as [[Hj H2] | [Hj <-]].
  - eapply Hrows; eauto.
  - apply collide_sym. eapply Hnew; eauto.
  - eapply Hnew; eauto.
  - lia.
Qed.

(** What the statements keep true of any table: every row Ledger.conforms to the
    column definitions, and no two rows collide on a unique key. *)
Lemma history_invariant S name t (db : Ledger.database) :
  Ledger.find_table S name = Some t ->
  Ledger.history S name db ->
  Forall (Ledger.conforms t) (Ledger.rows_of db name)
  /\ forall key, In key (Ledger.unique_keys S t) -> Ledger.unique_on key (Ledger.rows_of db name).
Proof.
  intros Ht.
  induction 1 as [db Hempty | db e supplied db' _ IH Hinsert
                 | db e set where_ db' _ IH Hupdate | db db' _ IH Hsame].
  - rewrite Hempty. split; [constructor |].
    intros key _ i j r1 r2 _ H1. rewrite lookup_nil in H1. discriminate.
  - destruct IH as [Hconf Huniq].
    unfold Ledger.insert in Hinsert. rewrite Ht in Hinsert. cbv zeta in Hinsert.
    destruct (Ledger.known_columns _ _) in Hinsert; [| discriminate].
    cbn [andb] in Hinsert.
    destruct (Ledger.check_row _ _ _ _ _) eqn:Hcheck in Hinsert; [| discriminate].
    injection Hinsert as <-. rewrite rows_of_insert. split.
    + apply Forall_app. split; [exact Hconf |].
      repeat constructor. exact (check_row_conforms _ _ _ _ _ Hcheck).
    + intros key Hkey. apply unique_on_snoc; [auto |].
      exact (check_row_unique _ _ _ _ _ key Hcheck Hkey).
  - destruct IH as [Hconf Huniq].
    unfold Ledger.update in Hupdate. rewrite Ht in Hupdate. cbv zeta in Hupdate.
    destruct (Ledger.known_columns _ _) in Hupdate; [| discriminate].
    cbn [andb] in Hupdate.
    destruct (forallb _ _) eqn:Hchecks in Hupdate; [| discriminate].
    injection Hupdate as <-. rewrite rows_of_insert.
    remember (Ledger.rows_of db name) as rows eqn:Hrows. clear Hrows.
    set (f := fun r : Ledger.row =>
                if where_ r then Ledger.update_row S e name set r else r) in *.
    assert (Hselected : forall i r, rows !! i = Some r -> where_ r = true ->
              Ledger.check_row S t db (delete i (f <$> rows)) (f r) = true).
    { intros i r Hi Hw.
      pose proof (forallb_imap_lookup _ _ Hchecks i r Hi) as Hc. cbv beta in Hc.
      rewrite Hw in Hc. cbn [negb orb] in Hc.
      rewrite list_lookup_fmap, Hi in Hc. exact Hc. }
    assert (Hkept : forall r, where_ r = false -> f r = r).
    { intros r Hw. unfold f. rewrite Hw. reflexivity. }
    split.
    + apply Forall_lookup. intros i r' Hi.
      apply list_lookup_fmap_Some in Hi as (r & -> & Hi).
      destruct (where_ r) eqn:W.
      * exact (check_row_conforms _ _ _ _ _ (Hselected i r Hi W)).
      * rewrite Hkept by assumption. rewrite Forall_lookup in Hconf. eapply Hconf; eauto.
    + intros key Hkey i j r1' r2' Hij H1 H2.
      apply list_lookup_fmap_Some in H1 as (r1 & -> & H1).
      apply list_lookup_fmap_Some in H2 as (r2 & -> & H2).
      destruct (where_ r1) eqn:W1.
      * pose proof (check_row_unique _ _ _ _ _ key (Hselected i r1 H1 W1) Hkey) as Hothers.
        rewrite Forall_forall in Hothers. apply Hothers.
        apply (elem_of_delete_other _ i j); [exact Hij |].
        rewrite list_lookup_fmap, H2. reflexivity.
      * destruct (where_ r2) eqn:W2.
        -- pose proof (check_row_unique _ _ _ _ _ key (Hselected j r2 H2 W2) Hkey) as Hothers.
           rewrite Forall_forall in Hothers. apply collide_sym. apply Hothers.
           apply (elem_of_delete_other _ j i); [congruence |].
           rewrite list_lookup_fmap, H1. reflexivity.
        -- rewrite !Hkept by assumption. eapply Huniq; eauto.
  - rewrite Hsame. exact IH.
Qed.

Lemma conforms_present t c rows :
  Forall (Ledger.conforms t) rows ->
  In c (Ledger.columns t) ->
  Ledger.not_null c || Ledger.primary_key c = true ->
  Ledger.present (Ledger.col_name c) rows.
Proof.
  intros Hconf Hc Hn. unfold Ledger.present.
  eapply Forall_impl; [exact Hconf |]. intros r Hr.
  unfold Ledger.conforms in Hr. rewrite Forall_forall in Hr.
  apply list_elem_of_In in Hc. destruct (Hr c Hc) as [_ H]. auto.
Qed.

Lemma conforms_typed t c rows :
  Forall (Ledger.conforms t) rows ->
  In c (Ledger.columns t) ->
  Forall (fun r => Ledger.has_type (Ledger.col_type c) (Ledger.get r (Ledger.col_name c)) = true)
    rows.
Proof.
  intros Hconf Hc.
  eapply Forall_impl; [exact Hconf |]. intros r Hr.
  unfold Ledger.conforms in Hr. rewrite Forall_forall in Hr.
  apply list_elem_of_In in Hc. destruct (Hr c Hc) as [H _]. auto.
Qed.

Lemma unique_on_distinct c rows :
  Ledger.unique_on [c] rows -> Ledger.present c rows -> Ledger.distinct_on c rows.
Proof.
  intros Hu Hp i j r1 r2 Hij H1 H2 Heq.
  specialize (Hu i j r1 r2 Hij H1 H2).
  unfold Ledger.present in Hp. rewrite Forall_lookup in Hp. specialize (Hp i r1 H1).
  unfold Ledger.collide in Hu. cbn [forallb map] in Hu.
  rewrite (bool_decide_eq_false_2 _ Hp), Heq in Hu.
  rewrite bool_decide_eq_true_2 in Hu by reflexivity. discriminate.
Qed.

(** The sample Solana wallet, the change of its keypair, and the sample
    Zcash wallet. *)
Lemma insert_unfold S e name t (supplied : Ledger.row) (db : Ledger.database) :
  Ledger.find_table S name = Some t ->
  Ledger.insert S e name supplied db
  = if Ledger.known_columns t (map fst (map_to_list supplied))
       && Ledger.check_row S t db (Ledger.rows_of db name) (Ledger.with_defaults e t supplied)
    then Some (<[name := (Ledger.rows_of db name
                          ++ [Ledger.with_defaults e t supplied])%list]> db)
    else None.
Proof. unfold Ledger.insert. intros ->. reflexivity. Qed.

Lemma solana_wallets_found :
  Ledger.find_table Ledger.migration_005 "solana_wallets" = Some Ledger.solana_wallets.
Proof. reflexivity. Qed.

Lemma solana_wallets_keys :
  Ledger.unique_keys Ledger.migration_005 Ledger.solana_wallets
  = [["id"]; ["public_key"]; ["user_id"]].
Proof. reflexivity. Qed.

Lemma sample_solana_wallet_insert :
  Ledger.insert Ledger.migration_005 Samples.at_100 "solana_wallets"
    Samples.solana_wallet_of_7 Samples.users_only
  = Some Samples.solana_wallets_one.
Proof.
  rewrite (insert_unfold _ _ _ _ _ _ solana_wallets_found).
  replace (Ledger.known_columns _ _ && Ledger.check_row _ _ _ _ _) with true
    by (vm_compute; reflexivity).
  replace (Ledger.rows_of Samples.users_only "solana_wallets") with (@nil Ledger.row)
    by (vm_compute; reflexivity).
  reflexivity.
Qed.

Lemma sample_solana_wallets_history :
  Ledger.history Ledger.migration_005 "solana_wallets" Samples.solana_wallets_one.
Proof.
  eapply Ledger.history_insert; [| exact sample_solana_wallet_insert].
  apply Ledger.history_empty. vm_compute. reflexivity.
Qed.

(** X16.  One Solana wallet per user: in every state of [solana_wallets]
    reached by [INSERT] and [UPDATE] statements no two rows carry the same
    [user_id], the same [public_key] or the same [id], and every row has a
    [user_id], a [public_key] and a keypair. *)
Theorem one_solana_wallet_per_user (db : Ledger.database) :
  Ledger.history Ledger.migration_005 "solana_wallets" db ->
  Ledger.distinct_on "user_id" (Ledger.rows_of db "solana_wallets")
  /\ Ledger.distinct_on "public_key" (Ledger.rows_of db "solana_wallets")
  /\ Ledger.distinct_on "id" (Ledger.rows_of db "solana_wallets")
  /\ Ledger.present "user_id" (Ledger.rows_of db "solana_wallets")
  /\ Ledger.present "public_key" (Ledger.rows_of db "solana_wallets")
  /\ Ledger.present "encrypted_keypair" (Ledger.rows_of db "solana_wallets").
Proof.
  intros H.
  destruct (history_invariant _ _ _ db solana_wallets_found H) as [Hconf Huniq].
  rewrite solana_wallets_keys in Huniq.
  assert (Hp : forall c, In c (Ledger.columns Ledger.solana_wallets) ->
                 Ledger.not_null c || Ledger.primary_key c = true ->
                 Ledger.present (Ledger.col_name c) (Ledger.rows_of db "solana_wallets"))
    by (intros c; apply conforms_present; exact Hconf).
  assert (Hid := Hp (Ledger.DEFAULT Ledger.Gen_random_uuid
                       (Ledger.PRIMARY_KEY (Ledger.col "id" Ledger.UUID)))
                   ltac:(cbn; auto) eq_refl).
  assert (Huser := Hp (Ledger.REFERENCES "users" "id"
                         (Ledger.NOT_NULL (Ledger.col "user_id" Ledger.UUID)))
                     ltac:(cbn; auto) eq_refl).
  assert (Hkeypair := Hp (Ledger.NOT_NULL (Ledger.col "encrypted_keypair" Ledger.BYTEA))
                        ltac:(cbn; auto) eq_refl).
  assert (Hkey := Hp (Ledger.UNIQUE (Ledger.NOT_NULL (Ledger.col "public_key" Ledger.TEXT)))
                    ltac:(cbn; auto) eq_refl).
  cbn [Ledger.col_name Ledger.DEFAULT Ledger.PRIMARY_KEY Ledger.REFERENCES Ledger.NOT_NULL
         Ledger.UNIQUE Ledger.col] in Hid, Huser, Hkeypair, Hkey.
  repeat split; try assumption; apply unique_on_distinct; try assumption;
    apply Huniq; cbn; auto.
Qed.

(** X16 at the table that holds the sample wallet. *)
Lemma one_solana_wallet_per_user_witness :
  Ledger.history Ledger.migration_005 "solana_wallets" Samples.solana_wallets_one
  /\ Ledger.distinct_on "user_id" (Ledger.rows_of Samples.solana_wallets_one "solana_wallets")
  /\ Ledger.distinct_on "public_key"
       (Ledger.rows_of Samples.solana_wallets_one "solana_wallets")
  /\ Ledger.distinct_on "id" (Ledger.rows_of Samples.solana_wallets_one "solana_wallets")
  /\ Ledger.present "user_id" (Ledger.rows_of Samples.solana_wallets_one "solana_wallets")
  /\ Ledger.present "public_key"
       (Ledger.rows_of Samples.solana_wallets_one "solana_wallets")
  /\ Ledger.present "encrypted_keypair"
       (Ledger.rows_of Samples.solana_wallets_one "solana_wallets").
Proof.
  split; [exact sample_solana_wallets_history |].
  exact (one_solana_wallet_per_user Samples.solana_wallets_one
           sample_solana_wallets_history).
Defined.

Lemma wallets_found :
  Ledger.find_table Ledger.wallets_migration "wallets" = Some Ledger.wallets.
Proof. reflexivity. Qed.

Lemma wallets_keys :
  Ledger.unique_keys Ledger.wallets_migration Ledger.wallets = [["id"]; ["user_id"]].
Proof. reflexivity. Qed.

Lemma sample_wallet_insert :
  Ledger.insert Ledger.wallets_migration Samples.at_100 "wallets"
    Samples.zcash_wallet_of_7 Samples.users_only
  = Some Samples.wallets_one.
Proof.
  rewrite (insert_unfold _ _ _ _ _ _ wallets_found).
  replace (Ledger.known_columns _ _ && Ledger.check_row _ _ _ _ _) with true
    by (vm_compute; reflexivity).
  replace (Ledger.rows_of Samples.users_only "wallets") with (@nil Ledger.row)
    by (vm_compute; reflexivity).
  reflexivity.
Qed.

Lemma sample_wallets_history :
  Ledger.history Ledger.wallets_migration "wallets" Samples.wallets_one.
Proof.
  eapply Ledger.history_insert; [| exact sample_wallet_insert].
  apply Ledger.history_empty. vm_compute. reflexivity.
Qed.

(** X17.  One Zcash wallet per user: the unique index [idx_wallets_user_id]
    makes [user_id] a key of [wallets].  In every state of the table
    reached by [INSERT] and [UPDATE] statements no two rows carry the same
    [user_id] or the same [id], and every row has a [user_id] and an
    [address]. *)
Theorem one_wallet_per_user (db : Ledger.database) :
  Ledger.history Ledger.wallets_migration "wallets" db ->
  Ledger.distinct_on "user_id" (Ledger.rows_of db "wallets")
  /\ Ledger.distinct_on "id" (Ledger.rows_of db "wallets")
  /\ Ledger.present "user_id" (Ledger.rows_of db "wallets")
  /\ Ledger.present "address" (Ledger.rows_of db "wallets").
Proof.
  intros H.
  destruct (history_invariant _ _ _ db wallets_found H) as [Hconf Huniq].
  rewrite wallets_keys in Huniq.
  assert (Hp : forall c, In c (Ledger.columns Ledger.wallets) ->
                 Ledger.not_null c || Ledger.primary_key c = true ->
                 Ledger.present (Ledger.col_name c) (Ledger.rows_of db "wallets"))
    by (intros c; apply conforms_present; exact Hconf).
  assert (Hid := Hp (Ledger.DEFAULT Ledger.Gen_random_uuid
                       (Ledger.PRIMARY_KEY (Ledger.col "id" Ledger.UUID)))
                   ltac:(cbn; auto) eq_refl).
  assert (Huser := Hp (Ledger.REFERENCES "users" "id"
                         (Ledger.NOT_NULL (Ledger.col "user_id" Ledger.UUID)))
                     ltac:(cbn; auto) eq_refl).
  assert (Haddress := Hp (Ledger.NOT_NULL (Ledger.col "address" Ledger.TEXT))
                        ltac:(cbn; auto 10) eq_refl).
  cbn [Ledger.col_name Ledger.DEFAULT Ledger.PRIMARY_KEY Ledger.REFERENCES Ledger.NOT_NULL
         Ledger.UNIQUE Ledger.col] in Hid, Huser, Haddress.
  repeat split; try assumption; apply unique_on_distinct; try assumption;
    apply Huniq; cbn; auto.
Qed.

(** X17 at the table that holds the sample wallet. *)
Lemma one_wallet_per_user_witness :
  Ledger.history Ledger.wallets_migration "wallets" Samples.wallets_one
  /\ Ledger.distinct_on "user_id" (Ledger.rows_of Samples.wallets_one "wallets")
  /\ Ledger.distinct_on "id" (Ledger.rows_of Samples.wallets_one "wallets")
  /\ Ledger.present "user_id" (Ledger.rows_of Samples.wallets_one "wallets")
  /\ Ledger.present "address" (Ledger.rows_of Samples.wallets_one "wallets").
Proof.
  split; [exact sample_wallets_history |].
  exact (one_wallet_per_user Samples.wallets_one sample_wallets_history).
Defined.

(** ** The rows of [bridge_transactions] *)


Lemma reachable_history (db : Ledger.database) :
  Ledger.reachable db -> Ledger.history Ledger.migration_005 "bridge_transactions" db.
Proof.
  induction 1.
  - apply Ledger.history_empty. assumption.
  - eapply Ledger.history_insert; eauto.
  - eapply Ledger.history_update; eauto.
Qed.

Lemma typed_not_null_uuid v :
  Ledger.has_type Ledger.UUID v = true -> v <> Ledger.NULL -> exists u, v = Ledger.Uuid u.
Proof. destruct v; cbn; intros; try discriminate; try congruence; eauto. Qed.

Lemma typed_not_null_text v :
  Ledger.has_type Ledger.TEXT v = true -> v <> Ledger.NULL -> exists s, v = Ledger.Text s.
Proof. destruct v; cbn; intros; try discriminate; try congruence; eauto. Qed.

Lemma typed_not_null_timestamptz v :
  Ledger.has_type Ledger.TIMESTAMPTZ v = true -> v <> Ledger.NULL ->
  exists t, v = Ledger.Timestamptz t.
Proof. destruct v; cbn; intros; try discriminate; try congruence; eauto. Qed.

Lemma typed_not_null_bigint v :
  Ledger.has_type Ledger.BIGINT v = true -> v <> Ledger.NULL ->
  exists n, v = Ledger.Bigint n /\ (- 2 ^ 63 <= n < 2 ^ 63)%Z.
Proof.
  destruct v; cbn -[Z.pow]; intros H Hn; try discriminate; try congruence.
  apply andb_prop in H as [H1 H2]. apply Z.leb_le in H1. apply Z.ltb_lt in H2. eauto.
Qed.

Lemma conforms_complete r : Ledger.conforms Ledger.bridge_transactions r -> Ledger.complete r.
Proof.
  unfold Ledger.conforms. cbn [Ledger.columns Ledger.bridge_transactions]. intros H.
  repeat match type of H with
         | Forall _ (_ :: _) => apply Forall_cons in H as [? H]
         end.
  repeat match goal with
         | H : _ /\ (_ -> _) |- _ => destruct H as [? ?]
         end.
  cbn [Ledger.col_name Ledger.col_type Ledger.not_null Ledger.primary_key Ledger.DEFAULT
         Ledger.PRIMARY_KEY Ledger.REFERENCES Ledger.NOT_NULL Ledger.UNIQUE Ledger.col orb] in *.
  unfold Ledger.complete.
  repeat split;
    first [ apply typed_not_null_uuid | apply typed_not_null_text
          | apply typed_not_null_bigint | apply typed_not_null_timestamptz ];
    auto.
Qed.

(** X18.  In every state of the ledger every [bridge_transactions] row is
    complete: [id] and [user_id] are UUIDs, [deposit_address], [status],
    [refund_address] and [recipient_address] are texts,
    [amount_sol_lamports] is an integer of 64 bits, and [created_at] and
    [updated_at] are timestamps; none of them is [NULL]. *)
Theorem stored_bridge_rows_are_complete (db : Ledger.database) :
  Ledger.reachable db ->
  Forall Ledger.complete (Ledger.rows_of db "bridge_transactions").
Proof.
  intros H. apply reachable_history in H.
  destruct (history_invariant _ _ _ db bridge_transactions_found H) as [Hconf _].
  eapply Forall_impl; [exact Hconf |]. exact conforms_complete.
Qed.

(** X18 at the sample ledger of two rows. *)
Lemma stored_bridge_rows_are_complete_witness :
  Ledger.reachable Samples.ledger_two
  /\ Forall Ledger.complete (Ledger.rows_of Samples.ledger_two "bridge_transactions").
Proof.
  split; [exact sample_reachable |].
  exact (stored_bridge_rows_are_complete Samples.ledger_two sample_reachable).
Defined.

(** *** What [INSERT] stores *)

Lemma with_defaults_lookup e t (supplied : Ledger.row) c :
  NoDup (map Ledger.col_name (Ledger.columns t)) ->
  In c (Ledger.columns t) ->
  Ledger.get (Ledger.with_defaults e t supplied) (Ledger.col_name c)
  = match supplied !! Ledger.col_name c with
    | Some v => v
    | None => from_option (Ledger.eval e) Ledger.NULL (Ledger.default_expr c)
    end.
Proof.
  intros Hnodup Hc. unfold Ledger.get, Ledger.with_defaults.
  erewrite elem_of_list_to_map_1; [reflexivity | |].
  - rewrite <- list_fmap_compose. exact Hnodup.
  - apply list_elem_of_In, in_map_iff. exists c. split; [reflexivity | exact Hc].
Qed.

Lemma with_defaults_other e t (supplied : Ledger.row) name :
  ~ In name (map Ledger.col_name (Ledger.columns t)) ->
  Ledger.get (Ledger.with_defaults e t supplied) name = Ledger.NULL.
Proof.
  intros Hname. unfold Ledger.get, Ledger.with_defaults.
  rewrite not_elem_of_list_to_map_1; [reflexivity |].
  rewrite <- list_fmap_compose. intros H. apply Hname, list_elem_of_In. exact H.
Qed.

Lemma bridge_transactions_columns_distinct :
  NoDup (map Ledger.col_name (Ledger.columns Ledger.bridge_transactions)).
Proof. refine (bool_decide_unpack _ _). vm_compute. exact I. Qed.

Lemma stored_value e (supplied : Ledger.row) c name :
  In c (Ledger.columns Ledger.bridge_transactions) ->
  Ledger.col_name c = name ->
  Ledger.get (Ledger.with_defaults e Ledger.bridge_transactions supplied) name
  = match supplied !! name with
    | Some v => v
    | None => from_option (Ledger.eval e) Ledger.NULL (Ledger.default_expr c)
    end.
Proof.
  intros Hc <-. apply with_defaults_lookup; [exact bridge_transactions_columns_distinct | exact Hc].
Qed.

Lemma known_columns_supplied t (supplied : Ledger.row) c v :
  Ledger.known_columns t (map fst (map_to_list supplied)) = true ->
  supplied !! c = Some v ->
  exists c0, In c0 (Ledger.columns t) /\ Ledger.col_name c0 = c.
Proof.
  unfold Ledger.known_columns. rewrite forallb_forall. intros Hknown Hc.
  specialize (Hknown c).
  assert (Hin : In c (map fst (map_to_list supplied))).
  { apply in_map_iff. exists (c, v). split; [reflexivity |].
    apply list_elem_of_In, elem_of_map_to_list. exact Hc. }
  apply Hknown, existsb_exists in Hin as (n & Hn & Heq).
  apply String.eqb_eq in Heq. subst n.
  apply in_map_iff in Hn as (c0 & Hname & Hc0). eauto.
Qed.

Lemma rows_of_insert_ne name name' rows (db : Ledger.database) :
  name' <> name -> Ledger.rows_of (<[name := rows]> db) name' = Ledger.rows_of db name'.
Proof. intros Hne. unfold Ledger.rows_of. rewrite lookup_insert_ne by congruence. reflexivity. Qed.

(** X19.  An [INSERT] into [bridge_transactions] that succeeds appends
    exactly one row and leaves the other tables alone.  The row holds every
    value the statement supplied; where the statement names no value, [id]
    is the fresh UUID, [status] is [PENDING], [created_at] and [updated_at]
    are the statement's [NOW()], and every other column is [NULL]. *)
Theorem insert_stores_the_values_and_the_defaults e (supplied : Ledger.row)
    (db db' : Ledger.database) :
  Ledger.insert Ledger.migration_005 e "bridge_transactions" supplied db = Some db' ->
  exists r,
    Ledger.rows_of db' "bridge_transactions"
    = (Ledger.rows_of db "bridge_transactions" ++ [r])%list
    /\ (forall c v, supplied !! c = Some v -> Ledger.get r c = v)
    /\ (supplied !! "id" = None -> Ledger.get r "id" = Ledger.Uuid (Ledger.random_uuid e))
    /\ (supplied !! "status" = None -> Ledger.get r "status" = Ledger.Text "PENDING")
    /\ (supplied !! "created_at" = None ->
        Ledger.get r "created_at" = Ledger.Timestamptz (Ledger.now e))
    /\ (supplied !! "updated_at" = None ->
        Ledger.get r "updated_at" = Ledger.Timestamptz (Ledger.now e))
    /\ (forall c, supplied !! c = None ->
                  ~ In c ["id"; "status"; "created_at"; "updated_at"] ->
                  Ledger.get r c = Ledger.NULL)
    /\ (forall name, name <> "bridge_transactions" ->
                     Ledger.rows_of db' name = Ledger.rows_of db name).
Proof.
  rewrite insert_bridge_transactions.
  destruct (Ledger.known_columns _ _) eqn:Hknown; [| discriminate]. cbn [andb].
  destruct (Ledger.check_row _ _ _ _ _); [| discriminate].
  intros [= <-]. eexists. split; [apply rows_of_insert |].
  pose proof (with_defaults_lookup e Ledger.bridge_transactions supplied) as Hget.
  specialize (fun c => Hget c bridge_transactions_columns_distinct).
  split; [| split; [| split; [| split; [| split; [| split]]]]].
  - intros c v Hc.
    destruct (known_columns_supplied _ _ c v Hknown Hc) as (c0 & Hc0 & <-).
    rewrite (Hget c0 Hc0), Hc. reflexivity.
  - intros Hnone.
    pose proof (Hget (Ledger.DEFAULT Ledger.Gen_random_uuid
                        (Ledger.PRIMARY_KEY (Ledger.col "id" Ledger.UUID)))
                  ltac:(cbn; auto)) as H.
    cbn [Ledger.col_name Ledger.default_expr Ledger.DEFAULT Ledger.PRIMARY_KEY
           Ledger.NOT_NULL Ledger.col from_option Ledger.eval] in H.
    rewrite H, Hnone. reflexivity.
  - intros Hnone.
    pose proof (Hget (Ledger.DEFAULT (Ledger.Literal (Ledger.Text "PENDING"))
                        (Ledger.NOT_NULL (Ledger.col "status" Ledger.TEXT)))
                  ltac:(cbn; auto 10)) as H.
    cbn [Ledger.col_name Ledger.default_expr Ledger.DEFAULT Ledger.PRIMARY_KEY
           Ledger.NOT_NULL Ledger.col from_option Ledger.eval] in H.
    rewrite H, Hnone. reflexivity.
  - intros Hnone.
    pose proof (Hget (Ledger.DEFAULT Ledger.Now
                        (Ledger.NOT_NULL (Ledger.col "created_at" Ledger.TIMESTAMPTZ)))
                  ltac:(cbn; auto 20)) as H.
    cbn [Ledger.col_name Ledger.default_expr Ledger.DEFAULT Ledger.PRIMARY_KEY
           Ledger.NOT_NULL Ledger.col from_option Ledger.eval] in H.
    rewrite H, Hnone. reflexivity.
  - intros Hnone.
    pose proof (Hget (Ledger.DEFAULT Ledger.Now
                        (Ledger.NOT_NULL (Ledger.col "updated_at" Ledger.TIMESTAMPTZ)))
                  ltac:(cbn; auto 20)) as H.
    cbn [Ledger.col_name Ledger.default_expr Ledger.DEFAULT Ledger.PRIMARY_KEY
           Ledger.NOT_NULL Ledger.col from_option Ledger.eval] in H.
    rewrite H, Hnone. reflexivity.
  - intros c Hnone Hc.
    destruct (in_dec String.string_dec c
                (map Ledger.col_name (Ledger.columns Ledger.bridge_transactions)))
      as [Hin | Hout]; [| apply with_defaults_other; exact Hout].
    apply in_map_iff in Hin as (c0 & <- & Hc0). rewrite (Hget c0 Hc0), Hnone.
    cbn [Ledger.columns Ledger.bridge_transactions In] in Hc0.
    repeat destruct Hc0 as [<- | Hc0]; try reflexivity; try (destruct Hc0);
      exfalso; apply Hc; cbn; auto.
  - intros name Hne. apply rows_of_insert_ne. exact Hne.
Qed.

(** X19 at the insert of the first sample attempt. *)
Lemma insert_stores_the_values_and_the_defaults_witness :
  Ledger.insert Ledger.migration_005 Samples.at_100 "bridge_transactions"
    Samples.first_attempt Samples.users_only = Some Samples.ledger_one
  /\ exists r,
       Ledger.rows_of Samples.ledger_one "bridge_transactions"
       = (Ledger.rows_of Samples.users_only "bridge_transactions" ++ [r])%list
       /\ (forall c v, Samples.first_attempt !! c = Some v -> Ledger.get r c = v)
       /\ (Samples.first_attempt !! "id" = None ->
           Ledger.get r "id" = Ledger.Uuid (Ledger.random_uuid Samples.at_100))
       /\ (Samples.first_attempt !! "status" = None ->
           Ledger.get r "status" = Ledger.Text "PENDING")
       /\ (Samples.first_attempt !! "created_at" = None ->
           Ledger.get r "created_at" = Ledger.Timestamptz (Ledger.now Samples.at_100))
       /\ (Samples.first_attempt !! "updated_at" = None ->
           Ledger.get r "updated_at" = Ledger.Timestamptz (Ledger.now Samples.at_100))
       /\ (forall c, Samples.first_attempt !! c = None ->
                     ~ In c ["id"; "status"; "created_at"; "updated_at"] ->
                     Ledger.get r c = Ledger.NULL)
       /\ (forall name, name <> "bridge_transactions" ->
                        Ledger.rows_of Samples.ledger_one name
                        = Ledger.rows_of Samples.users_only name).
Proof.
  split; [exact sample_first_insert |].
  exact (insert_stores_the_values_and_the_defaults Samples.at_100 Samples.first_attempt
           Samples.users_only Samples.ledger_one sample_first_insert).
Defined.

(** *** What [INSERT] refuses *)

Lemma check_row_column S t db others r c :
  In c (Ledger.columns t) ->
  Ledger.check_column db r c = false ->
  Ledger.check_row S t db others r = false.
Proof.
  intros Hc Hfalse. unfold Ledger.check_row.
  apply andb_false_intro1. apply not_true_is_false. intros Hall.
  rewrite forallb_forall in Hall. rewrite (Hall c Hc) in Hfalse. discriminate.
Qed.

Lemma check_column_null db r c :
  Ledger.not_null c || Ledger.primary_key c = true ->
  Ledger.get r (Ledger.col_name c) = Ledger.NULL ->
  Ledger.check_column db r c = false.
Proof.
  intros Hn Hnull. unfold Ledger.check_column. rewrite Hn, Hnull.
  rewrite bool_decide_eq_true_2 by reflexivity. cbn. reflexivity.
Qed.

Lemma insert_null_fails e (supplied : Ledger.row) (db : Ledger.database) c :
  In c (Ledger.columns Ledger.bridge_transactions) ->
  Ledger.not_null c || Ledger.primary_key c = true ->
  Ledger.get (Ledger.with_defaults e Ledger.bridge_transactions supplied) (Ledger.col_name c)
  = Ledger.NULL ->
  Ledger.insert Ledger.migration_005 e "bridge_transactions" supplied db = None.
Proof.
  intros Hc Hn Hnull. rewrite insert_bridge_transactions.
  rewrite (check_row_column _ _ _ _ _ c Hc (check_column_null _ _ _ Hn Hnull)).
  rewrite andb_false_r. reflexivity.
Qed.

(** X20.  An [INSERT] into [bridge_transactions] fails when the statement
    leaves out, or gives as [NULL], one of [user_id], [deposit_address],
    [amount_sol_lamports], [refund_address] and [recipient_address], which
    have no default; and when it gives [NULL] for [id], [status],
    [created_at] or [updated_at], whose default then does not apply. *)
Theorem insert_needs_every_required_column e (supplied : Ledger.row)
    (db : Ledger.database) c :
  (In c ["user_id"; "deposit_address"; "amount_sol_lamports"; "refund_address";
         "recipient_address"]
   /\ Ledger.get supplied c = Ledger.NULL)
  \/ (In c ["id"; "status"; "created_at"; "updated_at"]
      /\ supplied !! c = Some Ledger.NULL) ->
  Ledger.insert Ledger.migration_005 e "bridge_transactions" supplied db = None.
Proof.
  pose proof (with_defaults_lookup e Ledger.bridge_transactions supplied) as Hget.
  specialize (fun c => Hget c bridge_transactions_columns_distinct).
  assert (Hcol : forall c0, In c0 (Ledger.columns Ledger.bridge_transactions) ->
            Ledger.not_null c0 || Ledger.primary_key c0 = true ->
            (Ledger.default_expr c0 = None /\ Ledger.get supplied (Ledger.col_name c0) = Ledger.NULL)
            \/ supplied !! Ledger.col_name c0 = Some Ledger.NULL ->
            Ledger.insert Ledger.migration_005 e "bridge_transactions" supplied db = None).
  { intros c0 Hc0 Hn Hnull. apply (insert_null_fails e supplied db c0 Hc0 Hn).
    rewrite (Hget c0 Hc0).
    destruct Hnull as [[Hdefault Hnull] | Hnull].
    - unfold Ledger.get in Hnull. rewrite Hdefault.
      destruct (supplied !! Ledger.col_name c0); [exact Hnull | reflexivity].
    - rewrite Hnull. reflexivity. }
  intros [[Hc Hnull] | [Hc Hnull]]; cbn [In] in Hc;
    repeat destruct Hc as [<- | Hc]; try destruct Hc.
  - apply (Hcol (Ledger.REFERENCES "users" "id"
                   (Ledger.NOT_NULL (Ledger.col "user_id" Ledger.UUID))));
      [cbn; auto 20 | reflexivity | left; auto].
  - apply (Hcol (Ledger.NOT_NULL (Ledger.col "deposit_address" Ledger.TEXT)));
      [cbn; auto 20 | reflexivity | left; auto].
  - apply (Hcol (Ledger.NOT_NULL (Ledger.col "amount_sol_lamports" Ledger.BIGINT)));
      [cbn; auto 20 | reflexivity | left; auto].
  - apply (Hcol (Ledger.NOT_NULL (Ledger.col "refund_address" Ledger.TEXT)));
      [cbn; auto 20 | reflexivity | left; auto].
  - apply (Hcol (Ledger.NOT_NULL (Ledger.col "recipient_address" Ledger.TEXT)));
      [cbn; auto 20 | reflexivity | left; auto].
  - apply (Hcol (Ledger.DEFAULT Ledger.Gen_random_uuid
                   (Ledger.PRIMARY_KEY (Ledger.col "id" Ledger.UUID))));
      [cbn; auto 20 | reflexivity | right; auto].
  - apply (Hcol (Ledger.DEFAULT (Ledger.Literal (Ledger.Text "PENDING"))
                   (Ledger.NOT_NULL (Ledger.col "status" Ledger.TEXT))));
      [cbn; auto 20 | reflexivity | right; auto].
  - apply (Hcol (Ledger.DEFAULT Ledger.Now
                   (Ledger.NOT_NULL (Ledger.col "created_at" Ledger.TIMESTAMPTZ))));
      [cbn; auto 20 | reflexivity | right; auto].
  - apply (Hcol (Ledger.DEFAULT Ledger.Now
                   (Ledger.NOT_NULL (Ledger.col "updated_at" Ledger.TIMESTAMPTZ))));
      [cbn; auto 20 | reflexivity | right; auto].
Qed.

(** X20 at an attempt without a deposit address. *)
Lemma insert_needs_every_required_column_witness :
  ((In "deposit_address"
       ["user_id"; "deposit_address"; "amount_sol_lamports"; "refund_address";
        "recipient_address"]
    /\ Ledger.get Samples.no_deposit_address "deposit_address" = Ledger.NULL)
   \/ (In "deposit_address" ["id"; "status"; "created_at"; "updated_at"]
       /\ Samples.no_deposit_address !! "deposit_address" = Some Ledger.NULL))
  /\ Ledger.insert Ledger.migration_005 Samples.at_100 "bridge_transactions"
       Samples.no_deposit_address Samples.users_only = None.
Proof.
  assert (H : (In "deposit_address"
                 ["user_id"; "deposit_address"; "amount_sol_lamports"; "refund_address";
                  "recipient_address"]
               /\ Ledger.get Samples.no_deposit_address "deposit_address" = Ledger.NULL)
              \/ (In "deposit_address" ["id"; "status"; "created_at"; "updated_at"]
                  /\ Samples.no_deposit_address !! "deposit_address" = Some Ledger.NULL)).
  { left. split; [cbn; auto | vm_compute; reflexivity]. }
  split; [exact H |].
  exact (insert_needs_every_required_column Samples.at_100 Samples.no_deposit_address
           Samples.users_only "deposit_address" H).
Defined.

(** X21.  An [INSERT] into [bridge_transactions] fails when no row of
    [users] has the statement's [user_id] as its [id]: a bridge transaction
    always belongs to a user that exists when it is written. *)

Theorem insert_needs_a_known_user e (supplied : Ledger.row) (db : Ledger.database) :
  Forall (fun u => Ledger.get u "id" <> Ledger.get supplied "user_id")
    (Ledger.rows_of db "users") ->
  Ledger.insert Ledger.migration_005 e "bridge_transactions" supplied db = None.
Proof.
  intros Hnone. rewrite insert_bridge_transactions.
  set (c := Ledger.REFERENCES "users" "id"
              (Ledger.NOT_NULL (Ledger.col "user_id" Ledger.UUID))).
  rewrite (check_row_column _ _ _ _ _ c); [rewrite andb_false_r; reflexivity | cbn; auto |].
  assert (Hget : Ledger.get (Ledger.with_defaults e Ledger.bridge_transactions supplied)
                   "user_id" = Ledger.get supplied "user_id").
  { rewrite (stored_value e supplied c "user_id" ltac:(cbn; auto) eq_refl).
    unfold Ledger.get. destruct (supplied !! "user_id"); reflexivity. }
  unfold Ledger.check_column. cbn [Ledger.references Ledger.col_name c Ledger.REFERENCES
                                     Ledger.NOT_NULL Ledger.col].
  rewrite Hget.
  replace (existsb _ (Ledger.rows_of db "users")) with false.
  { destruct (bool_decide (Ledger.get supplied "user_id" = Ledger.NULL)); cbn;
      rewrite ?andb_false_r; reflexivity. }
  symmetry. apply not_true_is_false. intros Hex.
  apply existsb_exists in Hex as (u & Hu & Heq). apply bool_decide_eq_true in Heq.
  rewrite Forall_forall in Hnone. apply list_elem_of_In in Hu. exact (Hnone u Hu Heq).
Qed.

(** X21 at an attempt of user 8, the only user being 7. *)
Lemma insert_needs_a_known_user_witness :
  Forall (fun u => Ledger.get u "id" <> Ledger.get Samples.attempt_of_a_stranger "user_id")
    (Ledger.rows_of Samples.users_only "users")
  /\ Ledger.insert Ledger.migration_005 Samples.at_100 "bridge_transactions"
       Samples.attempt_of_a_stranger Samples.users_only = None.
Proof.
  assert (H : Forall (fun u => Ledger.get u "id"
                              <> Ledger.get Samples.attempt_of_a_stranger "user_id")
                (Ledger.rows_of Samples.users_only "users")).
  { unfold Samples.users_only, Ledger.rows_of. rewrite lookup_singleton_eq.
    repeat constructor. vm_compute. discriminate. }
  split; [exact H |].
  exact (insert_needs_a_known_user Samples.at_100 Samples.attempt_of_a_stranger
           Samples.users_only H).
Defined.

(** X22.  An [INSERT] into [bridge_transactions] fails when its [id], given
    by the statement or drawn by [gen_random_uuid()], is the [id] of a row
    already stored. *)

Theorem insert_refuses_a_used_id e (supplied : Ledger.row) (db : Ledger.database) i r :
  Ledger.rows_of db "bridge_transactions" !! i = Some r ->
  Ledger.get r "id" = default (Ledger.Uuid (Ledger.random_uuid e)) (supplied !! "id") ->
  Ledger.insert Ledger.migration_005 e "bridge_transactions" supplied db = None.
Proof.
  intros Hi Hid.
  set (c := Ledger.DEFAULT Ledger.Gen_random_uuid
              (Ledger.PRIMARY_KEY (Ledger.col "id" Ledger.UUID))).
  assert (Hget : Ledger.get (Ledger.with_defaults e Ledger.bridge_transactions supplied) "id"
                 = Ledger.get r "id").
  { rewrite (stored_value e supplied c "id" ltac:(cbn; auto) eq_refl).
    rewrite Hid. destruct (supplied !! "id"); reflexivity. }
  destruct (decide (Ledger.get r "id" = Ledger.NULL)) as [Hnull | Hvalue].
  - apply (insert_null_fails e supplied db c); [cbn; auto | reflexivity |].
    cbn [Ledger.col_name c Ledger.DEFAULT Ledger.PRIMARY_KEY Ledger.col].
    rewrite Hget. exact Hnull.
  - rewrite insert_bridge_transactions. unfold Ledger.check_row.
    rewrite bridge_transactions_keys. cbn [forallb].
    replace (forallb _ (Ledger.rows_of db "bridge_transactions")) with false;
      [rewrite !andb_false_r; reflexivity |].
    symmetry. apply not_true_is_false. intros Hall. rewrite forallb_forall in Hall.
    apply list_elem_of_lookup_2, list_elem_of_In in Hi.
    specialize (Hall r Hi). apply negb_true_iff in Hall.
    unfold Ledger.collide in Hall. cbn [forallb map] in Hall.
    rewrite Hget, (bool_decide_eq_false_2 _ Hvalue) in Hall.
    rewrite bool_decide_eq_true_2 in Hall by reflexivity. discriminate.
Qed.

(** X22 at a second insert of the first sample attempt. *)
Lemma insert_refuses_a_used_id_witness :
  Ledger.rows_of Samples.ledger_one "bridge_transactions" !! 0%nat
  = Some Samples.stored_first
  /\ Ledger.get Samples.stored_first "id"
     = default (Ledger.Uuid (Ledger.random_uuid Samples.at_200))
         (Samples.first_attempt !! "id")
  /\ Ledger.insert Ledger.migration_005 Samples.at_200 "bridge_transactions"
       Samples.first_attempt Samples.ledger_one = None.
Proof.
  assert (H1 : Ledger.rows_of Samples.ledger_one "bridge_transactions" !! 0%nat
               = Some Samples.stored_first)
    by (unfold Samples.ledger_one; rewrite rows_of_insert; reflexivity).
  assert (H2 : Ledger.get Samples.stored_first "id"
               = default (Ledger.Uuid (Ledger.random_uuid Samples.at_200))
                   (Samples.first_attempt !! "id")) by (vm_compute; reflexivity).
  split; [exact H1 |]. split; [exact H2 |].
  exact (insert_refuses_a_used_id Samples.at_200 Samples.first_attempt Samples.ledger_one
           0%nat Samples.stored_first H1 H2).
Defined.

(** *** What [UPDATE] leaves alone *)

Lemma assign_other set (OLD : Ledger.row) c :
  ~ In c (map fst set) -> Ledger.get (Ledger.assign set OLD) c = Ledger.get OLD c.
Proof.
  unfold Ledger.assign.
  assert (H : forall acc : Ledger.row,
            ~ In c (map fst set) ->
            Ledger.get (fold_left (fun NEW a => <[fst a := snd a OLD]> NEW) set acc) c
            = Ledger.get acc c); [| apply H].
  induction set as [| a set IH]; intros acc Hc; [reflexivity |].
  cbn [fold_left]. rewrite IH by (intros H; apply Hc; right; exact H).
  unfold Ledger.get. rewrite lookup_insert_ne; [reflexivity |].
  intros Heq. apply Hc. left. exact Heq.
Qed.

(** X23.  An [UPDATE] of [bridge_transactions] that succeeds keeps the
    number of rows and leaves the other tables alone; and in every row, every
    column that the [SET] list does not name keeps its value, [updated_at]
    apart.  In particular [id] and [created_at] survive every update that
    does not assign them. *)
Theorem update_changes_only_the_columns_it_names e set where_ (db db' : Ledger.database) :
  Ledger.update Ledger.migration_005 e "bridge_transactions" set where_ db = Some db' ->
  length (Ledger.rows_of db' "bridge_transactions")
  = length (Ledger.rows_of db "bridge_transactions")
  /\ (forall name, name <> "bridge_transactions" ->
                   Ledger.rows_of db' name = Ledger.rows_of db name)
  /\ forall i OLD NEW c,
       Ledger.rows_of db "bridge_transactions" !! i = Some OLD ->
       Ledger.rows_of db' "bridge_transactions" !! i = Some NEW ->
       ~ In c (map fst set) -> c <> "updated_at" ->
       Ledger.get NEW c = Ledger.get OLD c.
Proof.
  intros Hupdate.
  unfold Ledger.update in Hupdate. rewrite bridge_transactions_found in Hupdate.
  cbv zeta in Hupdate.
  destruct (Ledger.known_columns _ _ && forallb _ _); [| discriminate].
  injection Hupdate as <-. rewrite rows_of_insert. split; [apply length_fmap |].
  split; [intros name Hne; apply rows_of_insert_ne; exact Hne |].
  intros i OLD NEW c Hold Hnew Hc Hstamp.
  rewrite list_lookup_fmap, Hold in Hnew. injection Hnew as <-.
  destruct (where_ OLD); [| reflexivity].
  rewrite update_row_stamped. unfold Ledger.get at 1.
  rewrite lookup_insert_ne by congruence. apply assign_other. exact Hc.
Qed.

(** X23 at the update that records the deposit of the first sample row. *)
Lemma update_changes_only_the_columns_it_names_witness :
  Ledger.update Ledger.migration_005 Samples.at_300 "bridge_transactions"
    Samples.deposit_seen Samples.first_row Samples.ledger_two
  = Some Samples.ledger_three
  /\ length (Ledger.rows_of Samples.ledger_three "bridge_transactions")
     = length (Ledger.rows_of Samples.ledger_two "bridge_transactions")
  /\ (forall name, name <> "bridge_transactions" ->
                   Ledger.rows_of Samples.ledger_three name
                   = Ledger.rows_of Samples.ledger_two name)
  /\ forall i OLD NEW c,
       Ledger.rows_of Samples.ledger_two "bridge_transactions" !! i = Some OLD ->
       Ledger.rows_of Samples.ledger_three "bridge_transactions" !! i = Some NEW ->
       ~ In c (map fst Samples.deposit_seen) -> c <> "updated_at" ->
       Ledger.get NEW c = Ledger.get OLD c.
Proof.
  split; [exact sample_update |].
  exact (update_changes_only_the_columns_it_names Samples.at_300 Samples.deposit_seen
           Samples.first_row Samples.ledger_two Samples.ledger_three sample_update).
Defined.

(** ** The triggers of the wallet tables *)

Lemma update_row_stamps S name e set (OLD : Ledger.row) :
  Ledger.row_triggers S Ledger.BEFORE Ledger.UPDATE name = [Ledger.update_updated_at_column] ->
  Ledger.update_row S e name set OLD
  = <["updated_at" := Ledger.Timestamptz (Ledger.now e)]> (Ledger.assign set OLD).
Proof. unfold Ledger.update_row. intros ->. reflexivity. Qed.

Lemma sample_rekey :
  Ledger.update Ledger.migration_005 Samples.at_300 "solana_wallets"
    Samples.new_keypair Samples.every_row Samples.solana_wallets_one
  = Some Samples.solana_wallets_rekeyed.
Proof.
  unfold Ledger.update. rewrite solana_wallets_found. cbv zeta.
  replace (Ledger.known_columns _ _ && forallb _ _) with true
    by (vm_compute; reflexivity).
  unfold Samples.solana_wallets_one. rewrite rows_of_insert.
  cbn [fmap list_fmap Samples.every_row].
  rewrite (update_row_stamps Ledger.migration_005 "solana_wallets" _ _ _ eq_refl).
  rewrite insert_insert_eq. reflexivity.
Qed.

(** X24.  The triggers [update_solana_wallets_updated_at] and
    [update_wallets_updated_at]: an [UPDATE] of [solana_wallets] or of
    [wallets] that succeeds leaves every row it selected with [updated_at]
    equal to the statement's [NOW()] and with every column the [SET] list
    does not name as it was, and leaves the other rows unchanged. *)
Theorem wallet_updates_stamp_updated_at S name e set where_ (db db' : Ledger.database) :
  In (S, name) [ (Ledger.migration_005, "solana_wallets"); (Ledger.wallets_migration, "wallets") ] ->
  Ledger.update S e name set where_ db = Some db' ->
  forall i OLD,
    Ledger.rows_of db name !! i = Some OLD ->
    exists NEW,
      Ledger.rows_of db' name !! i = Some NEW
      /\ (where_ OLD = true ->
          Ledger.get NEW "updated_at" = Ledger.Timestamptz (Ledger.now e)
          /\ forall c, ~ In c (map fst set) -> c <> "updated_at" ->
                       Ledger.get NEW c = Ledger.get OLD c)
      /\ (where_ OLD = false -> NEW = OLD).
Proof.
  intros Hin Hupdate i OLD Hi.
  assert (Hstamp : Ledger.row_triggers S Ledger.BEFORE Ledger.UPDATE name
                   = [Ledger.update_updated_at_column])
    by (destruct Hin as [[= <- <-] | [[= <- <-] | []]]; reflexivity).
  unfold Ledger.update in Hupdate.
  destruct (Ledger.find_table S name) as [t |]; [| discriminate]. cbv zeta in Hupdate.
  destruct (Ledger.known_columns _ _ && forallb _ _); [| discriminate].
  injection Hupdate as <-. rewrite rows_of_insert, list_lookup_fmap, Hi.
  cbn [fmap option_fmap option_map].
  eexists. split; [reflexivity |].
  destruct (where_ OLD); split; try discriminate; auto.
  intros _. rewrite (update_row_stamps S name e set OLD Hstamp). split.
  - unfold Ledger.get. rewrite lookup_insert_eq. reflexivity.
  - intros c Hc Hne. unfold Ledger.get at 1.
    rewrite lookup_insert_ne by congruence. apply assign_other. exact Hc.
Qed.

(** X24 at the change of the keypair of the sample Solana wallet. *)
Lemma wallet_updates_stamp_updated_at_witness :
  In (Ledger.migration_005, "solana_wallets")
    [ (Ledger.migration_005, "solana_wallets"); (Ledger.wallets_migration, "wallets") ]
  /\ Ledger.update Ledger.migration_005 Samples.at_300 "solana_wallets"
       Samples.new_keypair Samples.every_row Samples.solana_wallets_one
     = Some Samples.solana_wallets_rekeyed
  /\ forall i OLD,
       Ledger.rows_of Samples.solana_wallets_one "solana_wallets" !! i = Some OLD ->
       exists NEW,
         Ledger.rows_of Samples.solana_wallets_rekeyed "solana_wallets" !! i = Some NEW
         /\ (Samples.every_row OLD = true ->
             Ledger.get NEW "updated_at" = Ledger.Timestamptz (Ledger.now Samples.at_300)
             /\ forall c, ~ In c (map fst Samples.new_keypair) -> c <> "updated_at" ->
                          Ledger.get NEW c = Ledger.get OLD c)
         /\ (Samples.every_row OLD = false -> NEW = OLD).
Proof.
  assert (H : In (Ledger.migration_005, "solana_wallets")
                [ (Ledger.migration_005, "solana_wallets");
                  (Ledger.wallets_migration, "wallets") ]) by (left; reflexivity).
  split; [exact H |]. split; [exact sample_rekey |].
  exact (wallet_updates_stamp_updated_at Ledger.migration_005 "solana_wallets"
           Samples.at_300 Samples.new_keypair Samples.every_row
           Samples.solana_wallets_one Samples.solana_wallets_rekeyed H sample_rekey).
Defined.
